(** * BMAD backend: process execution engine and phase orchestration

    A shallow embedding of the parts of the backend that decide how the
    external command-line tool is invoked and how the pipeline stages are
    driven to completion:

    - [llm_clients/gemini_cli_client.py]: [classify_error],
      [_execute_gemini_cli_command], [_run_cli_with_streaming];
    - [core/sequential_document_builder.py]: [_count_open_subtasks],
      [_count_open_tests], [_execute_developer_phase],
      [_execute_tester_phase], [_execute_analyst_phase],
      [_sanitize_code_directories];
    - [core/task_manager.py]: [update_agent_artifacts],
      [update_task_progress];
    - [workflows/master_workflow.py]: the progress writes of
      [execute_workflow].

    Text is modelled by [string] (one [ascii] per character, so the
    embedding covers ASCII text); Python's [str.lower], [str.strip],
    [str.startswith], [str.endswith] and the [in] operator are written out
    on that type.  Wall-clock readings are rationals (seconds). *)

From Stdlib Require Import String Ascii List ZArith QArith Qround Bool Lia Sorted.
From stdpp Require Import base strings gmap.
Import ListNotations.

Local Open Scope string_scope.
Local Open Scope list_scope.

(** ** Python string primitives *)

Module PyStr.

Definition code (c : ascii) : nat := nat_of_ascii c.

(** [str.lower] on one ASCII character. *)
Definition lower_char (c : ascii) : ascii :=
  if (Nat.leb 65 (code c) && Nat.leb (code c) 90)%bool
  then ascii_of_nat (code c + 32)
  else c.

Fixpoint lower (s : string) : string :=
  match s with
  | EmptyString => EmptyString
  | String c r => String (lower_char c) (lower r)
  end.

(** [str.isspace] on one ASCII character: TAB, LF, VT, FF, CR, the four
    separators 0x1c-0x1f and the blank. *)
Definition is_space (c : ascii) : bool :=
  let n := code c in
  ((Nat.leb 9 n && Nat.leb n 13) || (Nat.leb 28 n && Nat.leb n 32))%bool.

Fixpoint lstrip (s : string) : string :=
  match s with
  | EmptyString => EmptyString
  | String c r => if is_space c then lstrip r else s
  end.

(** [rstrip] drops the trailing blanks: a character is kept when it is not
    a blank or when something is kept after it. *)
Fixpoint rstrip (s : string) : string :=
  match s with
  | EmptyString => EmptyString
  | String c r =>
      match rstrip r with
      | EmptyString => if is_space c then EmptyString else String c EmptyString
      | r' => String c r'
      end
  end.

Definition strip (s : string) : string := rstrip (lstrip s).

(** Truth value of a string: [bool(s)], false exactly on the empty one. *)
Definition truthy (s : string) : bool :=
  match s with EmptyString => false | _ => true end.

(** [s.startswith(p)]. *)
Fixpoint startswith (s p : string) {struct p} : bool :=
  match p with
  | EmptyString => true
  | String a p' =>
      match s with
      | EmptyString => false
      | String b s' => (Ascii.eqb a b && startswith s' p')%bool
      end
  end.

(** The character [c] occurs in [s]. *)
Fixpoint occurs (c : ascii) (s : string) : bool :=
  match s with
  | EmptyString => false
  | String b r => (Ascii.eqb c b || occurs c r)%bool
  end.

(** [k in s]: [k] occurs in [s] as a contiguous substring. *)
Fixpoint contains (s k : string) : bool :=
  (startswith s k ||
   match s with
   | EmptyString => false
   | String _ r => contains r k
   end)%bool.

Fixpoint rev_acc (s acc : string) : string :=
  match s with
  | EmptyString => acc
  | String c r => rev_acc r (String c acc)
  end.

Definition rev (s : string) : string := rev_acc s EmptyString.

(** [s.endswith(p)]. *)
Definition endswith (s p : string) : bool := startswith (rev s) (rev p).

(** [s.replace(a, b)] for single characters. *)
Fixpoint replace_char (a b : ascii) (s : string) : string :=
  match s with
  | EmptyString => EmptyString
  | String c r =>
      String (if Ascii.eqb c a then b else c) (replace_char a b r)
  end.

(** [any(k in s for k in ks)]. *)
Definition any_in (s : string) (ks : list string) : bool :=
  existsb (contains s) ks.

End PyStr.

(** ** Invocation policy: [gemini_cli_client.py] *)

Module Cli.

(** Exceptions that travel through [_execute_gemini_cli_command]. *)
Inductive exn : Type :=
| GeminiCLIError (code message : string)
| TimeoutExpired (timeout : Z)
| OverallTimeoutExceeded (elapsed cap : Z)
| OtherException (detail : string).

(** What a child-process run gives back: [(stdout, stderr, return_code)]
    or an exception. *)
Inductive outcome : Type :=
| Completed (stdout stderr : string) (return_code : Z)
| Raised (x : exn).

Inductive result : Type :=
| Return (text : string)
| Raise (x : exn).

(** One observable action of the policy, in the order it happens. *)
Inductive event : Type :=
| EvStdin (timeout idle : Z)
| EvArg (timeout : Z)
| EvSleep (delay : Q).

Definition quota_keys : list string :=
  ["quota"; "exceeded your current quota"; "rate limit"; "too many requests";
   "status: 429"; "resource_exhausted"].

Definition unauthorized_keys : list string :=
  ["unauthorized"; "invalid api key"; "status: 401"; "forbidden"; "status: 403"].

Definition timeout_keys : list string := ["timeout"; "timed out"].

(** [classify_error]: the first matching class wins. *)
Definition classify_error (stderr_text : string) : option exn :=
  if negb (PyStr.truthy stderr_text) then None
  else
    let s := PyStr.lower stderr_text in
    if PyStr.any_in s quota_keys
    then Some (GeminiCLIError "quota_exceeded" (PyStr.strip stderr_text))
    else if PyStr.any_in s unauthorized_keys
    then Some (GeminiCLIError "unauthorized" (PyStr.strip stderr_text))
    else if PyStr.any_in s timeout_keys
    then Some (GeminiCLIError "timeout" (PyStr.strip stderr_text))
    else None.

(** [code in ["unauthorized", "quota_exceeded"]]. *)
Definition no_retry_code (code : string) : bool :=
  (String.eqb code "unauthorized" || String.eqb code "quota_exceeded")%bool.

(** The dictionary returned by [get_agent_timeout_config]; a missing key is
    [None]. *)
Record timeout_config : Type := {
  cfg_max_retries : option Z;
  cfg_timeout : option Z;
  cfg_retry_timeout : option Z;
  cfg_overall : option Z;
  cfg_idle : option Z
}.

(** Python's [int(x)] on a rational: truncation toward zero. *)
Definition py_int (q : Q) : Z := Z.quot (Qnum q) (Zpos (Qden q)).

Section Policy.

(** The world outside the policy: the clock, the two ways of running the
    tool and [time.sleep].  [get_agent_timeout_config] and
    [get_retry_delay] come from [src/config/timeout_config.py]. *)
Variable E : Type.
Variable time_now : E -> Q.
Variable run_stdin : Z -> Z -> E -> outcome * E.
Variable run_arg : Z -> E -> outcome * E.
Variable sleep : Q -> E -> E.
Variable get_agent_timeout_config : string -> timeout_config.
Variable get_retry_delay : string -> Q.

(** The budgets computed before the attempt loop. *)
Record budgets : Type := {
  max_retries : Z;
  base_timeout : Z;
  retry_timeout : Z;
  overall_cap : Z
}.

Definition compute_budgets (max_retries_arg : Z) (agent_name : string) : budgets :=
  if PyStr.truthy agent_name then
    let cfg := get_agent_timeout_config agent_name in
    let base := default 300%Z (cfg_timeout cfg) in
    let retry := default base (cfg_retry_timeout cfg) in
    {| max_retries := default max_retries_arg (cfg_max_retries cfg);
       base_timeout := base;
       retry_timeout := retry;
       overall_cap := default (base + retry)%Z (cfg_overall cfg) |}
  else
    {| max_retries := max_retries_arg; base_timeout := 300;
       retry_timeout := 600; overall_cap := 900 |}.

Inductive flow : Type :=
| Ret (text : string)
| Exc (x : exn)
| Next.

(** What a zero exit status gives: stdout, else the diagnostics unless
    they classify, else the sentinel. *)
Definition on_zero_exit (out err : string) : flow :=
  if PyStr.truthy out then Ret out
  else if PyStr.truthy err then
    match classify_error err with
    | Some x => Exc x
    | None => Ret err
    end
  else Ret "OK".

(** Step 2 of an attempt, the argument mode, with its own handlers: a
    classified error is re-raised, anything else is logged and dropped. *)
Definition arg_mode (timeout_duration : Z) (e : E) (log : list event)
  : flow * E * list event :=
  let '(o, e1) := run_arg timeout_duration e in
  let log1 := log ++ [EvArg timeout_duration] in
  match o with
  | Completed out err rc =>
      let arg_stdout := PyStr.strip out in
      let arg_stderr := PyStr.strip err in
      if (rc =? 0)%Z then
        match on_zero_exit arg_stdout arg_stderr with
        | Ret t => (Ret t, e1, log1)
        | Exc x => (Exc x, e1, log1)
        | Next => (Next, e1, log1)
        end
      else
        match classify_error arg_stderr with
        | Some x => (Exc x, e1, log1)
        | None => (Next, e1, log1)
        end
  | Raised (GeminiCLIError c m) => (Exc (GeminiCLIError c m), e1, log1)
  | Raised _ => (Next, e1, log1)
  end.

(** Per-attempt timeout budget:
    [max(5, min(timeout_duration, int(remaining_overall)))]. *)
Definition attempt_timeout (b : budgets) (attempt : Z) (elapsed : Q) : Z :=
  let t0 := if (attempt =? 0)%Z then base_timeout b else retry_timeout b in
  let remaining_overall := (inject_Z (overall_cap b) - elapsed)%Q in
  Z.max 5 (Z.min t0 (py_int remaining_overall)).

(** Idle budget: [get_agent_timeout_config(agent_name or "").get('idle', 120)]. *)
Definition idle_budget (agent_name : string) : Z :=
  default 120%Z (cfg_idle (get_agent_timeout_config agent_name)).

(** The body of the [try] of one attempt. *)
Definition try_block (b : budgets) (agent_name : string) (overall_start : Q)
    (attempt : Z) (e : E) (log : list event) : flow * E * list event :=
  let elapsed := (time_now e - overall_start)%Q in
  if Qle_bool (inject_Z (overall_cap b)) elapsed
  then (Exc (OverallTimeoutExceeded (py_int elapsed) (overall_cap b)), e, log)
  else
    let timeout_duration := attempt_timeout b attempt elapsed in
    let idle_timeout := idle_budget agent_name in
    let '(o, e1) := run_stdin timeout_duration idle_timeout e in
    let log1 := log ++ [EvStdin timeout_duration idle_timeout] in
    match o with
    | Raised x => (Exc x, e1, log1)
    | Completed out err rc =>
        if (rc =? 0)%Z then
          match on_zero_exit out err with
          | Ret t => (Ret t, e1, log1)
          | Exc x => (Exc x, e1, log1)
          | Next => (Next, e1, log1)
          end
        else
          match classify_error err with
          | Some x => (Exc x, e1, log1)
          | None => arg_mode timeout_duration e1 log1
          end
    end.

(** The three [except] clauses of the attempt loop: [inl] re-raises,
    [inr] sleeps and goes on to the next attempt. *)
Definition handle (b : budgets) (attempt : Z) (x : exn) (e : E) (log : list event)
  : exn + (E * list event) :=
  match x with
  | TimeoutExpired _ =>
      if (attempt <? max_retries b)%Z then
        let d := get_retry_delay "timeout" in
        inr (sleep d e, log ++ [EvSleep d])
      else inl (GeminiCLIError "timeout"
                  "Gemini CLI command timed out after all retry attempts")
  | GeminiCLIError code _ =>
      if (no_retry_code code || (max_retries b <=? attempt)%Z)%bool then inl x
      else
        let d := get_retry_delay "error" in
        inr (sleep d e, log ++ [EvSleep d])
  | _ =>
      if (attempt <? max_retries b)%Z then
        let d := get_retry_delay "error" in
        inr (sleep d e, log ++ [EvSleep d])
      else inl x
  end.

(** [for attempt in range(max_retries + 1)], with [n] attempts left. *)
Fixpoint attempts (b : budgets) (agent_name : string) (overall_start : Q)
    (n : nat) (attempt : Z) (last_exception : option exn)
    (e : E) (log : list event) : result * E * list event :=
  match n with
  | O =>
      (Raise (default (GeminiCLIError "unknown" "Unknown error occurred")
                      last_exception), e, log)
  | S n' =>
      match try_block b agent_name overall_start attempt e log with
      | (Ret t, e1, log1) => (Return t, e1, log1)
      | (Next, e1, log1) =>
          attempts b agent_name overall_start n' (attempt + 1)%Z
                   last_exception e1 log1
      | (Exc x, e1, log1) =>
          match handle b attempt x e1 log1 with
          | inl y => (Raise y, e1, log1)
          | inr (e2, log2) =>
              attempts b agent_name overall_start n' (attempt + 1)%Z
                       (Some x) e2 log2
          end
      end
  end.

Definition _execute_gemini_cli_command (max_retries_arg : Z)
    (agent_name : string) (e : E) : result * E * list event :=
  let b := compute_budgets max_retries_arg agent_name in
  attempts b agent_name (time_now e) (Z.to_nat (max_retries b + 1)) 0%Z None e [].

End Policy.

End Cli.


(** ** A scripted world for the invocation policy

    The tool's behaviour is a script: every run of the child process takes
    the next entry (how long it ran, what it gave back); [time.sleep]
    advances the clock. *)

Module CliScript.

Record world : Type := {
  clock : Q;
  stdin_script : list (Q * Cli.outcome);
  arg_script : list (Q * Cli.outcome)
}.

Definition time_now (w : world) : Q := clock w.

Definition no_process : Cli.outcome :=
  Cli.Raised (Cli.OtherException "no such file or directory").

Definition run_stdin (_ _ : Z) (w : world) : Cli.outcome * world :=
  match stdin_script w with
  | [] => (no_process, w)
  | (d, o) :: rest =>
      (o, {| clock := (clock w + d)%Q; stdin_script := rest;
             arg_script := arg_script w |})
  end.

Definition run_arg (_ : Z) (w : world) : Cli.outcome * world :=
  match arg_script w with
  | [] => (no_process, w)
  | (d, o) :: rest =>
      (o, {| clock := (clock w + d)%Q; stdin_script := stdin_script w;
             arg_script := rest |})
  end.

Definition sleep (d : Q) (w : world) : world :=
  {| clock := (clock w + d)%Q; stdin_script := stdin_script w;
     arg_script := arg_script w |}.

(** No per-agent entry: every key falls back to its default. *)
Definition no_config (_ : string) : Cli.timeout_config :=
  {| Cli.cfg_max_retries := None; Cli.cfg_timeout := None;
     Cli.cfg_retry_timeout := None; Cli.cfg_overall := None;
     Cli.cfg_idle := None |}.

Definition retry_delay (kind : string) : Q :=
  if String.eqb kind "timeout" then 10%Q else 5%Q.

Definition execute (max_retries_arg : Z) (agent_name : string) (w : world) :=
  Cli._execute_gemini_cli_command world time_now run_stdin run_arg sleep
    no_config retry_delay max_retries_arg agent_name w.

(** The tool answers exit code 1 with the diagnostic "429 too many
    requests"; a second run and an argument-mode run would succeed. *)
Definition quota_world : world :=
  {| clock := 0%Q;
     stdin_script := [(2%Q, Cli.Completed "" "429 too many requests" 1%Z);
                      (2%Q, Cli.Completed "done" "" 0%Z)];
     arg_script := [(2%Q, Cli.Completed "done" "" 0%Z)] |}.

(** An unclassified failure in both modes, then success. *)
Definition flaky_world : world :=
  {| clock := 0%Q;
     stdin_script := [(2%Q, Cli.Completed "" "segmentation fault" 1%Z);
                      (2%Q, Cli.Completed "done" "" 0%Z)];
     arg_script := [(2%Q, Cli.Completed "" "segmentation fault" 1%Z)] |}.

End CliScript.

(** ** Process runner: [_run_cli_with_streaming] *)

Module Runner.
Import Cli.

Inductive stream : Type := Stdout | Stderr.

Definition stream_eqb (a b : stream) : bool :=
  match a, b with
  | Stdout, Stdout | Stderr, Stderr => true
  | _, _ => false
  end.

(** The local variables of the read loop. *)
Record loop_state : Type := {
  start_time : Q;
  last_output_time : Q;
  stdout_chunks : list string;
  stderr_chunks : list string;
  registered : list stream
}.

(** ["".join(chunks)]. *)
Definition join (chunks : list string) : string :=
  fold_right String.append EmptyString chunks.

(** [a > b] on clock values. *)
Definition Qgtb (a b : Q) : bool := negb (Qle_bool a b).

Section Run.

(** The child process and the clock as the runner sees them.  Every
    operation returns: [readline] gives a line, or the empty text at the
    end of the stream; a [readline] that blocks for ever on an
    unfinished line has no counterpart here. *)
Variable W : Type.
Variable time_now : W -> Q.
Variable send_input : string -> W -> option exn * W.
Variable poll : W -> option Z.
Variable select : list stream -> W -> list stream * W.
Variable readline : stream -> W -> string * W.
Variable kill : W -> W.

(** One ready stream of [for key, _ in events]. *)
Definition read_event (s : stream) (st : loop_state) (w : W) : loop_state * W :=
  let '(data, w1) := readline s w in
  if negb (PyStr.truthy data) then
    ({| start_time := start_time st;
        last_output_time := last_output_time st;
        stdout_chunks := stdout_chunks st;
        stderr_chunks := stderr_chunks st;
        registered := List.filter (fun r => negb (stream_eqb r s)) (registered st) |},
     w1)
  else
    ({| start_time := start_time st;
        last_output_time := time_now w1;
        stdout_chunks :=
          if stream_eqb s Stdout then stdout_chunks st ++ [data]
          else stdout_chunks st;
        stderr_chunks :=
          if stream_eqb s Stdout then stderr_chunks st
          else stderr_chunks st ++ [data];
        registered := registered st |},
     w1).

Fixpoint read_events (events : list stream) (st : loop_state) (w : W)
  : loop_state * W :=
  match events with
  | [] => (st, w)
  | s :: rest =>
      let '(st1, w1) := read_event s st w in
      read_events rest st1 w1
  end.

(** What one pass of [while True] decides. *)
Inductive pass : Type :=
| Timeout (x : exn) (w : W)
| Break (st : loop_state) (w : W)
| Continue (st : loop_state) (w : W).

Definition loop_pass (timeout_seconds idle_timeout_seconds : Z)
    (st : loop_state) (w : W) : pass :=
  let now := time_now w in
  if Qgtb (now - start_time st) (inject_Z timeout_seconds)
  then Timeout (TimeoutExpired timeout_seconds) (kill w)
  else if Qgtb (now - last_output_time st) (inject_Z idle_timeout_seconds)
  then Timeout (TimeoutExpired idle_timeout_seconds) (kill w)
  else
    match poll w, registered st with
    | Some _, [] => Break st w
    | _, _ =>
        let '(events, w1) := select (registered st) w in
        let '(st1, w2) := read_events events st w1 in
        Continue st1 w2
    end.

(** The [finally] clause: kill the child when it is still running. *)
Definition finally_ (w : W) : W :=
  match poll w with
  | None => kill w
  | Some _ => w
  end.

(** [while True], with [fuel] passes at most; [None] when they run out. *)
Fixpoint read_loop (fuel : nat) (timeout_seconds idle_timeout_seconds : Z)
    (st : loop_state) (w : W) : option (outcome * W) :=
  match fuel with
  | O => None
  | S fuel' =>
      match loop_pass timeout_seconds idle_timeout_seconds st w with
      | Timeout x w1 => Some (Raised x, finally_ w1)
      | Break st1 w1 =>
          Some (Completed (PyStr.strip (join (stdout_chunks st1)))
                          (PyStr.strip (join (stderr_chunks st1)))
                          (default 0%Z (poll w1)),
                finally_ w1)
      | Continue st1 w1 =>
          read_loop fuel' timeout_seconds idle_timeout_seconds st1 w1
      end
  end.

Definition initial_state (w : W) : loop_state :=
  {| start_time := time_now w; last_output_time := time_now w;
     stdout_chunks := []; stderr_chunks := [];
     registered := [Stdout; Stderr] |}.

Definition _run_cli_with_streaming (fuel : nat) (input_text : string)
    (timeout_seconds idle_timeout_seconds : Z) (w : W)
  : option (outcome * W) :=
  let st := initial_state w in
  match send_input input_text w with
  | (Some x, w1) => Some (Raised x, finally_ w1)
  | (None, w1) => read_loop fuel timeout_seconds idle_timeout_seconds st w1
  end.

End Run.

End Runner.

(** ** A scripted child process *)

Module RunnerScript.
Import Runner.

(** What happens during one [select]: how long it blocks, the lines that
    become readable, and whether the child exits meanwhile. *)
Record tick : Type := {
  dt : Q;
  lines : list (stream * string);
  exits : option Z
}.

Record world : Type := {
  clock : Q;
  exit_code : option Z;
  kills : nat;
  ready : list (stream * string);
  pending : list tick
}.

Definition time_now (w : world) : Q := clock w.

Definition send_input (_ : string) (w : world) : option Cli.exn * world := (None, w).

Definition poll (w : world) : option Z := exit_code w.

(** [select(timeout=0.5)]: with nothing scripted it times out empty. *)
Definition select (_ : list stream) (w : world) : list stream * world :=
  match pending w with
  | [] =>
      ([], {| clock := (clock w + (1 # 2))%Q; exit_code := exit_code w;
              kills := kills w; ready := []; pending := [] |})
  | t :: rest =>
      (map fst (lines t),
       {| clock := (clock w + dt t)%Q;
          exit_code := match exit_code w with Some c => Some c | None => exits t end;
          kills := kills w; ready := lines t; pending := rest |})
  end.

Fixpoint take_line (s : stream) (l : list (stream * string))
  : string * list (stream * string) :=
  match l with
  | [] => (EmptyString, [])
  | (s', d) :: rest =>
      if stream_eqb s s' then (d, rest)
      else let '(d', rest') := take_line s rest in (d', (s', d) :: rest')
  end.

Definition readline (s : stream) (w : world) : string * world :=
  let '(d, r) := take_line s (ready w) in
  (d, {| clock := clock w; exit_code := exit_code w; kills := kills w;
         ready := r; pending := pending w |}).

Definition kill (w : world) : world :=
  {| clock := clock w; exit_code := exit_code w; kills := S (kills w);
     ready := ready w; pending := pending w |}.

Definition run (fuel : nat) (timeout_seconds idle_timeout_seconds : Z) (w : world) :=
  _run_cli_with_streaming world time_now send_input poll select readline kill
    fuel EmptyString timeout_seconds idle_timeout_seconds w.

Definition fresh (script : list tick) : world :=
  {| clock := 0%Q; exit_code := None; kills := 0; ready := []; pending := script |}.

Definition newline : string := String (ascii_of_nat 10) EmptyString.

(** One line, then silence: a hung child. *)
Definition hung : world :=
  fresh [ {| dt := 1 # 10; lines := [(Stdout, "thinking" +:+ newline)]; exits := None |} ].

(** A line every second, never finishing: slow but alive. *)
Definition chatty : world :=
  fresh (repeat {| dt := 1%Q; lines := [(Stdout, "." +:+ newline)]; exits := None |} 20).

(** Two lines, then both streams close and the child exits with 0. *)
Definition finishing : world :=
  fresh [ {| dt := 1 # 10; lines := [(Stdout, "hello" +:+ newline)]; exits := None |};
          {| dt := 1 # 10; lines := [(Stderr, "warn" +:+ newline)]; exits := None |};
          {| dt := 1 # 10; lines := [(Stdout, ""); (Stderr, "")]; exits := Some 0%Z |} ].

End RunnerScript.

(** ** Progress markers: [_count_open_subtasks], [_count_open_tests] *)

Module Marker.

(** What opening and reading a file gives: it does not exist, reading it
    raises, or its text. *)
Inductive file_read : Type :=
| Missing
| Unreadable
| Content (text : string).

Definition open_item : string := "- [ ] ".

Definition is_newline (c : ascii) : bool := Ascii.eqb c (ascii_of_nat 10).

(** [len(re.findall(r"^- \[ \] ", content, flags=re.MULTILINE))]: the
    positions at the start of the text or just after a line feed where
    the text goes on with the open-item token.  [at_start] tells whether
    the current position is such a position. *)
Fixpoint count_from (at_start : bool) (content : string) : nat :=
  match content with
  | EmptyString => 0
  | String c rest =>
      (if (at_start && PyStr.startswith content open_item)%bool then 1 else 0)
      + count_from (is_newline c) rest
  end.

Definition count_open_lines (content : string) : nat := count_from true content.

(** Both counters share this body; they differ in the path they read. *)
Definition count_open (f : file_read) : nat :=
  match f with
  | Missing => 0
  | Unreadable => 0
  | Content text => count_open_lines text
  end.

End Marker.

(** ** Phase executors: [sequential_document_builder.py] *)

Module Builder.
Import Marker.

(** The prompts the executors send, by kind; the wording is not modelled. *)
Inductive prompt : Type :=
| CreateAgentFile (agent : string)
| CreateOutput (agent : string)
| SecondDeveloper
| ContinueDeveloper
| FinalAttempt (remaining : nat)
| RunTests.

(** [generate_single_response] returns text or raises. *)
Inductive response : Type :=
| Text (t : string)
| Raises (detail : string).

(** The dictionary an executor returns: its status, its message (the
    count quoted inside a message is left out) and the remaining count
    when the dictionary has one; the echoed response is not modelled. *)
Record phase_result : Type := {
  status : string;
  message : string;
  remaining : option nat
}.

(** [response.strip().lower().startswith("error generating response")]. *)
Definition is_error_text (r : string) : bool :=
  PyStr.startswith (PyStr.lower (PyStr.strip r)) "error generating response".

Definition dev_max_iterations : nat := 10.
Definition test_max_iterations : nat := 30.

(** The variables of the developer's convergence loop. *)
Record dev_state : Type := {
  iterations : nat;
  improved : bool;
  last_remaining : option nat
}.

Definition dev_init : dev_state :=
  {| iterations := 0; improved := true; last_remaining := None |}.

(** [if last_remaining is not None and remaining >= last_remaining:
    improved = False], then the two assignments that follow. *)
Definition dev_observe (remaining : nat) (st : dev_state) : dev_state :=
  {| iterations := S (iterations st);
     improved :=
       match last_remaining st with
       | Some l => if Nat.leb l remaining then false else improved st
       | None => improved st
       end;
     last_remaining := Some remaining |}.

(** The same loop variables with the "improving" flag overwritten. *)
Definition with_improved (b : bool) (st : dev_state) : dev_state :=
  {| iterations := iterations st; improved := b;
     last_remaining := last_remaining st |}.

Section Phases.

(** The project tree together with the external tool. *)
Variable P : Type.
Variable tasks_list : P -> file_read.
Variable test_list : P -> file_read.
Variable generate : prompt -> P -> response * P.
Variable write_code_tree : P -> P.

Definition _count_open_subtasks (p : P) : nat := count_open (tasks_list p).
Definition _count_open_tests (p : P) : nat := count_open (test_list p).

(** The [except Exception as e] of an executor. *)
Definition error_result (detail : string) : phase_result :=
  {| status := "error"; message := detail; remaining := None |}.

(** How the developer's [while] loop is left. *)
Inductive dev_exit : Type :=
| DevReturned (r : phase_result)
| DevLeft (st : dev_state)
| DevRaised (detail : string).

Definition exit_with_improved (b : bool) (x : dev_exit) : dev_exit :=
  match x with
  | DevLeft st => DevLeft (with_improved b st)
  | other => other
  end.

(** [while iterations < max_iterations], with [n] iterations to go. *)
Fixpoint developer_loop (n : nat) (st : dev_state) (p : P) (log : list prompt)
  : dev_exit * P * list prompt :=
  match n with
  | O => (DevLeft st, p, log)
  | S n' =>
      let remaining := _count_open_subtasks p in
      if Nat.eqb remaining 0 then
        (DevReturned {| status := "success";
                        message := "All developer subtasks completed";
                        remaining := Some 0 |}, p, log)
      else
        let st1 := dev_observe remaining st in
        match generate ContinueDeveloper p with
        | (Raises d, p1) => (DevRaised d, p1, log ++ [ContinueDeveloper])
        | (Text cont_response, p1) =>
            if is_error_text cont_response
            then (DevLeft st1, p1, log ++ [ContinueDeveloper])
            else developer_loop n' st1 p1 (log ++ [ContinueDeveloper])
        end
  end.

(** The code after the loop: recount, and one more attempt when
    subtasks remain. *)
Definition developer_finish (st : dev_state) (p : P) (log : list prompt)
  : phase_result * P * list prompt :=
  let final_remaining := _count_open_subtasks p in
  if Nat.eqb final_remaining 0 then
    ({| status := "success"; message := "All developer subtasks completed";
        remaining := Some 0 |}, p, log)
  else
    let status0 := if improved st then "partial" else "failed" in
    match generate (FinalAttempt final_remaining) p with
    | (Raises d, p1) =>
        (error_result d, p1, log ++ [FinalAttempt final_remaining])
    | (Text _, p1) =>
        let final_remaining1 := _count_open_subtasks p1 in
        if Nat.eqb final_remaining1 0 then
          ({| status := "success";
              message := "All developer subtasks completed on final attempt";
              remaining := Some 0 |}, p1, log ++ [FinalAttempt final_remaining])
        else
          ({| status := status0; message := "Remaining subtasks";
              remaining := Some final_remaining1 |},
           p1, log ++ [FinalAttempt final_remaining])
    end.

(** The three invocations before the loop: the agent file, the first
    developer prompt (whose error text ends the phase) and the second
    one.  [inl] is an early return. *)
Definition developer_prelude (p : P)
  : (phase_result + unit) * P * list prompt :=
  match generate (CreateAgentFile "developer") p with
  | (Raises d, p1) => (inl (error_result d), p1, [CreateAgentFile "developer"])
  | (Text _, p1) =>
      let p2 := write_code_tree p1 in
      let log2 := [CreateAgentFile "developer"; CreateOutput "developer"] in
      match generate (CreateOutput "developer") p2 with
      | (Raises d, p3) => (inl (error_result d), p3, log2)
      | (Text response, p3) =>
          if is_error_text response then
            (inl {| status := "error"; message := response;
                    remaining := Some (_count_open_subtasks p3) |}, p3, log2)
          else
            match generate SecondDeveloper p3 with
            | (Raises d, p4) => (inl (error_result d), p4, log2 ++ [SecondDeveloper])
            | (Text _, p4) => (inr tt, p4, log2 ++ [SecondDeveloper])
            end
      end
  end.

Definition _execute_developer_phase (p : P) : phase_result * P * list prompt :=
  match developer_prelude p with
  | (inl r, p1, log1) => (r, p1, log1)
  | (inr _, p1, log1) =>
      match developer_loop dev_max_iterations dev_init p1 log1 with
      | (DevReturned r, p2, log2) => (r, p2, log2)
      | (DevRaised d, p2, log2) => (error_result d, p2, log2)
      | (DevLeft st, p2, log2) => developer_finish st p2 log2
      end
  end.

(** How the tester's [while] loop is left. *)
Inductive test_exit : Type :=
| TestLeft
| TestRaised (detail : string).

(** [while remaining_tests and iteration < max_iterations], with [n]
    iterations to go; an error text does not leave the loop. *)
Fixpoint tester_loop (n : nat) (p : P) (log : list prompt)
  : test_exit * P * list prompt :=
  match n with
  | O => (TestLeft, p, log)
  | S n' =>
      if Nat.eqb (_count_open_tests p) 0 then (TestLeft, p, log)
      else
        match generate RunTests p with
        | (Raises d, p1) => (TestRaised d, p1, log ++ [RunTests])
        | (Text _, p1) => tester_loop n' p1 (log ++ [RunTests])
        end
  end.

Definition tester_finish (p : P) (log : list prompt)
  : phase_result * P * list prompt :=
  let final_remaining := _count_open_tests p in
  ({| status := if Nat.eqb final_remaining 0 then "success" else "partial";
      message := "Tester executed tests sequentially";
      remaining := Some final_remaining |}, p, log).

Definition tester_prelude (p : P) : (phase_result + unit) * P * list prompt :=
  match generate (CreateAgentFile "tester") p with
  | (Raises d, p1) => (inl (error_result d), p1, [CreateAgentFile "tester"])
  | (Text agent_file_response, p1) =>
      if is_error_text agent_file_response then
        (inl (error_result agent_file_response), p1, [CreateAgentFile "tester"])
      else
        let p2 := write_code_tree p1 in
        let log2 := [CreateAgentFile "tester"; CreateOutput "tester"] in
        match generate (CreateOutput "tester") p2 with
        | (Raises d, p3) => (inl (error_result d), p3, log2)
        | (Text response, p3) =>
            if is_error_text response then (inl (error_result response), p3, log2)
            else (inr tt, p3, log2)
        end
  end.

Definition _execute_tester_phase (p : P) : phase_result * P * list prompt :=
  match tester_prelude p with
  | (inl r, p1, log1) => (r, p1, log1)
  | (inr _, p1, log1) =>
      match tester_loop test_max_iterations p1 log1 with
      | (TestRaised d, p2, log2) => (error_result d, p2, log2)
      | (TestLeft, p2, log2) => tester_finish p2 log2
      end
  end.

(** The analyst: two invocations, then success. *)
Definition _execute_analyst_phase (p : P) : phase_result * P * list prompt :=
  match generate (CreateAgentFile "analyst") p with
  | (Raises d, p1) => (error_result d, p1, [CreateAgentFile "analyst"])
  | (Text _, p1) =>
      let log2 := [CreateAgentFile "analyst"; CreateOutput "analyst"] in
      match generate (CreateOutput "analyst") p1 with
      | (Raises d, p2) => (error_result d, p2, log2)
      | (Text _, p2) =>
          ({| status := "success";
              message := "Gemini CLI created analysis and requirements documents";
              remaining := None |}, p2, log2)
      end
  end.

End Phases.

End Builder.

(** ** A scripted project for the phase executors

    Every invocation of the tool takes the next entry of the script: what
    it answers and what it leaves in the two checklists.  Past the end of
    the script the tool answers "OK" and changes nothing. *)

Module BuilderScript.
Import Marker Builder.

Record effect : Type := {
  reply : response;
  tasks_after : option file_read;
  tests_after : option file_read
}.

Record world : Type := {
  tasks_file : file_read;
  tests_file : file_read;
  script : list effect
}.

Definition generate (_ : prompt) (w : world) : response * world :=
  match script w with
  | [] => (Text "OK", w)
  | e :: rest =>
      (reply e,
       {| tasks_file := default (tasks_file w) (tasks_after e);
          tests_file := default (tests_file w) (tests_after e);
          script := rest |})
  end.

Definition write_code_tree (w : world) : world := w.

Definition developer (w : world) :=
  _execute_developer_phase world tasks_file generate write_code_tree w.

Definition tester (w : world) :=
  _execute_tester_phase world tests_file generate write_code_tree w.

Definition analyst (w : world) :=
  _execute_analyst_phase world generate w.

Definition newline : string := String (ascii_of_nat 10) EmptyString.

(** A checklist with [k] open items after [d] closed ones. *)
Fixpoint items (mark : string) (k : nat) : string :=
  match k with
  | O => EmptyString
  | S k' => mark +:+ "item" +:+ newline +:+ items mark k'
  end.

Definition checklist (d k : nat) : file_read :=
  Content ("# Tasks" +:+ newline +:+ items "- [x] " d +:+ items "- [ ] " k).

Definition says (t : string) : effect :=
  {| reply := Text t; tasks_after := None; tests_after := None |}.

Definition leaves_tasks (f : file_read) : effect :=
  {| reply := Text "done"; tasks_after := Some f; tests_after := None |}.

Definition leaves_tests (f : file_read) : effect :=
  {| reply := Text "done"; tasks_after := None; tests_after := Some f |}.

Definition start (f : file_read) (s : list effect) : world :=
  {| tasks_file := f; tests_file := f; script := s |}.

(** The first developer prompt fails; the checklist holds [k] open items. *)
Definition first_pass_fails (k : nat) : world :=
  start (checklist 1 k)
    [says "ok"; says "Error generating response: exit status 1"].

(** No checklist is ever written. *)
Definition no_checklist : world := start Missing [].

(** The checklist keeps two open items whatever the tool is asked. *)
Definition stuck : world := start (checklist 0 2) [].

(** Open items after the tool's successive invocations: 3, then 1, then 0. *)
Definition three_one_zero : world :=
  start Missing
    [leaves_tasks (checklist 0 3); leaves_tasks (checklist 2 1);
     leaves_tasks (checklist 3 0)].

(** Developer: the three initial invocations leave 3 open items, the
    continuations leave 2, then 2 again, then 1, then 0. *)
Definition stalls_then_finishes : world :=
  start (checklist 0 3)
    [says "ok"; says "ok"; says "ok";
     leaves_tasks (checklist 1 2); leaves_tasks (checklist 1 2);
     leaves_tasks (checklist 2 1); leaves_tasks (checklist 3 0)].

End BuilderScript.

(** The parts of the developer and tester stages on a scripted project. *)

Module BuilderParts.
Import Builder BuilderScript.

Definition count_tasks (w : world) : nat := _count_open_subtasks world tasks_file w.
Definition count_tests (w : world) : nat := _count_open_tests world tests_file w.

Definition developer_prelude (w : world) :=
  Builder.developer_prelude world tasks_file generate write_code_tree w.

Definition developer_loop (n : nat) (st : dev_state) (w : world) (log : list prompt) :=
  Builder.developer_loop world tasks_file generate n st w log.

Definition tester_prelude (w : world) :=
  Builder.tester_prelude world generate write_code_tree w.

Definition tester_loop (n : nat) (w : world) (log : list prompt) :=
  Builder.tester_loop world tests_file generate n w log.

Definition developer_opening : list prompt :=
  [CreateAgentFile "developer"; CreateOutput "developer"; SecondDeveloper].

Definition tester_opening : list prompt :=
  [CreateAgentFile "tester"; CreateOutput "tester"].

End BuilderParts.

(** ** The project tree and [_sanitize_code_directories] *)

Module Tree.

(** A regular file: its text, and whether opening it for reading and for
    writing succeeds. *)
Record file : Type := {
  content : string;
  readable : bool;
  writable : bool
}.

#[warnings="-register-all"]
Inductive node : Type :=
| File (f : file)
| Dir (entries : list (string * node)).

Definition path : Type := list string.

Definition is_dir (n : node) : bool :=
  match n with Dir _ => true | File _ => false end.

(** The files below a node, as [os.walk] reaches them, each with the
    names that lead to it. *)
Fixpoint files_of (n : node) : list (path * file) :=
  match n with
  | File f => [([], f)]
  | Dir entries =>
      flat_map (fun e => map (fun pf => (fst e :: fst pf, snd pf)) (files_of (snd e)))
               entries
  end.

(** The last name of a path: the file's own name. *)
Definition basename (p : path) : string := List.last p EmptyString.

End Tree.

Module Sanitize.
Import Tree.

Definition dot : ascii := ascii_of_nat 46.

Fixpoint has_dot (s : string) : bool :=
  match s with
  | EmptyString => false
  | String c r => (Ascii.eqb c dot || has_dot r)%bool
  end.

(** [os.path.splitext(fname)[1]] for a name without separator: the text
    from the last dot on, unless only dots come before that dot. *)
Fixpoint ext_from (seen_other : bool) (s : string) : string :=
  match s with
  | EmptyString => EmptyString
  | String c r =>
      if has_dot r then ext_from (seen_other || negb (Ascii.eqb c dot)) r
      else if (Ascii.eqb c dot && seen_other)%bool then s
      else EmptyString
  end.

Definition splitext_ext (fname : string) : string := ext_from false fname.

Definition newline : string := String (ascii_of_nat 10) EmptyString.

Definition slashes : string := "// Placeholder - to be implemented by Developer agent" +:+ newline.
Definition hash : string := "# Placeholder - to be implemented by Developer agent" +:+ newline.
Definition stars : string := "/* Placeholder - to be implemented by Developer agent */" +:+ newline.

Definition placeholder_map : gmap string string :=
  list_to_map
    [(".py", hash); (".js", slashes); (".ts", slashes); (".tsx", slashes);
     (".jsx", slashes);
     (".html", "<!-- Placeholder - to be implemented by Developer agent -->" +:+ newline);
     (".css", stars); (".scss", stars); (".go", slashes); (".java", slashes);
     (".kt", slashes); (".rb", hash);
     (".php", "<?php /* Placeholder - to be implemented by Developer agent */ ?>" +:+ newline);
     (".cs", slashes); (".swift", slashes); (".rs", slashes)].

Definition default_placeholder : string :=
  "Placeholder - to be implemented by Developer agent" +:+ newline.

(** [placeholder_map.get(ext, 'Placeholder - ...')] with
    [ext = os.path.splitext(fname)[1].lower()]. *)
Definition placeholder_for (fname : string) : string :=
  default default_placeholder
          (placeholder_map !! PyStr.lower (splitext_ext fname)).

(** [content.strip()] is empty. *)
Definition blank (text : string) : bool := negb (PyStr.truthy (PyStr.strip text)).

(** The body of the inner [for fname in files] for one file that is not
    [.gitkeep]: a failing [open] leaves the file as it is. *)
Definition sanitize_file (fname : string) (f : file) : file :=
  if negb (readable f) then f
  else if blank (content f) then f
  else if negb (writable f) then f
  else {| content := placeholder_for fname; readable := readable f;
          writable := writable f |}.

Definition is_gitkeep (fname : string) : bool := String.eqb fname ".gitkeep".

(** First pass: every file below a code directory. *)
Fixpoint sanitize_node (n : node) : node :=
  match n with
  | File f => File f
  | Dir entries =>
      Dir (map (fun e =>
                  match snd e with
                  | File f =>
                      (fst e, File (if is_gitkeep (fst e) then f
                                    else sanitize_file (fst e) f))
                  | Dir _ => (fst e, sanitize_node (snd e))
                  end) entries)
  end.

Definition empty_file : file :=
  {| content := EmptyString; readable := true; writable := true |}.

Definition has_name (fname : string) (entries : list (string * node)) : bool :=
  existsb (fun e => String.eqb (fst e) fname) entries.

(** Second pass: a directory that lists no file gets a [.gitkeep], unless
    that name exists already. *)
Fixpoint keep_node (n : node) : node :=
  match n with
  | File f => File f
  | Dir entries =>
      let below := map (fun e => (fst e, keep_node (snd e))) entries in
      if (forallb (fun e => is_dir (snd e)) entries
          && negb (has_name ".gitkeep" entries))%bool
      then Dir (below ++ [(".gitkeep", File empty_file)])
      else Dir below
  end.

Definition is_code_dir (name : string) : bool :=
  (String.eqb name "backend" || String.eqb name "frontend")%bool.

(** Apply [f] to the code directories of the project root. *)
Definition on_code_dirs (f : node -> node) (root : list (string * node))
  : list (string * node) :=
  map (fun e => if (is_code_dir (fst e) && is_dir (snd e))%bool
                then (fst e, f (snd e)) else e) root.

(** The project tree after [_sanitize_code_directories]. *)
Definition _sanitize_code_directories (root : list (string * node))
  : list (string * node) :=
  on_code_dirs keep_node (on_code_dirs sanitize_node root).

(** The files of the code directories, with their paths from the root. *)
Definition code_files (root : list (string * node)) : list (path * file) :=
  flat_map (fun e =>
              if (is_code_dir (fst e) && is_dir (snd e))%bool
              then map (fun pf => (fst e :: fst pf, snd pf)) (files_of (snd e))
              else []) root.

(** The paths whose file the first pass rewrites: the list the function
    returns. *)
Definition modified (root : list (string * node)) : list path :=
  map fst
      (List.filter (fun pf =>
                 let name := basename (fst pf) in
                 (negb (is_gitkeep name) && readable (snd pf)
                  && negb (blank (content (snd pf))) && writable (snd pf))%bool)
              (code_files root)).

(** A listed file seen from the directory [name] above it. *)
Definition under (name : string) (pf : path * file) : path * file :=
  (name :: fst pf, snd pf).

(** What the first pass does to one listed file. *)
Definition pass1 (pf : path * file) : path * file :=
  (fst pf,
   if is_gitkeep (basename (fst pf)) then snd pf
   else sanitize_file (basename (fst pf)) (snd pf)).

(** What the whole function does to a listed file other than [.gitkeep]. *)
Definition overwrite (pf : path * file) : path * file :=
  (fst pf, sanitize_file (basename (fst pf)) (snd pf)).

Definition not_gitkeep (pf : path * file) : bool :=
  negb (is_gitkeep (basename (fst pf))).

Definition plain (text : string) : file :=
  {| content := text; readable := true; writable := true |}.

(** A project where the tool wrote code in the structure stage: one
    file that cannot be opened for reading, one that is read-only. *)
Definition sample_root : list (string * node) :=
  [ ("backend",
     Dir [ ("app.py", File (plain "import os"));
           ("locked.py", File {| content := "import sys"; readable := false;
                                 writable := true |});
           ("frozen.py", File {| content := "import re"; readable := true;
                                 writable := false |});
           ("src", Dir [ ("Main.JAVA", File (plain "class Main {}"));
                         ("notes", File (plain " "));
                         (".gitkeep", File (plain "keep")) ]);
           ("empty", Dir []) ]);
    ("frontend", Dir [ ("index.html", File (plain "<html/>")) ]);
    ("README.md", File (plain "# readme")) ].

End Sanitize.

(** ** Task records and memory: [task_manager.py] *)

Module Tasks.

(** Per-agent details of a memory entry. *)
Record details : Type := {
  files_created : list string;
  in_progress_file : option string
}.

(** One entry of the memory history; prompt and time stamps are not
    modelled. *)
Record entry : Type := {
  agents_details : gmap string details
}.

(** A row of the task table. *)
Record task : Type := {
  current_agent : string;
  progress_percentage : Z;
  history : list entry
}.

(** The task table, by task id. *)
Abbreviation store := (gmap string task).

(** [update_task_progress]; [progress] is already an integer where the
    workflow calls it. *)
Definition update_task_progress (db : store) (task_id agent : string) (progress : Z)
  : bool * store :=
  match db !! task_id with
  | None => (false, db)
  | Some t =>
      (true,
       <[task_id := {| current_agent := agent; progress_percentage := progress;
                       history := history t |}]> db)
  end.

Definition agent_outputs : gmap string (list string) :=
  list_to_map
    [("orchestrator", [".sureai/.orchestrator_breakdown.md"; ".sureai/.orchestrator_plan.md"]);
     ("analyst", [".sureai/analysis_document.md"; ".sureai/requirements_document.md"]);
     ("architect", [".sureai/architecture_document.md"; ".sureai/tech_stack_document.md"]);
     ("pm", [".sureai/prd_document.md"; ".sureai/project_plan.md"]);
     ("sm", [".sureai/tasks_list.md"; ".sureai/sprint_plan.md"]);
     ("developer", [".sureai/tasks_list.md"; "backend/"; "frontend/"]);
     ("devops", ["deployment_config.yml"; "Dockerfile.backend"; "Dockerfile.frontend";
                 "docker-compose.yml"; "nginx.conf"]);
     ("tester", [".sureai/test-list.md"]);
     ("directory_structure", ["frontend"; "backend"; ".io8project"; ".sureai"])].

Definition backslash : ascii := ascii_of_nat 92.
Definition slash : ascii := ascii_of_nat 47.

(** [p.replace('\\', '/')]. *)
Definition normalize (p : string) : string := PyStr.replace_char backslash slash p.

(** [any(norm == a or norm.startswith(a) for a in allowed) or not allowed]. *)
Definition keeps (allowed : list string) (norm : string) : bool :=
  (existsb (fun a => (String.eqb norm a || PyStr.startswith norm a)%bool) allowed
   || match allowed with [] => true | _ => false end)%bool.

Definition filter_artifacts (allowed : list string) (files : list string) : list string :=
  List.filter (keeps allowed) (map normalize files).

(** [f.endswith('.md') and (f.startswith('.sureai/') or '/.sureai/' in f)]. *)
Definition is_sureai_md (f : string) : bool :=
  (PyStr.endswith f ".md"
   && (PyStr.startswith f ".sureai/" || PyStr.contains f "/.sureai/"))%bool.

(** The first element a [for ... if ...: break] loop stops at. *)
Definition first_such (test : string -> bool) (l : list string) : option string :=
  List.find test l.

(** [not in_progress]. *)
Definition unset (x : option string) : bool :=
  match x with
  | None => true
  | Some s => negb (PyStr.truthy s)
  end.

Definition slash_s : string := String slash EmptyString.

(** The heuristic that chooses the in-progress file. *)
Definition choose_in_progress (agent_name : string) (filtered : list string)
  : option string :=
  let md_files := List.filter is_sureai_md filtered in
  let c1 :=
    if (String.eqb agent_name "developer" || String.eqb agent_name "sm")%bool
    then first_such (fun f => PyStr.endswith f "tasks_list.md") filtered
    else None in
  let c2 :=
    if (String.eqb agent_name "tester" && unset c1)%bool
    then first_such (fun f => PyStr.endswith f "test-list.md") filtered
    else c1 in
  let c3 :=
    if unset c2 then
      match md_files with
      | f :: _ => Some f
      | [] => c2
      end
    else c2 in
  match c3 with
  | Some f =>
      if (PyStr.truthy f && negb (PyStr.contains f slash_s)
          && negb (PyStr.contains f "."))%bool
      then None else c3
  | None => None
  end.

(** The hint in the words of the specification: the stage's checklist
    when one is among the kept paths ([tasks_list.md] for the developer
    and sm stages, [test-list.md] for the tester stage), otherwise the
    first markdown file of [.sureai]. *)
Definition preferred_checklist (agent_name : string) (kept : list string)
  : option string :=
  if (String.eqb agent_name "developer" || String.eqb agent_name "sm")%bool
  then List.find (fun f => PyStr.endswith f "tasks_list.md") kept
  else if String.eqb agent_name "tester"
  then List.find (fun f => PyStr.endswith f "test-list.md") kept
  else None.

Definition hint_by_preference (agent_name : string) (kept : list string)
  : option string :=
  match preferred_checklist agent_name kept with
  | Some f => Some f
  | None => List.find is_sureai_md kept
  end.

(** [history[-1]] replaced by [f] of it. *)
Fixpoint update_last (f : entry -> entry) (h : list entry) : list entry :=
  match h with
  | [] => []
  | [e] => [f e]
  | e :: rest => e :: update_last f rest
  end.

(** [update_agent_artifacts]. *)
Definition update_agent_artifacts (db : store) (task_id agent_name : string)
    (files : list string) : bool * store :=
  match db !! task_id with
  | None => (false, db)
  | Some t =>
      match history t with
      | [] => (false, db)
      | _ =>
          let allowed := default [] (agent_outputs !! agent_name) in
          let filtered := filter_artifacts allowed files in
          let d := {| files_created := filtered;
                      in_progress_file := choose_in_progress agent_name filtered |} in
          let h := update_last
                     (fun e => {| agents_details := <[agent_name := d]> (agents_details e) |})
                     (history t) in
          (true,
           <[task_id := {| current_agent := current_agent t;
                           progress_percentage := progress_percentage t;
                           history := h |}]> db)
      end
  end.

(** What the latest entry of a task records for an agent. *)
Definition recorded (db : store) (task_id agent_name : string) : option details :=
  t ← db !! task_id;
  e ← List.last (map Some (history t)) None;
  agents_details e !! agent_name.

Definition blank_task : task :=
  {| current_agent := ""; progress_percentage := 0;
     history := [ {| agents_details := ∅ |} ] |}.

Definition one_task : store := {[ "t1" := blank_task ]}.

End Tasks.

(** ** Progress written by [execute_workflow] *)

Module Workflow.

(** [int((i / n) * 100)]: the integer part of the percentage, here on
    the exact quotient. *)
Definition percent (i n : nat) : Z := (Z.of_nat i * 100) / Z.of_nat n.

Section Run.

(** How a percentage is computed from the stage index and the number of
    stages, and which stages run to their end ([ok i]) rather than
    raise. *)
Variable pct : nat -> nat -> Z.
Variable ok : nat -> bool.

(** The calls of [update_task_progress] made by the stages from index
    [i] on, in order, and whether the loop ran through. *)
Fixpoint stage_writes (n i : nat) (agents : list string)
  : list (string * Z) * bool :=
  match agents with
  | [] => ([], true)
  | a :: rest =>
      if ok i then
        let '(ws, through) := stage_writes n (S i) rest in
        ((a, pct i n) :: (a, pct (S i) n) :: ws, through)
      else ([(a, pct i n)], false)
  end.

(** All progress writes of one run of [execute_workflow]. *)
Definition progress_writes (agents : list string) : list (string * Z) :=
  let '(ws, through) := stage_writes (length agents) 0 agents in
  if through then ws ++ [(List.last agents EmptyString, 100%Z)] else ws.

(** Before the loop, when the task has a saved state, [update_task_state]
    stores the state again and with it the state's own percentage;
    that field is 0 from [create_task] on, no code assigns it.  Then
    come the writes of the stages. *)
Definition run_writes (saved_state : option string) (agents : list string)
  : list (string * Z) :=
  match saved_state with
  | Some agent => (agent, 0%Z) :: progress_writes agents
  | None => progress_writes agents
  end.

End Run.

(** The order of two writes by their values. *)
Definition le_write (a b : string * Z) : Prop := (snd a <= snd b)%Z.

(** The successive values of [progress_percentage] of a task as the
    writes are applied to the task table. *)
Fixpoint persisted (db : Tasks.store) (task_id : string) (ws : list (string * Z))
  : list Z :=
  match ws with
  | [] => []
  | (a, v) :: rest =>
      let db' := snd (Tasks.update_task_progress db task_id a v) in
      match db' !! task_id with
      | Some t => Tasks.progress_percentage t :: persisted db' task_id rest
      | None => persisted db' task_id rest
      end
  end.

Definition run (agents : list string) (ok : nat -> bool) : list Z :=
  persisted Tasks.one_task "t1" (run_writes percent ok (Some EmptyString) agents).

End Workflow.

(** ** Reading the policy's log *)

Module CliLog.
Import Cli.

Definition is_stdin (ev : event) : bool :=
  match ev with EvStdin _ _ => true | _ => false end.

Definition is_arg (ev : event) : bool :=
  match ev with EvArg _ => true | _ => false end.

Definition is_sleep (ev : event) : bool :=
  match ev with EvSleep _ => true | _ => false end.

(** How many primary runs, argument-mode runs and sleeps a log holds. *)
Definition primary_runs (log : list event) : nat := length (List.filter is_stdin log).
Definition arg_runs (log : list event) : nat := length (List.filter is_arg log).
Definition sleeps (log : list event) : nat := length (List.filter is_sleep log).

(** A run that fails without a class: a non-zero exit whose diagnostics,
    stripped or not, do not classify, or an exception other than
    [GeminiCLIError]. *)
Definition unclassified (o : outcome) : Prop :=
  match o with
  | Completed _ err rc =>
      rc <> 0%Z /\ classify_error err = None
      /\ classify_error (PyStr.strip err) = None
  | Raised (GeminiCLIError _ _) => False
  | Raised _ => True
  end.

(** A tool that behaves the same at every run, on a clock that stands
    still: the world is the clock reading. *)
Definition steady_stdin (o : outcome) (_ _ : Z) (c : Q) : outcome * Q := (o, c).
Definition steady_arg (o : outcome) (_ : Z) (c : Q) : outcome * Q := (o, c).
Definition steady_sleep (_ : Q) (c : Q) : Q := c.
Definition steady_now (c : Q) : Q := c.

Definition crash : outcome := Completed "" "segmentation fault" 1%Z.
Definition hang : outcome := Raised (TimeoutExpired 300).

End CliLog.

(** ** What the runner does to the child, besides killing it *)

Module RunnerTrace.
Import Cli Runner.

Section Run.
Variable W : Type.
Variable send_input : string -> W -> option exn * W.
Variable select : list stream -> W -> list stream * W.
Variable readline : stream -> W -> string * W.

(** [quiet w w']: [w'] is reached from [w] by writing the input,
    selecting and reading lines only. *)
Inductive quiet : W -> W -> Prop :=
| quiet_here w : quiet w w
| quiet_send text w w' : quiet (snd (send_input text w)) w' -> quiet w w'
| quiet_select regs w w' : quiet (snd (select regs w)) w' -> quiet w w'
| quiet_readline s w w' : quiet (snd (readline s w)) w' -> quiet w w'.

End Run.

End RunnerTrace.

(** ** The first pending test: [_first_pending_test_index] *)

Module MarkerLines.
Import Marker.

(** The lines a text file yields when iterated, each with its line feed;
    a last line without line feed is a line too. *)
Fixpoint readlines (content : string) : list string :=
  match content with
  | EmptyString => []
  | String c rest =>
      if is_newline c then String c EmptyString :: readlines rest
      else
        match readlines rest with
        | [] => [String c EmptyString]
        | l :: ls => String c l :: ls
        end
  end.

(** [re.match(r"^- \[ \] ", line)]. *)
Definition is_open_line (line : string) : bool := PyStr.startswith line open_item.

(** How many of the lines begin with the token. *)
Definition open_lines (lines : list string) : nat :=
  length (List.filter is_open_line lines).

(** [for idx, line in enumerate(f, start=idx): if re.match(...): return idx]. *)
Fixpoint first_match (idx : nat) (lines : list string) : option nat :=
  match lines with
  | [] => None
  | line :: rest =>
      if is_open_line line then Some idx else first_match (S idx) rest
  end.

(** A missing file and a file that cannot be read give [None]. *)
Definition _first_pending_test_index (f : file_read) : option nat :=
  match f with
  | Missing => None
  | Unreadable => None
  | Content text => first_match 1 (readlines text)
  end.

End MarkerLines.

(** ** What [_sanitize_code_directories] leaves behind *)

Module SanitizeAfter.
Import Tree Sanitize.

(** Every directory at or below [n] lists a file, or has an entry named
    [.gitkeep]. *)
Fixpoint kept (n : node) : bool :=
  match n with
  | File _ => true
  | Dir entries =>
      ((negb (forallb (fun e => is_dir (snd e)) entries)
        || has_name ".gitkeep" entries)
       && forallb (fun e => kept (snd e)) entries)%bool
  end.

(** What the first pass does to one directory entry. *)
Definition sanitize_entry (e : string * node) : string * node :=
  match snd e with
  | File f =>
      (fst e, File (if is_gitkeep (fst e) then f else sanitize_file (fst e) f))
  | Dir _ => (fst e, sanitize_node (snd e))
  end.

(** What the second pass does to one directory entry. *)
Definition keep_entry (e : string * node) : string * node :=
  (fst e, keep_node (snd e)).

(** The test of the first pass for reporting a file as modified. *)
Definition rewritten (pf : path * file) : bool :=
  (negb (is_gitkeep (basename (fst pf))) && readable (snd pf)
   && negb (blank (content (snd pf))) && writable (snd pf))%bool.

End SanitizeAfter.

(** ** Re-running the developer and tester stages: [execute_workflow]

    After a stage's tasks have run, [execute_workflow] records the files
    the stage reports and, for the developer and the tester, runs the
    stage's tasks again while its checklist has open items. *)

Module Continuation.

(** The dictionary [_execute_agent_tasks] returns, as far as the workflow
    reads it: a missing key is [None]. *)
Record task_result : Type := {
  res_files : option (list string);
  res_subtasks : option nat;
  res_tests : option nat
}.

(** What the workflow does, in order. *)
Inductive event : Type :=
| Exec
| Update (files : list string)
| Sleep.

Definition is_exec (ev : event) : bool :=
  match ev with Exec => true | _ => false end.
Definition is_sleep (ev : event) : bool :=
  match ev with Sleep => true | _ => false end.

Definition execs (log : list event) : nat := length (List.filter is_exec log).
Definition sleeps (log : list event) : nat := length (List.filter is_sleep log).

(** [f in created]. *)
Definition mem (f : string) (created : list string) : bool :=
  existsb (String.eqb f) created.

(** [created.extend(f for f in new if f not in created)]: the generator
    is consumed while the list grows, so a name is looked up in what has
    been appended so far. *)
Fixpoint extend_new (created new : list string) : list string :=
  match new with
  | [] => created
  | f :: rest =>
      if mem f created then extend_new created rest
      else extend_new (created ++ [f]) rest
  end.

Definition developer_max_attempts : nat := 15.
Definition tester_max_attempts : nat := 10.

Section Loop.

(** The project with everything else [_execute_agent_tasks] depends
    on. *)
Variable P : Type.
Variable _execute_agent_tasks : P -> task_result * P.

(** [files_created = (task_result or {}).get('files_created') or []]
    and the call of [update_agent_artifacts] when it is not empty. *)
Definition first_update (r : task_result) : list event :=
  match default [] (res_files r) with
  | [] => []
  | files => [Update files]
  end.

(** [while remaining and attempt <= max_attempts], with [n] attempts to
    go.  [key] reads the stage's count from a result, [files] is
    [task_result['files_created']]; the developer's loop sleeps after
    an attempt that leaves open items without lowering their count
    ([pauses]), the tester's loop does not.  The result is the last
    count, the files, the project and the log. *)
Fixpoint continuation (pauses : bool) (key : task_result -> option nat) (n : nat)
    (remaining : nat) (files : option (list string)) (p : P) (log : list event)
  : nat * option (list string) * P * list event :=
  match n with
  | O => (remaining, files, p, log)
  | S n' =>
      if Nat.eqb remaining 0 then (remaining, files, p, log)
      else
        let '(next_result, p1) := _execute_agent_tasks p in
        let prev_remaining := remaining in
        let remaining1 := default remaining (key next_result) in
        let files1 :=
          match res_files next_result with
          | Some new => Some (extend_new (default [] files) new)
          | None => files
          end in
        let log1 := log ++ [Exec; Update (default [] files1)] in
        let log2 :=
          if (pauses && negb (Nat.eqb remaining1 0)
              && Nat.leb prev_remaining remaining1)%bool
          then log1 ++ [Sleep] else log1 in
        continuation pauses key n' remaining1 files1 p1 log2
  end.

(** What follows the first run of a stage's tasks. *)
Definition after_stage (agent_name : string) (task_result0 : task_result) (p : P)
  : nat * option (list string) * P * list event :=
  let log0 := first_update task_result0 in
  if String.eqb agent_name "developer" then
    continuation true res_subtasks developer_max_attempts
                 (default 0 (res_subtasks task_result0))
                 (res_files task_result0) p log0
  else if String.eqb agent_name "tester" then
    continuation false res_tests tester_max_attempts
                 (default 0 (res_tests task_result0))
                 (res_files task_result0) p log0
  else (0, res_files task_result0, p, log0).

End Loop.

End Continuation.

(** ** The project directory name: [create_task] *)

Module Slug.

(** [prompt.split()]: the maximal runs of characters that are not white
    space. *)
Fixpoint split (s : string) : list string :=
  match s with
  | EmptyString => []
  | String c r =>
      if PyStr.is_space c then split r
      else
        match r with
        | EmptyString => [String c EmptyString]
        | String c' _ =>
            if PyStr.is_space c' then String c EmptyString :: split r
            else
              match split r with
              | w :: ws => String c w :: ws
              | [] => [String c EmptyString]
              end
        end
  end.

(** ["_".join(words)]. *)
Fixpoint join (words : list string) : string :=
  match words with
  | [] => EmptyString
  | [w] => w
  | w :: rest => w +:+ "_" +:+ join rest
  end.

(** The character class [[<>:\\/|?*\r\n\t]]. *)
Definition invalid (c : ascii) : bool :=
  existsb (Nat.eqb (PyStr.code c)) [60; 62; 58; 92; 47; 124; 63; 42; 13; 10; 9].

Definition underscore : ascii := ascii_of_nat 95.

(** [re.sub(r"[<>:\\/|?*\r\n\t]", "_", s)]. *)
Fixpoint sub_invalid (s : string) : string :=
  match s with
  | EmptyString => EmptyString
  | String c r => String (if invalid c then underscore else c) (sub_invalid r)
  end.

(** [re.sub(r"\s+", "_", s)]: one underscore for each maximal run of
    white space, written where the run ends. *)
Fixpoint sub_spaces (s : string) : string :=
  match s with
  | EmptyString => EmptyString
  | String c r =>
      if PyStr.is_space c then
        match r with
        | EmptyString => String underscore EmptyString
        | String c' _ =>
            if PyStr.is_space c' then sub_spaces r
            else String underscore (sub_spaces r)
        end
      else String c (sub_spaces r)
  end.

(** The characters of [strip("._ ")]. *)
Definition trimmed (c : ascii) : bool :=
  existsb (Nat.eqb (PyStr.code c)) [46; 95; 32].

Fixpoint lstrip_chars (s : string) : string :=
  match s with
  | EmptyString => EmptyString
  | String c r => if trimmed c then lstrip_chars r else s
  end.

Fixpoint rstrip_chars (s : string) : string :=
  match s with
  | EmptyString => EmptyString
  | String c r =>
      match rstrip_chars r with
      | EmptyString => if trimmed c then EmptyString else String c EmptyString
      | r' => String c r'
      end
  end.

Definition strip_chars (s : string) : string := rstrip_chars (lstrip_chars s).

(** The first part of the project directory's name. *)
Definition first_three_words (prompt : string) : string :=
  let w := PyStr.lower (join (firstn 3 (split prompt))) in
  let w := sub_invalid w in
  let w := strip_chars (sub_spaces w) in
  if negb (PyStr.truthy w) then "project" else w.

Definition first_char (s : string) : option ascii :=
  match s with
  | EmptyString => None
  | String c _ => Some c
  end.

Fixpoint last_char (s : string) : option ascii :=
  match s with
  | EmptyString => None
  | String c EmptyString => Some c
  | String _ r => last_char r
  end.

(** Every character of [s] satisfies [ok]. *)
Definition all_chars (ok : ascii -> bool) (s : string) : Prop :=
  forall c, PyStr.occurs c s = true -> ok c = true.

Definition valid (c : ascii) : bool := negb (invalid c).
Definition solid (c : ascii) : bool :=
  (negb (invalid c) && negb (PyStr.is_space c))%bool.

End Slug.

(** ** The directories handed to the tool: [_build_include_dirs_args] *)

Module IncludeDirs.

Definition flag : string := "--include-directories".

Definition skipped : list string := [".git"; "__pycache__"; ".pytest_cache"].

Definition mem (d : string) (seen : list string) : bool :=
  existsb (String.eqb d) seen.

(** The loop [for d in dirs: if d and d not in seen: ...]. *)
Fixpoint dedupe (seen : list string) (dirs : list string) : list string :=
  match dirs with
  | [] => []
  | d :: rest =>
      if (PyStr.truthy d && negb (mem d seen))%bool
      then flag :: d :: dedupe (d :: seen) rest
      else dedupe seen rest
  end.

Section Scan.

(** The file system as the function asks it: [os.path.exists],
    [os.path.isdir], [os.listdir] ([None] when it raises),
    [os.path.join] and [tempfile.gettempdir()]. *)
Variable exists_ : string -> bool.
Variable isdir : string -> bool.
Variable listdir : string -> option (list string).
Variable join : string -> string -> string.
Variable gettempdir : string.

Definition present (d : string) : list string := if exists_ d then [d] else [].

(** The body of the [try]: a failing [os.listdir] keeps what was
    appended before it. *)
Definition subdirectories (working_dir : string) : list string :=
  present (join working_dir "backend")
  ++ present (join working_dir "frontend")
  ++ present (join working_dir ".sureai")
  ++ match listdir working_dir with
     | None => []
     | Some items =>
         map (join working_dir)
             (List.filter (fun item => (isdir (join working_dir item)
                                        && negb (mem item skipped))%bool) items)
     end.

(** The list [dirs] before de-duplication; [working_dir] is empty when
    the caller gives none. *)
Definition candidate_dirs (working_dir : string) : list string :=
  (if PyStr.truthy working_dir
   then working_dir :: subdirectories working_dir else [])
  ++ present "/app" ++ present (join gettempdir "adaptive_system_output").

Definition _build_include_dirs_args (working_dir : string) : list string :=
  dedupe [] (candidate_dirs working_dir).

End Scan.

(** The arguments as pairs of flag and directory. *)
Definition pairs (ds : list string) : list string :=
  flat_map (fun d => [flag; d]) ds.

End IncludeDirs.

(** ** Per-stage temperatures: [execute_workflow] and [_get_agent_temperature] *)

Module Temperature.

Section Values.

(** Temperatures are not inspected here. *)
Variable T : Type.

(** [temps + [None] * (n - len(temps))] when [len(temps) < n]. *)
Definition pad (n : nat) (temps : list (option T)) : list (option T) :=
  if Nat.ltb (length temps) n
  then temps ++ repeat None (n - length temps)
  else temps.

(** [temps[i] if i < len(temps) else None]: what [execute_workflow]
    hands to the stage at position [i]. *)
Definition requested_temperature (temps : list (option T)) (i : nat) : option T :=
  if Nat.ltb i (length temps) then nth i temps None else None.

(** [seq.index(agent_name)]; [None] is [ValueError]. *)
Fixpoint index (agent_name : string) (seq : list string) : option nat :=
  match seq with
  | [] => None
  | a :: rest =>
      if String.eqb a agent_name then Some 0
      else option_map S (index agent_name rest)
  end.

(** [_get_agent_temperature] on the sequence and the temperatures kept
    in the task state. *)
Definition _get_agent_temperature (seq : list string) (temps : list (option T))
    (agent_name : string) : option T :=
  match index agent_name seq with
  | None => None
  | Some idx => if Nat.ltb idx (length temps) then nth idx temps None else None
  end.

End Values.

End Temperature.

(** ** Handoff prompts: [agent_manager.py] *)

Module Handoff.

(** The two dictionaries of the agent manager. *)
Record manager : Type := {
  _handoff_prompts : gmap string string;
  _default_handoff_prompts : gmap string string
}.

Definition get_handoff_prompt (m : manager) (agent_name : string) : string :=
  match _handoff_prompts m !! agent_name with
  | Some saved =>
      if negb (String.eqb saved "") then saved
      else default "" (_default_handoff_prompts m !! agent_name)
  | None => default "" (_default_handoff_prompts m !! agent_name)
  end.

(** [self._handoff_prompts[agent_name] = prompt or ""]; [None] is Python's
    [None]. *)
Definition update_handoff_prompt (m : manager) (agent_name : string)
    (prompt : option string) : manager :=
  {| _handoff_prompts := <[agent_name := default "" prompt]> (_handoff_prompts m);
     _default_handoff_prompts := _default_handoff_prompts m |}.

End Handoff.
(** * Properties *)

(** ** Facts about the string primitives *)

Module PyStrFacts.
Import PyStr.

Lemma any_in_intro s k ks :
  In k ks -> contains s k = true -> any_in s ks = true.
Proof.
  intros Hin Hk. unfold any_in. apply existsb_exists. exists k. split; assumption.
Qed.

Lemma contains_char s c : contains s (String c EmptyString) = occurs c s.
Proof.
  induction s as [|b r IH]; [reflexivity|].
  cbn [contains startswith occurs]. rewrite IH.
  destruct (Ascii.eqb c b); reflexivity.
Qed.

Lemma occurs_rev_acc c s : forall acc,
  occurs c (rev_acc s acc) = (occurs c s || occurs c acc)%bool.
Proof.
  induction s as [|b r IH]; intros acc; [reflexivity|].
  cbn [rev_acc occurs]. rewrite IH. cbn [occurs].
  destruct (Ascii.eqb c b), (occurs c r), (occurs c acc); reflexivity.
Qed.

Lemma occurs_rev c s : occurs c (rev s) = occurs c s.
Proof. unfold rev. rewrite occurs_rev_acc. cbn [occurs]. apply orb_false_r. Qed.

Lemma startswith_occurs c p : occurs c p = true ->
  forall s, startswith s p = true -> occurs c s = true.
Proof.
  induction p as [|a p IH]; [discriminate|].
  intros Hc [|b s] Hs; [discriminate Hs|].
  cbn [startswith] in Hs. apply andb_prop in Hs. destruct Hs as [Hab Hs].
  apply Ascii.eqb_eq in Hab. subst b.
  cbn [occurs] in *. apply orb_prop in Hc. destruct Hc as [Hc | Hc].
  - rewrite Hc. reflexivity.
  - rewrite (IH Hc s Hs). apply orb_true_r.
Qed.

(** A name that ends with a suffix holding [c] holds [c]. *)
Lemma endswith_contains_char s p c :
  occurs c p = true -> endswith s p = true ->
  contains s (String c EmptyString) = true.
Proof.
  intros Hc He. rewrite contains_char, <- occurs_rev.
  apply (startswith_occurs c (rev p)); [|exact He].
  rewrite occurs_rev. exact Hc.
Qed.

Lemma rev_acc_nonempty p : forall acc,
  acc <> EmptyString -> rev_acc p acc <> EmptyString.
Proof.
  induction p as [|b p IH]; intros acc Hacc; [exact Hacc|].
  cbn [rev_acc]. apply IH. discriminate.
Qed.

Lemma endswith_truthy s p : p <> EmptyString -> endswith s p = true -> truthy s = true.
Proof.
  intros Hp He. destruct s as [|b r]; [|reflexivity].
  destruct p as [|a p]; [congruence|].
  unfold endswith, rev in He. cbn [rev_acc] in He.
  pose proof (rev_acc_nonempty p (String a EmptyString)) as Hne.
  destruct (rev_acc p (String a EmptyString)); [|discriminate He].
  exfalso. apply Hne; [discriminate | reflexivity].
Qed.

End PyStrFacts.

Example lower_429 : PyStr.lower "HTTP 429 Too Many Requests" = "http 429 too many requests".
Proof. reflexivity. Qed.

Example strip_both : PyStr.strip "  a b
" = "a b".
Proof. reflexivity. Qed.

Example endswith_md : PyStr.endswith ".sureai/tasks_list.md" "tasks_list.md" = true.
Proof. reflexivity. Qed.

Example classify_429 :
  Cli.classify_error "429 too many requests"
  = Some (Cli.GeminiCLIError "quota_exceeded" "429 too many requests").
Proof. reflexivity. Qed.

Example classify_rate_limit :
  Cli.classify_error "Error: Rate Limit reached "
  = Some (Cli.GeminiCLIError "quota_exceeded" "Error: Rate Limit reached").
Proof. reflexivity. Qed.

Example classify_unauthorized :
  Cli.classify_error "401 Unauthorized"
  = Some (Cli.GeminiCLIError "unauthorized" "401 Unauthorized").
Proof. reflexivity. Qed.

Example classify_quota_first :
  Cli.classify_error "unauthorized: quota"
  = Some (Cli.GeminiCLIError "quota_exceeded" "unauthorized: quota").
Proof. reflexivity. Qed.

Example classify_none : Cli.classify_error "segmentation fault" = None.
Proof. reflexivity. Qed.

Example flaky_run :
  let '(r, _, log) := CliScript.execute 2 "" CliScript.flaky_world in
  r = Cli.Return "done" /\ log = [Cli.EvStdin 300 120; Cli.EvArg 300; Cli.EvStdin 600 120].
Proof. vm_compute. split; reflexivity. Qed.

Example quota_run :
  let '(r, _, log) := CliScript.execute 2 "" CliScript.quota_world in
  r = Cli.Raise (Cli.GeminiCLIError "quota_exceeded" "429 too many requests")
  /\ log = [Cli.EvStdin 300 120].
Proof. vm_compute. split; reflexivity. Qed.

(** ** The invocation policy never retries a fatal class *)

Module CliFacts.
Import Cli.

Lemma classify_error_quota s k :
  In k quota_keys -> PyStr.contains (PyStr.lower s) k = true ->
  classify_error s = Some (GeminiCLIError "quota_exceeded" (PyStr.strip s)).
Proof.
  intros Hin Hk. unfold classify_error.
  assert (Hne : s <> EmptyString).
  { intros ->. simpl in Hin.
    repeat (destruct Hin as [<- | Hin]; [discriminate Hk|]). exact Hin. }
  destruct s as [|c r]; [congruence|]. cbn [PyStr.truthy negb].
  rewrite (PyStrFacts.any_in_intro _ k _ Hin Hk). reflexivity.
Qed.

Lemma classify_error_codes s code msg :
  classify_error s = Some (GeminiCLIError code msg) ->
  code = "quota_exceeded" \/ code = "unauthorized" \/ code = "timeout".
Proof.
  unfold classify_error.
  destruct (negb (PyStr.truthy s)); [discriminate|].
  destruct (PyStr.any_in _ quota_keys); [intros [= <- _]; auto|].
  destruct (PyStr.any_in _ unauthorized_keys); [intros [= <- _]; auto|].
  destruct (PyStr.any_in _ timeout_keys); [intros [= <- _]; auto|discriminate].
Qed.

Lemma classify_error_fatal_keyword s k :
  In k (quota_keys ++ unauthorized_keys) ->
  PyStr.contains (PyStr.lower s) k = true ->
  exists code,
    classify_error s = Some (GeminiCLIError code (PyStr.strip s))
    /\ (code = "quota_exceeded" \/ code = "unauthorized").
Proof.
  intros Hin Hk. unfold classify_error.
  assert (Hne : s <> EmptyString).
  { intros ->. simpl in Hin.
    repeat (destruct Hin as [<- | Hin]; [discriminate Hk|]). exact Hin. }
  destruct s as [|c r]; [congruence|]. cbn [PyStr.truthy negb].
  destruct (PyStr.any_in (PyStr.lower (String c r)) quota_keys) eqn:Hq.
  - exists "quota_exceeded". auto.
  - apply List.in_app_or in Hin. destruct Hin as [Hin | Hin].
    + rewrite (PyStrFacts.any_in_intro _ k _ Hin Hk) in Hq. discriminate Hq.
    + rewrite (PyStrFacts.any_in_intro _ k _ Hin Hk). exists "unauthorized". auto.
Qed.

Lemma no_retry_code_fatal code :
  code = "quota_exceeded" \/ code = "unauthorized" -> no_retry_code code = true.
Proof. intros [-> | ->]; reflexivity. Qed.

Section Policy.
Context {E : Type} (time_now : E -> Q)
        (run_stdin : Z -> Z -> E -> outcome * E)
        (run_arg : Z -> E -> outcome * E)
        (sleep : Q -> E -> E)
        (get_agent_timeout_config : string -> timeout_config)
        (get_retry_delay : string -> Q).

Local Abbreviation try_block :=
  (try_block E time_now run_stdin run_arg get_agent_timeout_config).
Local Abbreviation attempts :=
  (attempts E time_now run_stdin run_arg sleep get_agent_timeout_config
            get_retry_delay).
Local Abbreviation idle_budget := (idle_budget get_agent_timeout_config).

(** A classified primary-mode failure leaves the [try] as that error,
    with the primary run as the only action. *)
Lemma try_block_primary_classified b agent start attempt e log
      out err rc e1 x :
  Qle_bool (inject_Z (overall_cap b)) (time_now e - start) = false ->
  run_stdin (attempt_timeout b attempt (time_now e - start))
            (idle_budget agent) e = (Completed out err rc, e1) ->
  rc <> 0%Z ->
  classify_error err = Some x ->
  try_block b agent start attempt e log
  = (Exc x, e1,
     log ++ [EvStdin (attempt_timeout b attempt (time_now e - start))
                     (idle_budget agent)]).
Proof.
  intros Hcap Hrun Hrc Hcls. unfold Cli.try_block.
  rewrite Hcap, Hrun.
  apply Z.eqb_neq in Hrc. rewrite Hrc, Hcls. reflexivity.
Qed.

(** C2: at any attempt, with any number [n] of attempts still to come,
    when the primary (stdin) mode exits non-zero and its diagnostics
    classify as [quota_exceeded] or [unauthorized], the policy raises
    that very error; the only action it has added to the log is that one
    primary run: no argument-mode run, no sleep, no further attempt. *)
Theorem fatal_primary_error_raised_at_once
      b agent start n attempt last e log out err rc e1 code msg :
  Qle_bool (inject_Z (overall_cap b)) (time_now e - start) = false ->
  run_stdin (attempt_timeout b attempt (time_now e - start))
            (idle_budget agent) e = (Completed out err rc, e1) ->
  rc <> 0%Z ->
  classify_error err = Some (GeminiCLIError code msg) ->
  code = "quota_exceeded" \/ code = "unauthorized" ->
  attempts b agent start (S n) attempt last e log
  = (Raise (GeminiCLIError code msg), e1,
     log ++ [EvStdin (attempt_timeout b attempt (time_now e - start))
                     (idle_budget agent)]).
Proof.
  intros Hcap Hrun Hrc Hcls Hfatal. cbn [Cli.attempts].
  rewrite (try_block_primary_classified _ _ _ _ _ _ _ _ _ _ _ Hcap Hrun Hrc Hcls).
  unfold handle. rewrite (no_retry_code_fatal _ Hfatal). reflexivity.
Qed.

End Policy.

End CliFacts.

(** The scenario of the specification: exit code 1 with "429 too many
    requests", a retry budget of 2 and a tool that would succeed on any
    further run. *)
Lemma fatal_primary_error_witness :
  Cli.attempts CliScript.world CliScript.time_now CliScript.run_stdin
    CliScript.run_arg CliScript.sleep CliScript.no_config CliScript.retry_delay
    (Cli.compute_budgets CliScript.no_config 2 "") "" 0%Q 3 0%Z None
    CliScript.quota_world []
  = (Cli.Raise (Cli.GeminiCLIError "quota_exceeded" "429 too many requests"),
     {| CliScript.clock := (0 + 2)%Q;
        CliScript.stdin_script := [(2%Q, Cli.Completed "done" "" 0%Z)];
        CliScript.arg_script := [(2%Q, Cli.Completed "done" "" 0%Z)] |},
     [Cli.EvStdin 300 120]).
Proof.
  apply (CliFacts.fatal_primary_error_raised_at_once
           CliScript.time_now CliScript.run_stdin CliScript.run_arg CliScript.sleep
           CliScript.no_config CliScript.retry_delay
           (Cli.compute_budgets CliScript.no_config 2 "") "" 0%Q 2 0%Z None
           CliScript.quota_world [] "" "429 too many requests" 1%Z).
  - reflexivity.
  - reflexivity.
  - discriminate.
  - reflexivity.
  - left; reflexivity.
Defined.

(** ** The process runner's two clocks *)

Example run_finishing :
  option_map fst (RunnerScript.run 10 300 120 RunnerScript.finishing)
  = Some (Cli.Completed "hello" "warn" 0).
Proof. vm_compute. reflexivity. Qed.

Example run_hung_idle :
  option_map (fun r => (fst r, RunnerScript.kills (snd r)))
             (RunnerScript.run 20 300 3 RunnerScript.hung)
  = Some (Cli.Raised (Cli.TimeoutExpired 3), 2).
Proof. vm_compute. reflexivity. Qed.

Example run_chatty_overall :
  option_map (fun r => (fst r, RunnerScript.kills (snd r)))
             (RunnerScript.run 30 10 3 RunnerScript.chatty)
  = Some (Cli.Raised (Cli.TimeoutExpired 10), 2).
Proof. vm_compute. reflexivity. Qed.

Module RunnerFacts.
Import Cli Runner.

Lemma Qgtb_true a b : (b < a)%Q -> Qgtb a b = true.
Proof.
  intros H. unfold Qgtb. destruct (Qle_bool a b) eqn:Hle; [|reflexivity].
  apply Qle_bool_iff in Hle. exfalso. exact (Qlt_not_le _ _ H Hle).
Qed.

Lemma Qgtb_false a b : (a <= b)%Q -> Qgtb a b = false.
Proof.
  intros H. unfold Qgtb. apply Qle_bool_iff in H. rewrite H. reflexivity.
Qed.

Section Run.
Context {W : Type} (time_now : W -> Q)
        (poll : W -> option Z)
        (select : list stream -> W -> list stream * W)
        (readline : stream -> W -> string * W)
        (kill : W -> W).

Local Abbreviation loop_pass := (loop_pass W time_now poll select readline kill).
Local Abbreviation read_loop := (read_loop W time_now poll select readline kill).
Local Abbreviation finally_ := (finally_ W poll kill).

(** A pass that neither times out nor breaks hands the loop on. *)
Lemma read_loop_continue fuel t i st w st1 w1 :
  loop_pass t i st w = Continue W st1 w1 ->
  read_loop (S fuel) t i st w = read_loop fuel t i st1 w1.
Proof. intros H. cbn [Runner.read_loop]. rewrite H. reflexivity. Qed.


End Run.

End RunnerFacts.


(** ** Progress markers and the completion-gated stages *)

Example count_mixed :
  Marker.count_open (BuilderScript.checklist 2 3) = 3.
Proof. reflexivity. Qed.

Example count_anchored :
  Marker.count_open_lines "  - [ ] indented, and - [ ] inline" = 0.
Proof. reflexivity. Qed.

Example developer_stuck :
  let '(r, _, log) := BuilderScript.developer BuilderScript.stuck in
  Builder.status r = "failed" /\ Builder.remaining r = Some 2 /\ length log = 14.
Proof. vm_compute. repeat split; reflexivity. Qed.

Example developer_stalls_then_finishes :
  let '(r, _, log) := BuilderScript.developer BuilderScript.stalls_then_finishes in
  Builder.status r = "success" /\ length log = 7.
Proof. vm_compute. repeat split; reflexivity. Qed.

Example tester_stuck :
  let '(r, _, log) := BuilderScript.tester BuilderScript.stuck in
  Builder.status r = "partial" /\ Builder.remaining r = Some 2 /\ length log = 32.
Proof. vm_compute. repeat split; reflexivity. Qed.

Module BuilderFacts.
Import Marker Builder.

Lemma count_open_absent f :
  f = Missing \/ f = Unreadable -> count_open f = 0.
Proof. intros [-> | ->]; reflexivity. Qed.

Lemma dev_observe_marks r l st :
  last_remaining st = Some l -> l <= r -> improved (dev_observe r st) = false.
Proof.
  intros Hl Hle. unfold dev_observe. cbn [improved]. rewrite Hl.
  apply Nat.leb_le in Hle. rewrite Hle. reflexivity.
Qed.

Lemma dev_observe_sticky r st :
  improved st = false -> improved (dev_observe r st) = false.
Proof.
  intros H. unfold dev_observe. cbn [improved]. rewrite H.
  destruct (last_remaining st) as [l|]; [destruct (Nat.leb l r)|]; reflexivity.
Qed.

Lemma dev_observe_with_improved_false r st :
  dev_observe r (with_improved false st) = with_improved false (dev_observe r st).
Proof.
  unfold dev_observe, with_improved. cbn.
  destruct (last_remaining st) as [l|]; [destruct (Nat.leb l r)|]; reflexivity.
Qed.

Section Phases.
Context {P : Type} (tasks_list test_list : P -> file_read)
        (generate : prompt -> P -> response * P)
        (write_code_tree : P -> P).

Local Abbreviation count_tasks := (_count_open_subtasks P tasks_list).
Local Abbreviation count_tests := (_count_open_tests P test_list).
Local Abbreviation developer_loop := (developer_loop P tasks_list generate).
Local Abbreviation developer_finish := (developer_finish P tasks_list generate).
Local Abbreviation developer_prelude :=
  (developer_prelude P tasks_list generate write_code_tree).
Local Abbreviation developer :=
  (_execute_developer_phase P tasks_list generate write_code_tree).
Local Abbreviation tester_loop := (tester_loop P test_list generate).
Local Abbreviation tester_finish := (tester_finish P test_list).
Local Abbreviation tester_prelude := (tester_prelude P generate write_code_tree).
Local Abbreviation tester :=
  (_execute_tester_phase P test_list generate write_code_tree).
Local Abbreviation analyst := (_execute_analyst_phase P generate).

(** *** The developer's loop *)

Lemma developer_loop_returned n : forall st p log r p' log',
  developer_loop n st p log = (DevReturned r, p', log') ->
  status r = "success" /\ remaining r = Some 0 /\ count_tasks p' = 0.
Proof.
  induction n as [|n IH]; intros st p log r p' log' H; cbn [Builder.developer_loop] in H.
  - discriminate.
  - destruct (Nat.eqb (count_tasks p) 0) eqn:Hz.
    + injection H as <- <- _. apply Nat.eqb_eq in Hz. auto.
    + destruct (generate ContinueDeveloper p) as [[t|d] p1]; [|discriminate].
      destruct (is_error_text t); [discriminate|]. exact (IH _ _ _ _ _ _ H).
Qed.

Lemma developer_loop_sticky n : forall st p log st' p' log',
  improved st = false ->
  developer_loop n st p log = (DevLeft st', p', log') ->
  improved st' = false.
Proof.
  induction n as [|n IH]; intros st p log st' p' log' Hst H;
    cbn [Builder.developer_loop] in H.
  - injection H as <- _ _. exact Hst.
  - destruct (Nat.eqb (count_tasks p) 0); [discriminate|].
    destruct (generate ContinueDeveloper p) as [[t|d] p1]; [|discriminate].
    destruct (is_error_text t).
    + injection H as <- _ _. apply dev_observe_sticky, Hst.
    + refine (IH _ _ _ _ _ _ _ H). apply dev_observe_sticky, Hst.
Qed.

(** The flag is written and never read: clearing it before the loop
    changes the flag of the state the loop is left in, nothing else. *)
Lemma developer_loop_flag_unread n : forall st p log,
  developer_loop n (with_improved false st) p log
  = let '(x, p', log') := developer_loop n st p log in
    (exit_with_improved false x, p', log').
Proof.
  induction n as [|n IH]; intros st p log; cbn [Builder.developer_loop].
  - reflexivity.
  - destruct (Nat.eqb (count_tasks p) 0); [reflexivity|].
    destruct (generate ContinueDeveloper p) as [[t|d] p1]; [|reflexivity].
    rewrite dev_observe_with_improved_false.
    destruct (is_error_text t); [reflexivity|]. apply IH.
Qed.

(** While the tool answers without an error text and items stay open,
    the loop goes through all its [n] iterations. *)
Lemma developer_loop_to_bound (Inv : P -> Prop) :
  (forall p, Inv p -> count_tasks p <> 0) ->
  (forall p, Inv p -> exists t p',
       generate ContinueDeveloper p = (Text t, p')
       /\ is_error_text t = false /\ Inv p') ->
  forall n st p log, Inv p ->
    exists st' p',
      developer_loop n st p log
      = (DevLeft st', p', log ++ repeat ContinueDeveloper n)
      /\ iterations st' = iterations st + n /\ Inv p'.
Proof.
  intros Hopen Hstep. induction n as [|n IH]; intros st p log Hp;
    cbn [Builder.developer_loop].
  - exists st, p. rewrite app_nil_r, Nat.add_0_r. auto.
  - destruct (Nat.eqb (count_tasks p) 0) eqn:Hz.
    { apply Nat.eqb_eq in Hz. destruct (Hopen p Hp Hz). }
    destruct (Hstep p Hp) as (t & p1 & -> & -> & Hp1).
    destruct (IH (dev_observe (count_tasks p) st) p1
                 (log ++ [ContinueDeveloper]) Hp1) as (st' & p' & -> & Hit & Hp').
    exists st', p'. split; [|split; [|exact Hp']].
    + rewrite <- app_assoc. reflexivity.
    + rewrite Hit. cbn [iterations dev_observe]. lia.
Qed.

Lemma tester_loop_to_bound (Inv : P -> Prop) :
  (forall p, Inv p -> count_tests p <> 0) ->
  (forall p, Inv p -> exists t p',
       generate RunTests p = (Text t, p') /\ Inv p') ->
  forall n p log, Inv p ->
    exists p',
      tester_loop n p log = (TestLeft, p', log ++ repeat RunTests n) /\ Inv p'.
Proof.
  intros Hopen Hstep. induction n as [|n IH]; intros p log Hp;
    cbn [Builder.tester_loop].
  - exists p. rewrite app_nil_r. auto.
  - destruct (Nat.eqb (count_tests p) 0) eqn:Hz.
    { apply Nat.eqb_eq in Hz. destruct (Hopen p Hp Hz). }
    destruct (Hstep p Hp) as (t & p1 & -> & Hp1).
    destruct (IH p1 (log ++ [RunTests]) Hp1) as (p' & -> & Hp').
    exists p'. split; [|exact Hp']. rewrite <- app_assoc. reflexivity.
Qed.


(** *** What a status says about the checklist *)

Local Abbreviation developer_status_ok r p' :=
  ((status r = "success" -> count_tasks p' = 0) /\
   (status r <> "error" ->
    (count_tasks p' = 0 -> status r = "success") /\
    (count_tasks p' <> 0 -> status r = "partial" \/ status r = "failed"))).

Local Abbreviation tester_status_ok r p' :=
  ((status r = "success" -> count_tests p' = 0) /\
   (status r <> "error" ->
    (count_tests p' = 0 -> status r = "success") /\
    (count_tests p' <> 0 -> status r = "partial"))).

Lemma error_status_ok_dev d p' : developer_status_ok (error_result d) p'.
Proof.
  split; [discriminate|]. intros Hne. exfalso. apply Hne. reflexivity.
Qed.

Lemma error_status_ok_test d p' : tester_status_ok (error_result d) p'.
Proof.
  split; [discriminate|]. intros Hne. exfalso. apply Hne. reflexivity.
Qed.

Lemma developer_finish_status st p log r p' log' :
  developer_finish st p log = (r, p', log') -> developer_status_ok r p'.
Proof.
  unfold Builder.developer_finish.
  destruct (Nat.eqb (count_tasks p) 0) eqn:Hz.
  - intros [= <- <- _]. apply Nat.eqb_eq in Hz.
    split; [auto|]. intros _. split; [reflexivity|]. intros Hn. destruct (Hn Hz).
  - destruct (generate (FinalAttempt (count_tasks p)) p) as [[t|d] p1].
    + destruct (Nat.eqb (count_tasks p1) 0) eqn:Hz1.
      * intros [= <- <- _]. apply Nat.eqb_eq in Hz1.
        split; [auto|]. intros _. split; [reflexivity|]. intros Hn. destruct (Hn Hz1).
      * intros [= <- <- _]. apply Nat.eqb_neq in Hz1. cbn [status].
        split.
        -- destruct (improved st); discriminate.
        -- intros _. split; [intros H0; destruct (Hz1 H0)|].
           intros _. destruct (improved st); auto.
    + intros [= <- <- _]. apply error_status_ok_dev.
Qed.

Lemma developer_prelude_early p r p' log :
  developer_prelude p = (inl r, p', log) -> status r = "error".
Proof.
  unfold Builder.developer_prelude.
  destruct (generate (CreateAgentFile "developer") p) as [[t|d] p1];
    [|intros [= <- _ _]; reflexivity].
  destruct (generate (CreateOutput "developer") (write_code_tree p1)) as [[t2|d] p3];
    [|intros [= <- _ _]; reflexivity].
  destruct (is_error_text t2); [intros [= <- _ _]; reflexivity|].
  destruct (generate SecondDeveloper p3) as [[t3|d] p4];
    [discriminate|intros [= <- _ _]; reflexivity].
Qed.

Lemma tester_prelude_early p r p' log :
  tester_prelude p = (inl r, p', log) -> status r = "error".
Proof.
  unfold Builder.tester_prelude.
  destruct (generate (CreateAgentFile "tester") p) as [[t|d] p1];
    [|intros [= <- _ _]; reflexivity].
  destruct (is_error_text t); [intros [= <- _ _]; reflexivity|].
  destruct (generate (CreateOutput "tester") (write_code_tree p1)) as [[t2|d] p3];
    [|intros [= <- _ _]; reflexivity].
  destruct (is_error_text t2); [intros [= <- _ _]; reflexivity|discriminate].
Qed.

Lemma status_error_ok_dev r p' : status r = "error" -> developer_status_ok r p'.
Proof.
  intros He. split; [rewrite He; discriminate|]. intros Hne. destruct (Hne He).
Qed.

Lemma status_error_ok_test r p' : status r = "error" -> tester_status_ok r p'.
Proof.
  intros He. split; [rewrite He; discriminate|]. intros Hne. destruct (Hne He).
Qed.

Lemma developer_status p r p' log :
  developer p = (r, p', log) -> developer_status_ok r p'.
Proof.
  unfold Builder._execute_developer_phase.
  destruct (developer_prelude p) as [[[r0|[]] p1] log1] eqn:Hpre.
  - intros [= <- <- _]. apply status_error_ok_dev.
    exact (developer_prelude_early _ _ _ _ Hpre).
  - destruct (developer_loop dev_max_iterations dev_init p1 log1)
      as [[[r1|st|d] p2] log2] eqn:Hloop.
    + intros [= <- <- _].
      destruct (developer_loop_returned _ _ _ _ _ _ _ Hloop) as (Hs & _ & Hc).
      split; [auto|]. intros _. split; [auto|]. intros Hn. destruct (Hn Hc).
    + apply developer_finish_status.
    + intros [= <- <- _]. apply error_status_ok_dev.
Qed.

Lemma tester_status p r p' log :
  tester p = (r, p', log) -> tester_status_ok r p'.
Proof.
  unfold Builder._execute_tester_phase.
  destruct (tester_prelude p) as [[[r0|[]] p1] log1] eqn:Hpre.
  - intros [= <- <- _]. apply status_error_ok_test.
    exact (tester_prelude_early _ _ _ _ Hpre).
  - destruct (tester_loop test_max_iterations p1 log1) as [[[|d] p2] log2].
    + unfold Builder.tester_finish. intros [= <- <- _]. cbn [status].
      destruct (Nat.eqb (count_tests p2) 0) eqn:Hz.
      * apply Nat.eqb_eq in Hz. split; [auto|]. intros _.
        split; [reflexivity|]. intros Hn. destruct (Hn Hz).
      * apply Nat.eqb_neq in Hz. split; [discriminate|]. intros _.
        split; [intros H0; destruct (Hz H0)|reflexivity].
    + intros [= <- <- _]. apply error_status_ok_test.
Qed.



(** *** After the loops *)

Lemma tester_loop_log n : forall p log x p' log',
  tester_loop n p log = (x, p', log') ->
  exists k, k <= n /\ log' = log ++ repeat RunTests k.
Proof.
  induction n as [|n IH]; intros p log x p' log' H; cbn [Builder.tester_loop] in H.
  - injection H as _ _ <-. exists 0. rewrite app_nil_r. auto.
  - destruct (Nat.eqb (count_tests p) 0).
    { injection H as _ _ <-. exists 0. rewrite app_nil_r. split; [lia|reflexivity]. }
    destruct (generate RunTests p) as [[t|d] p1].
    + destruct (IH _ _ _ _ _ H) as (k & Hk & ->).
      exists (S k). split; [lia|]. rewrite <- app_assoc. reflexivity.
    + injection H as _ _ <-. exists 1. split; [lia|reflexivity].
Qed.

Lemma tester_prelude_log p x p' log :
  tester_prelude p = (x, p', log) ->
  forall k, ~ In (FinalAttempt k) log.
Proof.
  unfold Builder.tester_prelude. intros H k Hin.
  destruct (generate (CreateAgentFile "tester") p) as [[t|d] p1].
  - destruct (is_error_text t).
    + injection H as _ _ <-. destruct Hin as [Hq|[]]; discriminate Hq.
    + destruct (generate (CreateOutput "tester") (write_code_tree p1)) as [[t2|d] p3];
        [destruct (is_error_text t2)|];
        injection H as _ _ <-; destruct Hin as [Hq|[Hq|[]]]; discriminate Hq.
  - injection H as _ _ <-. destruct Hin as [Hq|[]]; discriminate Hq.
Qed.

Lemma tester_never_final_attempt p r p' log :
  tester p = (r, p', log) -> forall k, ~ In (FinalAttempt k) log.
Proof.
  unfold Builder._execute_tester_phase. intros H k Hin.
  destruct (tester_prelude p) as [[x p1] log1] eqn:Hpre.
  pose proof (tester_prelude_log _ _ _ _ Hpre k) as Hno.
  destruct x as [r0|[]].
  - injection H as _ _ <-. exact (Hno Hin).
  - destruct (tester_loop test_max_iterations p1 log1) as [[y p2] log2] eqn:Hloop.
    destruct (tester_loop_log _ _ _ _ _ _ Hloop) as (j & _ & ->).
    assert (Hlog : log = log1 ++ repeat RunTests j).
    { destruct y; [unfold Builder.tester_finish in H|]; injection H as _ _ <-; reflexivity. }
    rewrite Hlog in Hin. apply in_app_or in Hin. destruct Hin as [Hin|Hin].
    + exact (Hno Hin).
    + apply repeat_spec in Hin. discriminate Hin.
Qed.

(** C4, as amended.  Developer stage: when the convergence loop is left
    with open items (after its 10 iterations, or on a continuation that
    answered an error text), exactly one more invocation, the final
    attempt, is made; the items are counted again and that count decides
    the result: "success" when it is 0, else "partial" or "failed" by
    the "improving" flag.  Tester stage: when its loop is left nothing
    more is invoked; the result is "success" or "partial" by a recount
    on the project as the loop left it, and no final-attempt prompt is
    ever sent. *)
Theorem final_attempt_after_developer_loop_only p p1 log1 p2 log2 :
  (forall st t p3,
      developer_prelude p = (inr tt, p1, log1) ->
      developer_loop dev_max_iterations dev_init p1 log1 = (DevLeft st, p2, log2) ->
      count_tasks p2 <> 0 ->
      generate (FinalAttempt (count_tasks p2)) p2 = (Text t, p3) ->
      exists r,
        developer p = (r, p3, log2 ++ [FinalAttempt (count_tasks p2)])
        /\ remaining r = Some (count_tasks p3)
        /\ status r = (if Nat.eqb (count_tasks p3) 0 then "success"
                       else if improved st then "partial" else "failed"))
  /\
  (tester_prelude p = (inr tt, p1, log1) ->
   tester_loop test_max_iterations p1 log1 = (TestLeft, p2, log2) ->
   tester p
   = ({| status := if Nat.eqb (count_tests p2) 0 then "success" else "partial";
         message := "Tester executed tests sequentially";
         remaining := Some (count_tests p2) |}, p2, log2))
  /\
  (forall r p' log, tester p = (r, p', log) -> forall k, ~ In (FinalAttempt k) log).
Proof.
  split; [|split].
  - intros st t p3 Hpre Hloop Hopen Hgen.
    unfold Builder._execute_developer_phase. rewrite Hpre, Hloop.
    unfold Builder.developer_finish.
    apply Nat.eqb_neq in Hopen. rewrite Hopen, Hgen.
    destruct (Nat.eqb (count_tasks p3) 0) eqn:Hz.
    + eexists. split; [reflexivity|]. apply Nat.eqb_eq in Hz.
      cbn [remaining status]. rewrite Hz. auto.
    + eexists. split; [reflexivity|]. cbn [remaining status]. auto.
  - intros Hpre Hloop. unfold Builder._execute_tester_phase.
    rewrite Hpre, Hloop. reflexivity.
  - apply tester_never_final_attempt.
Qed.


(** C10: a marker that does not exist or cannot be read counts 0 open
    items; so when it is absent after the initial invocations, the
    developer stage and the tester stage answer "success" with no
    convergence pass at all. *)
Theorem absent_marker_counts_as_complete p p1 log1 :
  (tasks_list p1 = Missing \/ tasks_list p1 = Unreadable ->
   count_tasks p1 = 0
   /\ (developer_prelude p = (inr tt, p1, log1) ->
       developer p
       = ({| status := "success"; message := "All developer subtasks completed";
             remaining := Some 0 |}, p1, log1)))
  /\
  (test_list p1 = Missing \/ test_list p1 = Unreadable ->
   count_tests p1 = 0
   /\ (tester_prelude p = (inr tt, p1, log1) ->
       tester p
       = ({| status := "success"; message := "Tester executed tests sequentially";
             remaining := Some 0 |}, p1, log1))).
Proof.
  split; intros Habs.
  - assert (Hz : count_tasks p1 = 0) by (apply count_open_absent, Habs).
    split; [exact Hz|]. intros Hpre.
    unfold Builder._execute_developer_phase. rewrite Hpre.
    unfold dev_max_iterations. cbn [Builder.developer_loop].
    rewrite Hz. reflexivity.
  - assert (Hz : count_tests p1 = 0) by (apply count_open_absent, Habs).
    split; [exact Hz|]. intros Hpre.
    unfold Builder._execute_tester_phase. rewrite Hpre.
    unfold test_max_iterations. cbn [Builder.tester_loop].
    rewrite Hz. cbn [Nat.eqb]. unfold Builder.tester_finish. rewrite Hz. reflexivity.
Qed.


End Phases.

End BuilderFacts.

(** *** The stages on scripted projects *)

Import Builder BuilderScript BuilderParts.



(** C4 fails as stated for the tester stage: with two tests open for ever,
    the stage makes its two opening invocations and the 30 of its loop, and
    then answers "partial" without any further invocation. *)
Lemma tester_makes_no_final_attempt :
  let '(r, p', log) := tester stuck in
  log = tester_opening ++ repeat RunTests 30
  /\ length log = 32
  /\ count_tests p' = 2
  /\ status r = "partial"
  /\ ~ (exists k rest, log = tester_opening ++ repeat RunTests 30 ++ FinalAttempt k :: rest).
Proof.
  vm_compute. repeat split; try reflexivity.
  intros (k & rest & H). discriminate H.
Qed.

(** The developer stage on the same project: ten continuations, then the
    one final attempt, and "failed" on the recount. *)
Lemma final_attempt_witness :
  exists r,
    developer stuck
    = (r, stuck,
       (developer_opening ++ repeat ContinueDeveloper 10) ++ [FinalAttempt (count_tasks stuck)])
    /\ remaining r = Some (count_tasks stuck)
    /\ status r = (if Nat.eqb (count_tasks stuck) 0 then "success"
                   else if improved {| iterations := 10; improved := false;
                                       last_remaining := Some 2 |}
                        then "partial" else "failed").
Proof.
  apply (proj1 (BuilderFacts.final_attempt_after_developer_loop_only
                  tasks_file tests_file generate write_code_tree
                  stuck stuck developer_opening stuck
                  (developer_opening ++ repeat ContinueDeveloper 10))
               {| iterations := 10; improved := false; last_remaining := Some 2 |}
               "OK" stuck).
  - reflexivity.
  - reflexivity.
  - discriminate.
  - reflexivity.
Defined.


(** No checklist at all: "success" after the three opening invocations. *)
Lemma absent_marker_witness :
  developer no_checklist
  = ({| status := "success"; message := "All developer subtasks completed";
        remaining := Some 0 |}, no_checklist, developer_opening).
Proof.
  apply (proj2 (proj1 (BuilderFacts.absent_marker_counts_as_complete
                         tasks_file tests_file generate write_code_tree
                         no_checklist no_checklist developer_opening)
                      (or_introl eq_refl))).
  reflexivity.
Defined.



(** ** The structure stage leaves placeholders *)

Example splitext_cases :
  map Sanitize.splitext_ext ["app.py"; ".bashrc"; "a.tar.gz"; "..x.py"; "..py"; "README"; "x."]
  = [".py"; ""; ".gz"; ".py"; ""; ""; "."].
Proof. reflexivity. Qed.

Example placeholder_cases :
  map Sanitize.placeholder_for ["app.py"; "Main.JAVA"; "notes"]
  = [Sanitize.hash; Sanitize.slashes; Sanitize.default_placeholder].
Proof. vm_compute. reflexivity. Qed.

Example sanitize_sample_modified :
  Sanitize.modified Sanitize.sample_root
  = [["backend"; "app.py"]; ["backend"; "src"; "Main.JAVA"]; ["frontend"; "index.html"]].
Proof. vm_compute. reflexivity. Qed.

Example sanitize_sample_files :
  map (fun pf => (fst pf, Tree.content (snd pf)))
      (Sanitize.code_files (Sanitize._sanitize_code_directories Sanitize.sample_root))
  = [ (["backend"; "app.py"], Sanitize.hash);
      (["backend"; "locked.py"], "import sys");
      (["backend"; "frozen.py"], "import re");
      (["backend"; "src"; "Main.JAVA"], Sanitize.slashes);
      (["backend"; "src"; "notes"], " ");
      (["backend"; "src"; ".gitkeep"], "keep");
      (["backend"; "empty"; ".gitkeep"], "");
      (["frontend"; "index.html"],
       "<!-- Placeholder - to be implemented by Developer agent -->" +:+ Sanitize.newline) ].
Proof. vm_compute. reflexivity. Qed.

Module SanitizeFacts.
Import Tree Sanitize.

(** Induction on trees: a directory has the property when all its
    entries have it. *)
Lemma node_induction (Q : node -> Prop) :
  (forall f, Q (File f)) ->
  (forall entries, Forall (fun e => Q (snd e)) entries -> Q (Dir entries)) ->
  forall n, Q n.
Proof.
  intros Hfile Hdir.
  exact (fix rec (n : node) : Q n :=
           match n with
           | File f => Hfile f
           | Dir entries =>
               Hdir entries
                 ((fix all (l : list (string * node))
                     : Forall (fun e => Q (snd e)) l :=
                     match l with
                     | [] => @List.Forall_nil _ _
                     | e :: r => @List.Forall_cons _ _ e r (rec (snd e)) (all r)
                     end) entries)
           end).
Qed.

Lemma basename_cons x p : p <> [] -> basename (x :: p) = basename p.
Proof. destruct p; [congruence | reflexivity]. Qed.

Lemma files_of_dir_paths entries :
  Forall (fun pf => fst pf <> []) (files_of (Dir entries)).
Proof.
  cbn [files_of]. apply List.Forall_forall. intros pf Hin.
  apply List.in_flat_map in Hin. destruct Hin as (e & _ & Hin).
  apply List.in_map_iff in Hin. destruct Hin as (q & <- & _). discriminate.
Qed.

Lemma map_under_pass1 x l :
  Forall (fun pf => fst pf <> []) l ->
  map (under x) (map pass1 l) = map pass1 (map (under x) l).
Proof.
  induction 1 as [|pf l Hpf _ IH]; [reflexivity|].
  cbn [map]. rewrite IH. f_equal.
  unfold pass1, under. cbn [fst snd]. rewrite (basename_cons _ _ Hpf). reflexivity.
Qed.

Lemma files_of_sanitize n :
  is_dir n = true ->
  files_of (sanitize_node n) = map pass1 (files_of n).
Proof.
  induction n as [f|es IH] using node_induction; [discriminate|].
  intros _. cbn [sanitize_node files_of].
  induction IH as [|[name child] es Hchild _ IHes]; [reflexivity|].
  cbn [map flat_map fst snd]. rewrite List.map_app. f_equal; [|exact IHes].
  destruct child as [f|sub]; cbn [fst snd].
  - reflexivity.
  - cbn [snd] in Hchild. rewrite (Hchild eq_refl).
    apply (map_under_pass1 name). apply files_of_dir_paths.
Qed.

Lemma filter_under x l :
  Forall (fun pf => fst pf <> []) l ->
  List.filter not_gitkeep (map (under x) l)
  = map (under x) (List.filter not_gitkeep l).
Proof.
  induction 1 as [|pf l Hpf _ IH]; [reflexivity|].
  cbn [map List.filter].
  replace (not_gitkeep (under x pf)) with (not_gitkeep pf).
  - destruct (not_gitkeep pf); cbn [map]; rewrite IH; reflexivity.
  - unfold not_gitkeep, under. cbn [fst]. rewrite (basename_cons _ _ Hpf). reflexivity.
Qed.

Lemma filter_app {A} (f : A -> bool) l1 l2 :
  List.filter f (l1 ++ l2) = List.filter f l1 ++ List.filter f l2.
Proof.
  induction l1 as [|a l1 IH]; [reflexivity|].
  cbn [app List.filter]. destruct (f a); cbn [app]; rewrite IH; reflexivity.
Qed.

Lemma files_of_keep_below es :
  Forall (fun e =>
            List.filter not_gitkeep (files_of (keep_node (snd e)))
            = List.filter not_gitkeep (files_of (snd e))) es ->
  List.filter not_gitkeep
    (files_of (Dir (map (fun e => (fst e, keep_node (snd e))) es)))
  = List.filter not_gitkeep (files_of (Dir es)).
Proof.
  cbn [files_of].
  induction 1 as [|[name child] es Hchild _ IHes]; [reflexivity|].
  cbn [map flat_map fst snd]. rewrite !filter_app, IHes. f_equal.
  destruct child as [f|sub].
  - reflexivity.
  - cbn [snd] in Hchild.
    change (List.filter not_gitkeep (map (under name) (files_of (keep_node (Dir sub))))
            = List.filter not_gitkeep (map (under name) (files_of (Dir sub)))).
    rewrite (filter_under name _ (files_of_dir_paths sub)).
    assert (Hk : exists sub', keep_node (Dir sub) = Dir sub').
    { cbn [keep_node]. destruct (_ && _)%bool; eexists; reflexivity. }
    destruct Hk as (sub' & Hk). rewrite Hk in *.
    rewrite (filter_under name _ (files_of_dir_paths sub')), Hchild. reflexivity.
Qed.

Lemma files_of_keep n :
  List.filter not_gitkeep (files_of (keep_node n))
  = List.filter not_gitkeep (files_of n).
Proof.
  induction n as [f|es IH] using node_induction; [reflexivity|].
  cbn [keep_node]. destruct (_ && _)%bool.
  - rewrite <- (files_of_keep_below es IH).
    cbn [files_of]. rewrite List.flat_map_app, filter_app.
    cbn [flat_map map files_of fst snd app List.filter].
    rewrite List.app_nil_r. reflexivity.
  - apply files_of_keep_below, IH.
Qed.

Lemma sanitize_node_is_dir n : is_dir (sanitize_node n) = is_dir n.
Proof. destruct n; reflexivity. Qed.

Lemma keep_node_is_dir n : is_dir (keep_node n) = is_dir n.
Proof. destruct n; [reflexivity|]. cbn [keep_node]. destruct (_ && _)%bool; reflexivity. Qed.

Lemma code_files_sanitize root :
  code_files (on_code_dirs sanitize_node root) = map pass1 (code_files root).
Proof.
  unfold code_files, on_code_dirs.
  induction root as [|[name n] root IH]; [reflexivity|].
  cbn [map flat_map fst snd]. rewrite List.map_app. f_equal; [|exact IH].
  destruct (is_code_dir name && is_dir n)%bool eqn:Hc; cbn [fst snd].
  - rewrite sanitize_node_is_dir, Hc.
    apply andb_prop in Hc. destruct Hc as [_ Hd].
    rewrite (files_of_sanitize n Hd).
    destruct n as [f|sub]; [discriminate|].
    apply (map_under_pass1 name), files_of_dir_paths.
  - rewrite Hc. reflexivity.
Qed.

Lemma code_files_keep root :
  List.filter not_gitkeep (code_files (on_code_dirs keep_node root))
  = List.filter not_gitkeep (code_files root).
Proof.
  unfold code_files, on_code_dirs.
  induction root as [|[name n] root IH]; [reflexivity|].
  cbn [map flat_map fst snd]. rewrite !filter_app. f_equal; [|exact IH].
  destruct (is_code_dir name && is_dir n)%bool eqn:Hc; cbn [fst snd].
  - rewrite keep_node_is_dir, Hc.
    apply andb_prop in Hc. destruct Hc as [_ Hd].
    destruct n as [f|sub]; [discriminate|].
    assert (Hk : exists sub', keep_node (Dir sub) = Dir sub').
    { cbn [keep_node]. destruct (_ && _)%bool; eexists; reflexivity. }
    destruct Hk as (sub' & Hk).
    pose proof (files_of_keep (Dir sub)) as Hf. rewrite Hk in *.
    change (List.filter not_gitkeep (map (under name) (files_of (Dir sub')))
            = List.filter not_gitkeep (map (under name) (files_of (Dir sub)))).
    rewrite (filter_under name _ (files_of_dir_paths sub')),
            (filter_under name _ (files_of_dir_paths sub)), Hf.
    reflexivity.
  - rewrite Hc. reflexivity.
Qed.

Lemma filter_pass1 l :
  List.filter not_gitkeep (map pass1 l) = map overwrite (List.filter not_gitkeep l).
Proof.
  induction l as [|pf l IH]; [reflexivity|].
  cbn [map List.filter].
  replace (not_gitkeep (pass1 pf)) with (not_gitkeep pf) by reflexivity.
  destruct (not_gitkeep pf) eqn:Hk; [|exact IH].
  cbn [map]. rewrite IH. f_equal.
  unfold pass1, overwrite. unfold not_gitkeep in Hk.
  apply negb_true_iff in Hk. rewrite Hk. reflexivity.
Qed.

(** C6, as amended: after [_sanitize_code_directories], the files of
    [backend/] and [frontend/] other than [.gitkeep] are the files that
    were there, each one rewritten by [sanitize_file]; a file that opens
    for reading and for writing ends up blank (it was blank already) or
    holding exactly the placeholder of its extension, and it holds the
    placeholder whenever it held anything but blanks; a file that does not
    open for reading, or not for writing, is left as it was. *)
Theorem sanitize_overwrites_files_it_can_open root :
  List.filter not_gitkeep (code_files (_sanitize_code_directories root))
  = map overwrite (List.filter not_gitkeep (code_files root))
  /\
  (forall fname f,
      readable f = true -> writable f = true ->
      (blank (content (sanitize_file fname f)) = true
       \/ content (sanitize_file fname f) = placeholder_for fname)
      /\ (blank (content f) = false ->
          content (sanitize_file fname f) = placeholder_for fname))
  /\
  (forall fname f,
      readable f = false \/ writable f = false -> sanitize_file fname f = f).
Proof.
  split; [|split].
  - unfold _sanitize_code_directories.
    rewrite code_files_keep, code_files_sanitize. apply filter_pass1.
  - intros fname f Hr Hw. unfold sanitize_file. rewrite Hr, Hw. cbn [negb].
    destruct (blank (content f)) eqn:Hb.
    + split; [left; exact Hb | discriminate].
    + split; [right; reflexivity | reflexivity].
  - intros fname f [Hr | Hw]; unfold sanitize_file.
    + rewrite Hr. reflexivity.
    + rewrite Hw. destruct (readable f), (blank (content f)); reflexivity.
Qed.

End SanitizeFacts.

(** In the sample project [backend/app.py] opens both ways and held code:
    it now holds the Python placeholder. *)
Lemma sanitize_witness :
  Tree.content (Sanitize.sanitize_file "app.py" (Sanitize.plain "import os"))
  = Sanitize.placeholder_for "app.py".
Proof.
  apply (proj2 (proj1 (proj2 (SanitizeFacts.sanitize_overwrites_files_it_can_open
                                Sanitize.sample_root))
                      "app.py" (Sanitize.plain "import os") eq_refl eq_refl)).
  reflexivity.
Defined.

(** C6 fails as stated: in the sample project [backend/locked.py] does not
    open for reading and [backend/frozen.py] does not open for writing;
    after the sanitization both still hold their code, which is neither
    blank nor the placeholder. *)
Lemma unopenable_files_keep_their_code :
  let after := Sanitize.code_files
                 (Sanitize._sanitize_code_directories Sanitize.sample_root) in
  let locked := {| Tree.content := "import sys"; Tree.readable := false;
                   Tree.writable := true |} in
  let frozen := {| Tree.content := "import re"; Tree.readable := true;
                   Tree.writable := false |} in
  In (["backend"; "locked.py"], locked) after
  /\ In (["backend"; "frozen.py"], frozen) after
  /\ Sanitize.blank (Tree.content locked) = false
  /\ Tree.content locked <> Sanitize.placeholder_for "locked.py"
  /\ Sanitize.blank (Tree.content frozen) = false
  /\ Tree.content frozen <> Sanitize.placeholder_for "frozen.py".
Proof.
  vm_compute. repeat split; try discriminate; auto.
Qed.

(** ** Recorded artifacts and progress *)

Example developer_artifacts :
  Tasks.recorded
    (snd (Tasks.update_agent_artifacts Tasks.one_task "t1" "developer"
            ["backend\src\app.py"; ".sureai/prd_document.md"; ".sureai/tasks_list.md";
             "frontend/src/App.js"; "README.md"]))
    "t1" "developer"
  = Some {| Tasks.files_created := ["backend/src/app.py"; ".sureai/tasks_list.md";
                                    "frontend/src/App.js"];
            Tasks.in_progress_file := Some ".sureai/tasks_list.md" |}.
Proof. vm_compute. reflexivity. Qed.

Example analyst_artifacts :
  Tasks.recorded
    (snd (Tasks.update_agent_artifacts Tasks.one_task "t1" "analyst"
            [".sureai/tasks_list.md"; ".sureai/requirements_document.md";
             ".sureai/analysis_document.md"]))
    "t1" "analyst"
  = Some {| Tasks.files_created := [".sureai/requirements_document.md";
                                    ".sureai/analysis_document.md"];
            Tasks.in_progress_file := Some ".sureai/requirements_document.md" |}.
Proof. vm_compute. reflexivity. Qed.

Example progress_three_stages :
  Workflow.run ["directory_structure"; "analyst"; "developer"] (fun _ => true)
  = [0; 0; 33; 33; 66; 66; 100; 100]%Z.
Proof. vm_compute. reflexivity. Qed.

Example progress_failing_stage :
  Workflow.run ["directory_structure"; "analyst"; "developer"] (fun i => Nat.eqb i 0)
  = [0; 0; 33; 33]%Z.
Proof. vm_compute. reflexivity. Qed.


Module TasksFacts.
Import Tasks.

Lemma agent_outputs_nonempty agent allowed :
  agent_outputs !! agent = Some allowed -> allowed <> [].
Proof.
  unfold agent_outputs. intros H. apply elem_of_list_to_map_2 in H.
  repeat (apply elem_of_cons in H as [H | H]; [injection H as _ ->; discriminate|]).
  apply elem_of_nil in H. destruct H.
Qed.

Lemma keeps_allow_list allowed n :
  allowed <> [] ->
  keeps allowed n
  = existsb (fun a => (String.eqb n a || PyStr.startswith n a)%bool) allowed.
Proof.
  intros Hne. unfold keeps. destruct allowed; [congruence|]. apply orb_false_r.
Qed.

Lemma first_of_filter (test : string -> bool) l :
  match List.filter test l with f :: _ => Some f | [] => None end = List.find test l.
Proof.
  induction l as [|x l IH]; [reflexivity|].
  cbn [List.filter List.find]. destruct (test x); [reflexivity | exact IH].
Qed.

Lemma find_holds (test : string -> bool) l f :
  List.find test l = Some f -> test f = true.
Proof. intros H. exact (proj2 (List.find_some _ _ H)). Qed.

(** A path the heuristic may pick holds a dot, so the "no dot suggests a
    directory" rule never drops it. *)
Lemma final_rule_keeps f suffix :
  PyStr.occurs Sanitize.dot suffix = true -> PyStr.endswith f suffix = true ->
  (PyStr.truthy f && negb (PyStr.contains f slash_s)
   && negb (PyStr.contains f "."))%bool = false.
Proof.
  intros Hs He.
  pose proof (PyStrFacts.endswith_contains_char f suffix Sanitize.dot Hs He) as Hc.
  change (PyStr.contains f "." = true) in Hc. rewrite Hc.
  apply andb_false_r.
Qed.

Lemma is_sureai_md_endswith f : is_sureai_md f = true -> PyStr.endswith f ".md" = true.
Proof. unfold is_sureai_md. intros H. apply andb_prop in H. tauto. Qed.

Lemma choose_with (c2 : option string) suffix kept :
  PyStr.occurs Sanitize.dot suffix = true -> suffix <> EmptyString ->
  (forall f, c2 = Some f -> PyStr.endswith f suffix = true) ->
  match
    (if unset c2 then
       match List.filter is_sureai_md kept with f :: _ => Some f | [] => c2 end
     else c2)
  with
  | Some f =>
      if (PyStr.truthy f && negb (PyStr.contains f slash_s)
          && negb (PyStr.contains f "."))%bool
      then None
      else (if unset c2 then
              match List.filter is_sureai_md kept with f :: _ => Some f | [] => c2 end
            else c2)
  | None => None
  end
  = match c2 with Some f => Some f | None => List.find is_sureai_md kept end.
Proof.
  intros Hdot Hne Hc2. destruct c2 as [f|].
  - pose proof (Hc2 f eq_refl) as He.
    cbn [unset]. rewrite (PyStrFacts.endswith_truthy f suffix Hne He). cbn [negb].
    rewrite (final_rule_keeps f suffix Hdot He). reflexivity.
  - cbn [unset]. rewrite <- (first_of_filter is_sureai_md kept).
    destruct (List.filter is_sureai_md kept) as [|f rest] eqn:Hf; [reflexivity|].
    assert (Hmd : is_sureai_md f = true).
    { assert (Hin : In f (List.filter is_sureai_md kept)) by (rewrite Hf; left; reflexivity).
      apply List.filter_In in Hin. tauto. }
    rewrite (final_rule_keeps f ".md" eq_refl (is_sureai_md_endswith f Hmd)).
    reflexivity.
Qed.

Lemma choose_in_progress_by_preference agent kept :
  choose_in_progress agent kept = hint_by_preference agent kept.
Proof.
  unfold choose_in_progress, hint_by_preference, preferred_checklist.
  destruct (String.eqb_spec agent "developer") as [-> | Hd].
  - cbn [orb andb String.eqb Ascii.eqb Bool.eqb].
    apply (choose_with _ "tasks_list.md"); [reflexivity | discriminate |].
    intros f Hf. exact (find_holds _ _ _ Hf).
  - destruct (String.eqb_spec agent "sm") as [-> | Hs].
    + cbn [orb andb String.eqb Ascii.eqb Bool.eqb].
      apply (choose_with _ "tasks_list.md"); [reflexivity | discriminate |].
      intros f Hf. exact (find_holds _ _ _ Hf).
    + cbn [orb unset]. destruct (String.eqb agent "tester"); cbn [andb].
      * apply (choose_with _ "test-list.md"); [reflexivity | discriminate |].
        intros f Hf. exact (find_holds _ _ _ Hf).
      * apply (choose_with None ".md"); [reflexivity | discriminate | discriminate].
Qed.

Lemma last_update_last (f : entry -> entry) h :
  h <> [] ->
  exists e, List.last (map Some (update_last f h)) None = Some (f e).
Proof.
  induction h as [|e h IH]; [congruence|]. intros _.
  destruct h as [|e' h'].
  - exists e. reflexivity.
  - destruct IH as (x & Hx); [discriminate|]. exists x.
    change (update_last f (e :: e' :: h')) with (e :: update_last f (e' :: h')).
    cbn [map]. destruct (update_last f (e' :: h')) as [|y ys] eqn:Hu.
    + discriminate Hx.
    + exact Hx.
Qed.

(** C8: for a stage with a declared allow-list, what the latest memory
    entry records after [update_agent_artifacts] is: as [files_created],
    the reported paths (with backslashes turned into slashes), in order,
    that equal an allow-listed entry or start with one; as
    [in_progress_file], the first kept path ending in [tasks_list.md] for
    the developer and sm stages, in [test-list.md] for the tester stage,
    and otherwise the first markdown file of [.sureai] among the kept
    paths. *)
Theorem recorded_artifacts_follow_allow_list
      (db : store) task_id agent files (t : task) allowed :
  db !! task_id = Some t ->
  history t <> [] ->
  agent_outputs !! agent = Some allowed ->
  let kept :=
    List.filter
      (fun n => existsb (fun a => (String.eqb n a || PyStr.startswith n a)%bool) allowed)
      (map normalize files) in
  recorded (snd (update_agent_artifacts db task_id agent files)) task_id agent
  = Some {| files_created := kept;
            in_progress_file := hint_by_preference agent kept |}
  /\ (forall p, In p kept <->
                exists r, In r files /\ p = normalize r
                          /\ exists a, In a allowed
                                       /\ (p = a \/ PyStr.startswith p a = true)).
Proof.
  intros Hdb Hh Hallow kept.
  assert (Hkept : filter_artifacts allowed files = kept).
  { unfold filter_artifacts, kept. apply List.filter_ext. intros n.
    apply keeps_allow_list. exact (agent_outputs_nonempty _ _ Hallow). }
  split.
  - unfold update_agent_artifacts. rewrite Hdb, Hallow.
    cbv [default from_option id].
    destruct (history t) as [|e0 h0] eqn:Hhist; [congruence|].
    cbn [snd]. unfold recorded. rewrite lookup_insert_eq. cbn [mbind option_bind history].
    destruct (last_update_last
                (fun e => {| agents_details :=
                    <[agent := {| files_created := filter_artifacts allowed files;
                                  in_progress_file :=
                                    choose_in_progress agent
                                      (filter_artifacts allowed files) |}]>
                      (agents_details e) |})
                (e0 :: h0)) as (x & ->); [discriminate|].
    cbn [mbind option_bind agents_details]. rewrite lookup_insert_eq.
    rewrite choose_in_progress_by_preference, Hkept. reflexivity.
  - intros p. unfold kept. rewrite List.filter_In, List.in_map_iff, existsb_exists.
    split.
    + intros ((r & <- & Hr) & a & Ha & Hm). exists r. repeat split; [exact Hr|].
      exists a. split; [exact Ha|].
      apply orb_prop in Hm. destruct Hm as [Hm | Hm]; [left | right; exact Hm].
      apply String.eqb_eq. exact Hm.
    + intros (r & Hr & -> & a & Ha & Hm). split; [exists r; auto|].
      exists a. split; [exact Ha|].
      destruct Hm as [-> | Hm]; [rewrite String.eqb_refl; reflexivity|].
      rewrite Hm. apply orb_true_r.
Qed.

End TasksFacts.

(** The developer stage reporting five paths, two outside its allow-list. *)
Lemma recorded_artifacts_witness :
  Tasks.recorded
    (snd (Tasks.update_agent_artifacts Tasks.one_task "t1" "developer"
            ["backend\src\app.py"; ".sureai/prd_document.md"; ".sureai/tasks_list.md";
             "frontend/src/App.js"; "README.md"]))
    "t1" "developer"
  = Some {| Tasks.files_created :=
              List.filter
                (fun n => existsb (fun a => (String.eqb n a || PyStr.startswith n a)%bool)
                                  [".sureai/tasks_list.md"; "backend/"; "frontend/"])
                (map Tasks.normalize
                     ["backend\src\app.py"; ".sureai/prd_document.md";
                      ".sureai/tasks_list.md"; "frontend/src/App.js"; "README.md"]);
            Tasks.in_progress_file :=
              Tasks.hint_by_preference "developer"
                (List.filter
                   (fun n => existsb (fun a => (String.eqb n a || PyStr.startswith n a)%bool)
                                     [".sureai/tasks_list.md"; "backend/"; "frontend/"])
                   (map Tasks.normalize
                        ["backend\src\app.py"; ".sureai/prd_document.md";
                         ".sureai/tasks_list.md"; "frontend/src/App.js"; "README.md"])) |}.
Proof.
  apply (proj1 (TasksFacts.recorded_artifacts_follow_allow_list
                  Tasks.one_task "t1" "developer"
                  ["backend\src\app.py"; ".sureai/prd_document.md"; ".sureai/tasks_list.md";
                   "frontend/src/App.js"; "README.md"]
                  Tasks.blank_task
                  [".sureai/tasks_list.md"; "backend/"; "frontend/"]
                  eq_refl ltac:(discriminate) eq_refl)).
Defined.

Module WorkflowFacts.
Import Workflow.

Local Open Scope Z_scope.

Lemma percent_monotone n i j : (i <= j)%nat -> percent i n <= percent j n.
Proof.
  intros Hij. unfold percent. destruct n as [|n].
  - change (Z.of_nat 0) with 0. rewrite !Z.div_0_r. lia.
  - apply Z.div_le_mono; lia.
Qed.

Lemma percent_full n : percent n n <= 100.
Proof.
  unfold percent. destruct n as [|n].
  - change (Z.of_nat 0) with 0. rewrite Z.div_0_r. lia.
  - rewrite Z.mul_comm, Z.div_mul; lia.
Qed.

Section Run.
Context (pct : nat -> nat -> Z) (ok : nat -> bool).
Hypothesis pct_monotone : forall n i j, (i <= j)%nat -> pct i n <= pct j n.
Hypothesis pct_full : forall n, pct n n <= 100.

Local Abbreviation stage_writes := (stage_writes pct ok).

Lemma stage_writes_sorted n : forall agents i,
  (i + length agents = n)%nat ->
  StronglySorted Workflow.le_write (fst (stage_writes n i agents))
  /\ Forall (fun w => pct i n <= snd w <= 100) (fst (stage_writes n i agents)).
Proof using pct_monotone pct_full.
  induction agents as [|a rest IH]; intros i Hlen; cbn [Workflow.stage_writes].
  - split; constructor.
  - cbn [length] in Hlen.
    assert (Hi : pct i n <= pct (S i) n) by (apply pct_monotone; lia).
    assert (Htop : forall k, (k <= n)%nat -> pct k n <= 100).
    { intros k Hk. etransitivity; [apply (pct_monotone n k n Hk) | apply pct_full]. }
    destruct (ok i).
    + destruct (IH (S i) ltac:(lia)) as [Hs Hb].
      destruct (stage_writes n (S i) rest) as [ws through]. cbn [fst] in *.
      assert (Hb' : Forall (fun w => pct i n <= snd w <= 100) ws).
      { eapply List.Forall_impl; [|exact Hb]. cbn. intros w Hw. lia. }
      split.
      * constructor; [constructor; [exact Hs|]|].
        -- eapply List.Forall_impl; [|exact Hb]. unfold Workflow.le_write. cbn. intros w Hw. lia.
        -- constructor; [unfold Workflow.le_write; cbn; lia|].
           eapply List.Forall_impl; [|exact Hb']. unfold Workflow.le_write. cbn. intros w Hw. lia.
      * constructor; [cbn; split; [lia | apply Htop; lia]|].
        constructor; [cbn; split; [lia | apply Htop; lia]|exact Hb'].
    + cbn [fst]. split.
      * constructor; constructor.
      * constructor; [cbn; split; [lia | apply Htop; lia] | constructor].
Qed.

Lemma progress_writes_sorted agents :
  StronglySorted Z.le (map snd (progress_writes pct ok agents))
  /\ Forall (fun v => pct 0 (length agents) <= v) (map snd (progress_writes pct ok agents)).
Proof using pct_monotone pct_full.
  unfold progress_writes.
  destruct (stage_writes_sorted (length agents) agents 0 eq_refl) as [Hs Hb].
  destruct (stage_writes (length agents) 0 agents) as [ws through]. cbn [fst] in *.
  assert (Hmap : StronglySorted Z.le (map snd ws)).
  { clear Hb. induction Hs as [|w l _ IH Hall]; cbn [map]; constructor.
    - exact IH.
    - apply List.Forall_map. exact Hall. }
  assert (Hlow : Forall (fun v => pct 0 (length agents) <= v) (map snd ws)).
  { apply List.Forall_map. eapply List.Forall_impl; [|exact Hb]. cbn. intros w Hw. lia. }
  assert (Htop : pct 0 (length agents) <= 100).
  { etransitivity; [apply (pct_monotone _ 0 (length agents)); lia | apply pct_full]. }
  destruct through; [|split; assumption].
  rewrite List.map_app. cbn [map snd]. split.
  - clear Hs Hlow. induction ws as [|w l IH]; cbn [map app].
    + constructor; constructor.
    + inversion Hmap as [|? ? Hl Hw]; subst. inversion Hb as [|? ? Hw0 Hb0]; subst.
      constructor; [exact (IH Hb0 Hl)|].
      apply List.Forall_app. split; [exact Hw|]. constructor; [lia | constructor].
  - apply List.Forall_app. split; [exact Hlow|]. constructor; [exact Htop | constructor].
Qed.

Hypothesis pct_start : forall n, 0 <= pct 0 n.

Lemma run_writes_sorted saved agents :
  StronglySorted Z.le (map snd (run_writes pct ok saved agents)).
Proof using pct_monotone pct_full pct_start.
  destruct (progress_writes_sorted agents) as [Hs Hlow].
  destruct saved as [agent|]; cbn [run_writes map snd]; [|exact Hs].
  constructor; [exact Hs|].
  eapply List.Forall_impl; [|exact Hlow]. cbn. intros v Hv.
  pose proof (pct_start (length agents)). lia.
Qed.

End Run.

(** A write on an existing task is what the task then holds; on a missing
    task nothing is ever persisted. *)
Lemma persisted_values (db : Tasks.store) task_id ws :
  persisted db task_id ws
  = match db !! task_id with Some _ => map snd ws | None => [] end.
Proof.
  revert db. induction ws as [|[a v] ws IH]; intros db; cbn [persisted map snd].
  - destruct (db !! task_id); reflexivity.
  - unfold Tasks.update_task_progress.
    destruct (db !! task_id) as [t|] eqn:Hdb; cbn [snd].
    + rewrite lookup_insert_eq. cbn [Tasks.progress_percentage].
      rewrite IH, lookup_insert_eq. reflexivity.
    + rewrite Hdb, IH, Hdb. reflexivity.
Qed.

Lemma percent_start n : 0 <= percent 0 n.
Proof.
  unfold percent. destruct n as [|n]; [cbv; discriminate | apply Z.div_pos; lia].
Qed.

(** C9: within one run of the workflow (whatever the stages, whichever
    stage fails first, if any, and whether or not the task had a saved
    state) every progress value persisted for the task is at least every
    value persisted before it: the values are the percentage at the start
    and at the end of each stage reached, and 100 when the run goes
    through. *)
Theorem persisted_progress_never_decreases
      (db : Tasks.store) task_id saved agents (ok : nat -> bool) :
  StronglySorted Z.le
    (persisted db task_id (run_writes percent ok saved agents)).
Proof.
  rewrite persisted_values. destruct (db !! task_id); [|constructor].
  apply run_writes_sorted;
    [exact percent_monotone | exact percent_full | exact percent_start].
Qed.

End WorkflowFacts.

(** * Further properties of the modelled code *)

(** ** The invocation policy: what it returns and how often it runs *)

Module PolicyFacts.
Import Cli CliLog.

Lemma on_zero_exit_text out err t :
  on_zero_exit out err = Ret t -> PyStr.truthy t = true.
Proof.
  unfold on_zero_exit. destruct (PyStr.truthy out) eqn:Ho.
  - intros [= <-]. exact Ho.
  - destruct (PyStr.truthy err) eqn:He.
    + destruct (classify_error err); [discriminate|]. intros [= <-]. exact He.
    + intros [= <-]. reflexivity.
Qed.

Lemma on_zero_exit_never_next out err : on_zero_exit out err <> Next.
Proof.
  unfold on_zero_exit. destruct (PyStr.truthy out); [discriminate|].
  destruct (PyStr.truthy err); [|discriminate].
  destruct (classify_error err); discriminate.
Qed.

Lemma counts_app log1 log2 :
  primary_runs (log1 ++ log2) = primary_runs log1 + primary_runs log2
  /\ arg_runs (log1 ++ log2) = arg_runs log1 + arg_runs log2
  /\ sleeps (log1 ++ log2) = sleeps log1 + sleeps log2.
Proof.
  unfold primary_runs, arg_runs, sleeps.
  rewrite !List.filter_app, !List.length_app. auto.
Qed.

(** X2: [classify_error] finds a class exactly when the text, in lower case,
    holds one of the thirteen keywords; the class is that of the first
    list with a keyword in the text (quota, then unauthorized, then
    timeout), and the message is the text stripped. *)
Theorem classify_error_by_keyword s :
  let found ks := exists k, In k ks /\ PyStr.contains (PyStr.lower s) k = true in
  (classify_error s = None <->
     ~ found (quota_keys ++ unauthorized_keys ++ timeout_keys))
  /\ (found quota_keys ->
      classify_error s = Some (GeminiCLIError "quota_exceeded" (PyStr.strip s)))
  /\ (~ found quota_keys -> found unauthorized_keys ->
      classify_error s = Some (GeminiCLIError "unauthorized" (PyStr.strip s)))
  /\ (~ found quota_keys -> ~ found unauthorized_keys -> found timeout_keys ->
      classify_error s = Some (GeminiCLIError "timeout" (PyStr.strip s))).
Proof.
  intros found.
  assert (Hany : forall ks, PyStr.any_in (PyStr.lower s) ks = true <-> found ks).
  { intros ks. unfold PyStr.any_in. rewrite existsb_exists. reflexivity. }
  assert (Hempty : PyStr.truthy s = false -> forall ks,
             ~ In EmptyString ks -> ~ found ks).
  { intros Hs ks Hks (k & Hin & Hk). destruct s; [|discriminate Hs].
    destruct k; [exact (Hks Hin) | discriminate Hk]. }
  assert (Hq0 : ~ In EmptyString quota_keys)
    by (cbn; intros H; repeat (destruct H as [H | H]; [discriminate H|]); exact H).
  assert (Hu0 : ~ In EmptyString unauthorized_keys)
    by (cbn; intros H; repeat (destruct H as [H | H]; [discriminate H|]); exact H).
  assert (Ht0 : ~ In EmptyString timeout_keys)
    by (cbn; intros H; repeat (destruct H as [H | H]; [discriminate H|]); exact H).
  assert (Happ : found (quota_keys ++ unauthorized_keys ++ timeout_keys)
                 <-> found quota_keys \/ found unauthorized_keys \/ found timeout_keys).
  { unfold found. split.
    - intros (k & Hin & Hk). rewrite !List.in_app_iff in Hin.
      destruct Hin as [H | [H | H]]; eauto 6.
    - intros [(k & H & Hk) | [(k & H & Hk) | (k & H & Hk)]];
        exists k; rewrite !List.in_app_iff; auto. }
  unfold classify_error.
  destruct (PyStr.truthy s) eqn:Hs; cbn [negb].
  - destruct (PyStr.any_in (PyStr.lower s) quota_keys) eqn:Hq.
    { apply Hany in Hq. repeat split; try tauto; try discriminate;
        intros; tauto. }
    assert (Hnq : ~ found quota_keys) by (rewrite <- Hany, Hq; discriminate).
    destruct (PyStr.any_in (PyStr.lower s) unauthorized_keys) eqn:Hu.
    { apply Hany in Hu. repeat split; try tauto; try discriminate;
        intros; tauto. }
    assert (Hnu : ~ found unauthorized_keys) by (rewrite <- Hany, Hu; discriminate).
    destruct (PyStr.any_in (PyStr.lower s) timeout_keys) eqn:Ht.
    { apply Hany in Ht. repeat split; try tauto; try discriminate;
        intros; tauto. }
    assert (Hnt : ~ found timeout_keys) by (rewrite <- Hany, Ht; discriminate).
    repeat split; tauto.
  - pose proof (Hempty eq_refl _ Hq0). pose proof (Hempty eq_refl _ Hu0).
    pose proof (Hempty eq_refl _ Ht0). repeat split; tauto.
Qed.

Section Policy.
Context {E : Type} (time_now : E -> Q)
        (run_stdin : Z -> Z -> E -> outcome * E)
        (run_arg : Z -> E -> outcome * E)
        (sleep : Q -> E -> E)
        (get_agent_timeout_config : string -> timeout_config)
        (get_retry_delay : string -> Q).

Local Abbreviation arg_mode := (arg_mode E run_arg).
Local Abbreviation try_block :=
  (try_block E time_now run_stdin run_arg get_agent_timeout_config).
Local Abbreviation handle := (handle E sleep get_retry_delay).
Local Abbreviation attempts :=
  (attempts E time_now run_stdin run_arg sleep get_agent_timeout_config
            get_retry_delay).
Local Abbreviation execute :=
  (_execute_gemini_cli_command E time_now run_stdin run_arg sleep
     get_agent_timeout_config get_retry_delay).

Lemma arg_mode_text t0 e log t e1 log1 :
  arg_mode t0 e log = (Ret t, e1, log1) -> PyStr.truthy t = true.
Proof.
  unfold Cli.arg_mode. destruct (run_arg t0 e) as [[out err rc | x] e'].
  - destruct (rc =? 0)%Z.
    + destruct (on_zero_exit (PyStr.strip out) (PyStr.strip err)) eqn:Hz;
        intros [= <- _ _]. exact (on_zero_exit_text _ _ _ Hz).
    + destruct (classify_error (PyStr.strip err)); discriminate.
  - destruct x; discriminate.
Qed.

Lemma try_block_text b agent start attempt e log t e1 log1 :
  try_block b agent start attempt e log = (Ret t, e1, log1) ->
  PyStr.truthy t = true.
Proof.
  unfold Cli.try_block.
  destruct (Qle_bool _ _); [discriminate|].
  destruct (run_stdin _ _ e) as [[out err rc | x] e']; [|discriminate].
  destruct (rc =? 0)%Z.
  - destruct (on_zero_exit out err) eqn:Hz; intros [= <- _ _].
    exact (on_zero_exit_text _ _ _ Hz).
  - destruct (classify_error err); [discriminate|]. apply arg_mode_text.
Qed.


(** *** How many runs and sleeps *)

Lemma arg_mode_log t0 e log f e1 log1 :
  arg_mode t0 e log = (f, e1, log1) -> log1 = log ++ [EvArg t0].
Proof.
  unfold Cli.arg_mode. destruct (run_arg t0 e) as [[out err rc | x] e'].
  - destruct (rc =? 0)%Z.
    + destruct (on_zero_exit _ _); intros [= _ _ <-]; reflexivity.
    + destruct (classify_error _); intros [= _ _ <-]; reflexivity.
  - destruct x; intros [= _ _ <-]; reflexivity.
Qed.

Lemma try_block_log b agent start attempt e log f e1 log1 :
  try_block b agent start attempt e log = (f, e1, log1) ->
  exists added,
    log1 = log ++ added /\ primary_runs added <= 1
    /\ arg_runs added <= primary_runs added /\ sleeps added = 0.
Proof.
  unfold Cli.try_block.
  destruct (Qle_bool _ _).
  { intros [= _ _ <-]. exists []. rewrite List.app_nil_r. cbn. auto. }
  set (t0 := attempt_timeout b attempt _).
  set (i0 := idle_budget get_agent_timeout_config agent).
  destruct (run_stdin t0 i0 e) as [[out err rc | x] e'].
  - destruct (rc =? 0)%Z.
    + destruct (on_zero_exit out err); intros [= _ _ <-];
        exists [EvStdin t0 i0]; cbn; auto.
    + destruct (classify_error err).
      * intros [= _ _ <-]. exists [EvStdin t0 i0]. cbn. auto.
      * intros H. apply arg_mode_log in H. subst log1.
        exists [EvStdin t0 i0; EvArg t0]. rewrite <- List.app_assoc. cbn. auto.
  - intros [= _ _ <-]. exists [EvStdin t0 i0]. cbn. auto.
Qed.

Lemma handle_log b attempt x e log e2 log2 :
  handle b attempt x e log = inr (e2, log2) ->
  (attempt < max_retries b)%Z
  /\ exists d, log2 = log ++ [EvSleep d].
Proof.
  unfold Cli.handle. destruct x as [code msg | t | el cap | d].
  - destruct (no_retry_code code); cbn [orb]; [discriminate|].
    destruct (max_retries b <=? attempt)%Z eqn:Hle; [discriminate|].
    intros [= _ <-]. split; [lia | eauto].
  - destruct (attempt <? max_retries b)%Z eqn:Hlt; [|discriminate].
    intros [= _ <-]. split; [lia | eauto].
  - destruct (attempt <? max_retries b)%Z eqn:Hlt; [|discriminate].
    intros [= _ <-]. split; [lia | eauto].
  - destruct (attempt <? max_retries b)%Z eqn:Hlt; [|discriminate].
    intros [= _ <-]. split; [lia | eauto].
Qed.

Lemma attempts_log b agent start n :
  forall attempt last e log r e1 log1,
    (attempt + Z.of_nat n = max_retries b + 1)%Z ->
    attempts b agent start n attempt last e log = (r, e1, log1) ->
    exists added,
      log1 = log ++ added /\ primary_runs added <= n
      /\ arg_runs added <= primary_runs added /\ sleeps added <= Nat.pred n.
Proof.
  induction n as [|n IH]; intros attempt last e log r e1 log1 Hidx H;
    cbn [Cli.attempts] in H.
  - injection H as _ _ <-. exists []. rewrite List.app_nil_r. cbn. auto.
  - destruct (try_block b agent start attempt e log) as [[f e'] log'] eqn:Ht.
    destruct (try_block_log _ _ _ _ _ _ _ _ _ Ht) as (a1 & -> & Hp1 & Ha1 & Hs1).
    assert (Hnext : forall last' e2 log2 a2,
               log2 = (log ++ a1) ++ a2 -> primary_runs a2 = 0 -> arg_runs a2 = 0 ->
               sleeps a2 <= 1 -> (sleeps a2 = 1 -> (attempt < max_retries b)%Z) ->
               attempts b agent start n (attempt + 1)%Z last' e2 log2 = (r, e1, log1) ->
               exists added,
                 log1 = log ++ added /\ primary_runs added <= S n
                 /\ arg_runs added <= primary_runs added /\ sleeps added <= n).
    { intros last' e2 log2 a2 -> Hp2 Ha2 Hs2 Hlt Hrec.
      assert (Hidx' : (attempt + 1 + Z.of_nat n = max_retries b + 1)%Z) by lia.
      destruct (IH _ _ _ _ _ _ _ Hidx' Hrec) as (a3 & -> & Hp3 & Ha3 & Hs3).
      exists ((a1 ++ a2) ++ a3).
      destruct (counts_app (a1 ++ a2) a3) as (Hc1 & Hc2 & Hc3).
      destruct (counts_app a1 a2) as (Hd1 & Hd2 & Hd3).
      rewrite Hc1, Hc2, Hc3, Hd1, Hd2, Hd3.
      split; [rewrite !List.app_assoc; reflexivity|].
      repeat split; lia. }
    destruct f as [t | x | ].
    + injection H as _ _ <-. exists a1. split; [reflexivity|]. lia.
    + destruct (handle b attempt x e' (log ++ a1)) as [y | [e2 log2]] eqn:Hh.
      * injection H as _ _ <-. exists a1. split; [reflexivity|]. lia.
      * destruct (handle_log _ _ _ _ _ _ _ Hh) as (Hlt & d & ->).
        apply (Hnext (Some x) e2 ((log ++ a1) ++ [EvSleep d]) [EvSleep d]);
          cbn; auto.
    + apply (Hnext last e' (log ++ a1) []); cbn; auto; try lia.
      rewrite List.app_nil_r. reflexivity.
Qed.

(** X3: One call of the policy starts the tool in primary mode at most
    [max_retries + 1] times, in argument mode at most once per primary
    run, and sleeps at most [max_retries] times, whatever the tool
    answers. *)
Theorem runs_and_sleeps_are_bounded max_retries_arg agent e :
  let b := compute_budgets get_agent_timeout_config max_retries_arg agent in
  let log := snd (execute max_retries_arg agent e) in
  primary_runs log <= Z.to_nat (max_retries b + 1)
  /\ arg_runs log <= primary_runs log
  /\ sleeps log <= Z.to_nat (max_retries b).
Proof.
  intros b log. subst log. unfold Cli._execute_gemini_cli_command. fold b.
  destruct (attempts b agent (time_now e) (Z.to_nat (max_retries b + 1)) 0 None e [])
    as [[r e1] log1] eqn:H. cbn [snd].
  destruct (Z_lt_le_dec (max_retries b + 1) 0) as [Hneg | Hpos].
  - replace (Z.to_nat (max_retries b + 1)) with 0%nat in H by lia.
    cbn in H. injection H as _ _ <-. cbn. lia.
  - assert (Hidx : (0 + Z.of_nat (Z.to_nat (max_retries b + 1))
                    = max_retries b + 1)%Z) by lia.
    destruct (attempts_log b agent (time_now e) _ 0%Z None e [] r e1 log1
                Hidx H) as (a & -> & Hp & Ha & Hs).
    cbn [app]. repeat split; lia.
Qed.

(** *** Failures the policy swallows, and time-outs *)

(** X4: When, attempt after attempt, the primary mode exits non-zero with
    diagnostics that do not classify and the argument mode fails
    without a class too, the policy goes from one attempt to the next
    without sleeping and without keeping the error: it ends by raising
    the last error it had recorded before, or "unknown" when there is
    none. *)
Theorem swallowed_failures_end_as_unknown (Inv : E -> Prop) b agent start :
  (forall e, Inv e ->
     Qle_bool (inject_Z (overall_cap b)) (time_now e - start) = false) ->
  (forall t i e, Inv e ->
     exists o e1, run_stdin t i e = (o, e1) /\ unclassified o
                  /\ (exists out err rc, o = Completed out err rc) /\ Inv e1) ->
  (forall t e, Inv e ->
     exists o e1, run_arg t e = (o, e1) /\ unclassified o /\ Inv e1) ->
  forall n attempt last e log, Inv e ->
    exists e1 log1,
      attempts b agent start n attempt last e log
      = (Raise (default (GeminiCLIError "unknown" "Unknown error occurred") last),
         e1, log ++ log1)
      /\ primary_runs log1 = n /\ arg_runs log1 = n /\ sleeps log1 = 0.
Proof.
  intros Hcap Hprim Harg. induction n as [|n IH]; intros attempt last e log He;
    cbn [Cli.attempts].
  - exists e, []. rewrite List.app_nil_r. cbn. auto.
  - assert (Htry : exists e2 t0 i0,
               try_block b agent start attempt e log
               = (Next, e2, log ++ [EvStdin t0 i0; EvArg t0]) /\ Inv e2).
    { unfold Cli.try_block. rewrite (Hcap e He).
      set (t0 := attempt_timeout b attempt _).
      set (i0 := idle_budget get_agent_timeout_config agent).
      destruct (Hprim t0 i0 e He) as (o & e1 & -> & Hu & (out & err & rc & ->) & He1).
      cbn [unclassified] in Hu. destruct Hu as (Hrc & Hc & _).
      apply Z.eqb_neq in Hrc. rewrite Hrc, Hc.
      unfold Cli.arg_mode.
      destruct (Harg t0 e1 He1) as (o2 & e2 & -> & Hu2 & He2).
      exists e2, t0, i0. split; [|exact He2].
      rewrite <- List.app_assoc. cbn [app].
      destruct o2 as [out2 err2 rc2 | x].
      - cbn [unclassified] in Hu2. destruct Hu2 as (Hrc2 & _ & Hc2).
        apply Z.eqb_neq in Hrc2. rewrite Hrc2, Hc2. reflexivity.
      - destruct x; [destruct Hu2 | | | ]; reflexivity. }
    destruct Htry as (e2 & t0 & i0 & -> & He2).
    destruct (IH (attempt + 1)%Z last e2 (log ++ [EvStdin t0 i0; EvArg t0]) He2)
      as (e3 & log3 & -> & Hp & Ha & Hs).
    exists e3, ([EvStdin t0 i0; EvArg t0] ++ log3).
    rewrite <- List.app_assoc. split; [reflexivity|].
    destruct (counts_app [EvStdin t0 i0; EvArg t0] log3) as (-> & -> & ->).
    cbn. lia.
Qed.

(** X5: When the primary mode times out at every attempt, the policy sleeps
    the "timeout" delay between attempts, never tries the argument
    mode, and after the last attempt raises [GeminiCLIError] with code
    "timeout" in place of the runner's exception. *)
Theorem repeated_timeouts_end_as_timeout_error (Inv : E -> Prop) b agent start :
  (forall e, Inv e ->
     Qle_bool (inject_Z (overall_cap b)) (time_now e - start) = false) ->
  (forall t i e, Inv e ->
     exists t' e1, run_stdin t i e = (Raised (TimeoutExpired t'), e1) /\ Inv e1) ->
  (forall d e, Inv e -> Inv (sleep d e)) ->
  forall n attempt last e log, Inv e ->
    (attempt + Z.of_nat (S n) = max_retries b + 1)%Z ->
    exists e1 log1,
      attempts b agent start (S n) attempt last e log
      = (Raise (GeminiCLIError "timeout"
                  "Gemini CLI command timed out after all retry attempts"),
         e1, log ++ log1)
      /\ primary_runs log1 = S n /\ arg_runs log1 = 0 /\ sleeps log1 = n.
Proof.
  intros Hcap Hprim Hsleep. induction n as [|n IH]; intros attempt last e log He Hidx.
  - cbn [Cli.attempts]. unfold Cli.try_block. rewrite (Hcap e He).
    set (t0 := attempt_timeout b attempt _).
    set (i0 := idle_budget get_agent_timeout_config agent).
    destruct (Hprim t0 i0 e He) as (t' & e1 & -> & He1).
    unfold Cli.handle.
    replace (attempt <? max_retries b)%Z with false by (symmetry; apply Z.ltb_ge; lia).
    exists e1, [EvStdin t0 i0]. cbn. auto.
  - remember (S n) as m eqn:Hm.
    cbn [Cli.attempts]. unfold Cli.try_block. rewrite (Hcap e He).
    set (t0 := attempt_timeout b attempt _).
    set (i0 := idle_budget get_agent_timeout_config agent).
    destruct (Hprim t0 i0 e He) as (t' & e1 & -> & He1).
    unfold Cli.handle.
    replace (attempt <? max_retries b)%Z with true by (symmetry; apply Z.ltb_lt; lia).
    set (d := get_retry_delay "timeout").
    subst m.
    destruct (IH (attempt + 1)%Z (Some (TimeoutExpired t')) (sleep d e1)
                 ((log ++ [EvStdin t0 i0]) ++ [EvSleep d])
                 (Hsleep d e1 He1) ltac:(lia))
      as (e3 & log3 & -> & Hp & Ha & Hs).
    exists e3, ([EvStdin t0 i0; EvSleep d] ++ log3).
    rewrite <- !List.app_assoc. split; [reflexivity|].
    destruct (counts_app [EvStdin t0 i0; EvSleep d] log3) as (-> & -> & ->).
    cbn. lia.
Qed.

(** X24: Once the overall cap is exceeded no run of the tool starts any
    more: every remaining attempt raises at once, the policy still
    sleeps between the attempts, and it ends by raising the
    overall-timeout exception of the last attempt. *)
Theorem past_the_overall_cap_no_run_starts (Inv : E -> Prop) b agent start :
  (forall e, Inv e ->
     Qle_bool (inject_Z (overall_cap b)) (time_now e - start) = true) ->
  (forall d e, Inv e -> Inv (sleep d e)) ->
  forall n attempt last e log, Inv e ->
    (attempt + Z.of_nat (S n) = max_retries b + 1)%Z ->
    exists e1 log1 elapsed,
      attempts b agent start (S n) attempt last e log
      = (Raise (OverallTimeoutExceeded elapsed (overall_cap b)), e1, log ++ log1)
      /\ primary_runs log1 = 0 /\ arg_runs log1 = 0 /\ sleeps log1 = n.
Proof.
  intros Hcap Hsleep. induction n as [|n IH]; intros attempt last e log He Hidx.
  - cbn [Cli.attempts]. unfold Cli.try_block. rewrite (Hcap e He).
    unfold Cli.handle.
    replace (attempt <? max_retries b)%Z with false by (symmetry; apply Z.ltb_ge; lia).
    exists e, [], (py_int (time_now e - start)). rewrite List.app_nil_r. cbn. auto.
  - remember (S n) as m eqn:Hm.
    cbn [Cli.attempts]. unfold Cli.try_block. rewrite (Hcap e He).
    unfold Cli.handle.
    replace (attempt <? max_retries b)%Z with true by (symmetry; apply Z.ltb_lt; lia).
    set (d := get_retry_delay "error").
    set (x := OverallTimeoutExceeded (py_int (time_now e - start)) (overall_cap b)).
    subst m.
    assert (Hidx' : (attempt + 1 + Z.of_nat (S n) = max_retries b + 1)%Z) by lia.
    destruct (IH (attempt + 1)%Z (Some x) (sleep d e) (log ++ [EvSleep d])
                 (Hsleep d e He) Hidx')
      as (e3 & log3 & elapsed & -> & Hp & Ha & Hs).
    exists e3, ([EvSleep d] ++ log3), elapsed.
    rewrite <- !List.app_assoc. split; [reflexivity|].
    destruct (counts_app [EvSleep d] log3) as (-> & -> & ->).
    cbn. lia.
Qed.

End Policy.

End PolicyFacts.


(** A tool that crashes at every run, in both modes: three primary runs,
    three argument-mode runs, no sleep, and the "unknown" error. *)
Lemma swallowed_failures_witness :
  exists e1 log1,
    Cli.attempts Q CliLog.steady_now (CliLog.steady_stdin CliLog.crash)
      (CliLog.steady_arg CliLog.crash) CliLog.steady_sleep
      CliScript.no_config CliScript.retry_delay
      (Cli.compute_budgets CliScript.no_config 2 "") "" 0%Q 3 0%Z None 0%Q []
    = (Cli.Raise (default (Cli.GeminiCLIError "unknown" "Unknown error occurred") None),
       e1, [] ++ log1)
    /\ CliLog.primary_runs log1 = 3 /\ CliLog.arg_runs log1 = 3
    /\ CliLog.sleeps log1 = 0.
Proof.
  apply (PolicyFacts.swallowed_failures_end_as_unknown
           CliLog.steady_now (CliLog.steady_stdin CliLog.crash)
           (CliLog.steady_arg CliLog.crash) CliLog.steady_sleep
           CliScript.no_config CliScript.retry_delay
           (fun c : Q => c = 0%Q)
           (Cli.compute_budgets CliScript.no_config 2 "") "" 0%Q).
  - intros e ->. reflexivity.
  - intros t i e ->. exists CliLog.crash, 0%Q.
    split; [reflexivity|]. split; [|split; [|reflexivity]].
    + split; [discriminate|]. split; reflexivity.
    + exists "", "segmentation fault", 1%Z. reflexivity.
  - intros t e ->. exists CliLog.crash, 0%Q.
    split; [reflexivity|]. split; [|reflexivity].
    split; [discriminate|]. split; reflexivity.
  - reflexivity.
Defined.

(** A tool that hangs at every primary run: three runs, two sleeps, no
    argument-mode run, and the "timeout" error. *)
Lemma repeated_timeouts_witness :
  exists e1 log1,
    Cli.attempts Q CliLog.steady_now (CliLog.steady_stdin CliLog.hang)
      (CliLog.steady_arg CliLog.crash) CliLog.steady_sleep
      CliScript.no_config CliScript.retry_delay
      (Cli.compute_budgets CliScript.no_config 2 "") "" 0%Q 3 0%Z None 0%Q []
    = (Cli.Raise (Cli.GeminiCLIError "timeout"
                    "Gemini CLI command timed out after all retry attempts"),
       e1, [] ++ log1)
    /\ CliLog.primary_runs log1 = 3 /\ CliLog.arg_runs log1 = 0
    /\ CliLog.sleeps log1 = 2.
Proof.
  apply (PolicyFacts.repeated_timeouts_end_as_timeout_error
           CliLog.steady_now (CliLog.steady_stdin CliLog.hang)
           (CliLog.steady_arg CliLog.crash) CliLog.steady_sleep
           CliScript.no_config CliScript.retry_delay
           (fun c : Q => c = 0%Q)
           (Cli.compute_budgets CliScript.no_config 2 "") "" 0%Q).
  - intros e ->. reflexivity.
  - intros t i e ->. exists 300%Z, 0%Q. split; reflexivity.
  - intros d e ->. reflexivity.
  - reflexivity.
  - reflexivity.
Defined.

(** Diagnostics naming both a quota and an authorisation problem are a
    quota error. *)
Lemma classify_error_witness :
  Cli.classify_error "Quota hit; status: 401"
  = Some (Cli.GeminiCLIError "quota_exceeded" (PyStr.strip "Quota hit; status: 401")).
Proof.
  apply (proj1 (proj2 (PolicyFacts.classify_error_by_keyword "Quota hit; status: 401"))).
  exists "quota". split; [cbn; auto | reflexivity].
Defined.

Module RunnerMore.
Import Cli Runner RunnerTrace.

Section Run.
Context {W : Type} (time_now : W -> Q)
        (send_input : string -> W -> option exn * W)
        (poll : W -> option Z)
        (select : list stream -> W -> list stream * W)
        (readline : stream -> W -> string * W)
        (kill : W -> W).

Local Abbreviation read_event := (read_event W time_now readline).
Local Abbreviation read_events := (read_events W time_now readline).
Local Abbreviation loop_pass := (loop_pass W time_now poll select readline kill).
Local Abbreviation read_loop := (read_loop W time_now poll select readline kill).
Local Abbreviation finally_ := (finally_ W poll kill).
Local Abbreviation run :=
  (_run_cli_with_streaming W time_now send_input poll select readline kill).
Local Abbreviation quiet := (quiet W send_input select readline).

Lemma quiet_trans w1 w2 w3 : quiet w1 w2 -> quiet w2 w3 -> quiet w1 w3.
Proof.
  induction 1; intros H3; [exact H3 | | | ].
  - eapply quiet_send; eauto.
  - eapply quiet_select; eauto.
  - eapply quiet_readline; eauto.
Qed.

Lemma read_events_quiet events :
  forall st w st1 w1,
    read_events events st w = (st1, w1) -> quiet w w1.
Proof.
  induction events as [|s rest IH]; intros st w st1 w1 H; cbn in H.
  - injection H as _ <-. constructor.
  - destruct (read_event s st w) as [st2 w2] eqn:He.
    apply IH in H. apply (quiet_readline _ _ _ _ s). 
    unfold Runner.read_event in He.
    destruct (readline s w) as [data w3]. cbn [snd].
    destruct (negb (PyStr.truthy data)); injection He as _ <-; exact H.
Qed.

Lemma read_loop_outcome fuel t i :
  forall st w o w',
    read_loop fuel t i st w = Some (o, w') ->
    match o with
    | Completed out err rc => poll w' = Some rc /\ quiet w w'
    | Raised x =>
        (x = TimeoutExpired t \/ x = TimeoutExpired i)
        /\ exists w1, quiet w w1 /\ w' = finally_ (kill w1)
    end.
Proof.
  induction fuel as [|fuel IH]; intros st w o w' H; [discriminate H|].
  cbn [Runner.read_loop] in H.
  destruct (loop_pass t i st w) as [x w1 | st1 w1 | st1 w1] eqn:Hp.
  - injection H as <- <-. unfold Runner.loop_pass in Hp.
    destruct (Qgtb _ _).
    { injection Hp as <- <-. split; [auto|]. exists w. split; [constructor | reflexivity]. }
    destruct (Qgtb _ _).
    { injection Hp as <- <-. split; [auto|]. exists w. split; [constructor | reflexivity]. }
    destruct (poll w) as [rc|]; [destruct (registered st)|];
      try discriminate Hp;
      destruct (select _ w) as [ev w2]; destruct (read_events ev st w2);
      discriminate Hp.
  - injection H as <- <-. unfold Runner.loop_pass in Hp.
    destruct (Qgtb _ _); [discriminate Hp|].
    destruct (Qgtb _ _); [discriminate Hp|].
    destruct (poll w) as [rc|] eqn:Hpoll; [destruct (registered st)|].
    + injection Hp as <- <-. unfold Runner.finally_. rewrite Hpoll.
      cbn [default from_option id]. split; [exact Hpoll | constructor].
    + destruct (select _ w) as [ev w2]; destruct (read_events ev st w2);
        discriminate Hp.
    + destruct (select _ w) as [ev w2]; destruct (read_events ev st w2);
        discriminate Hp.
  - assert (Hq : quiet w w1).
    { unfold Runner.loop_pass in Hp.
      destruct (Qgtb _ _); [discriminate Hp|].
      destruct (Qgtb _ _); [discriminate Hp|].
      assert (Hsel : forall regs,
                 (let '(events, w2) := select regs w in
                  let '(st2, w3) := read_events events st w2 in
                  Continue W st2 w3) = Continue W st1 w1 -> quiet w w1).
      { intros regs Hc. destruct (select regs w) as [ev w2] eqn:Hs.
        destruct (read_events ev st w2) as [st2 w3] eqn:Hr.
        injection Hc as _ <-. apply (quiet_select _ _ _ _ regs).
        rewrite Hs. cbn [snd]. exact (read_events_quiet _ _ _ _ _ Hr). }
      destruct (poll w); [destruct (registered st) eqn:Hregs|].
      - discriminate Hp.
      - apply (Hsel _ Hp).
      - apply (Hsel _ Hp). }
    apply IH in H. destruct o as [out err rc | x].
    + destruct H as [Hrc Hq']. split; [exact Hrc | exact (quiet_trans _ _ _ Hq Hq')].
    + destruct H as [Hx (w2 & Hq' & ->)]. split; [exact Hx|].
      exists w2. split; [exact (quiet_trans _ _ _ Hq Hq') | reflexivity].
Qed.


End Run.

End RunnerMore.


Module MarkerFacts.
Import Marker MarkerLines.

Lemma startswith_first_line p :
  PyStr.occurs (ascii_of_nat 10) p = false ->
  forall content,
    PyStr.startswith content p = PyStr.startswith (hd EmptyString (readlines content)) p.
Proof.
  induction p as [|a p IH]; intros Hp content.
  - destruct (hd EmptyString (readlines content)), content; reflexivity.
  - cbn [PyStr.occurs] in Hp. apply orb_false_iff in Hp. destruct Hp as [Ha Hp].
    destruct content as [|b rest]; [reflexivity|].
    cbn [readlines]. unfold is_newline.
    destruct (Ascii.eqb b (ascii_of_nat 10)) eqn:Hb.
    + apply Ascii.eqb_eq in Hb. subst b. cbn [hd PyStr.startswith].
      rewrite Ascii.eqb_sym in Ha. rewrite Ha. reflexivity.
    + assert (Hhd : hd EmptyString
                      match readlines rest with
                      | [] => [String b EmptyString]
                      | l :: ls => String b l :: ls
                      end
                    = String b (hd EmptyString (readlines rest))).
      { destruct (readlines rest); reflexivity. }
      rewrite Hhd. cbn [PyStr.startswith]. rewrite (IH Hp rest). reflexivity.
Qed.

Lemma is_open_first_line content :
  PyStr.startswith content open_item
  = is_open_line (hd EmptyString (readlines content)).
Proof. apply startswith_first_line. reflexivity. Qed.

Lemma count_from_lines content :
  count_from true content = open_lines (readlines content)
  /\ count_from false content = open_lines (tl (readlines content)).
Proof.
  induction content as [|c rest [IHt IHf]]; [split; reflexivity|].
  cbn [count_from andb]. rewrite is_open_first_line.
  cbn [readlines]. destruct (is_newline c) eqn:Hc.
  - cbn [hd tl]. rewrite IHt. split; [|reflexivity].
    unfold open_lines. cbn [List.filter].
    destruct (is_open_line (String c EmptyString)); reflexivity.
  - rewrite IHf.
    destruct (readlines rest) as [|l ls]; cbn [hd tl]; unfold open_lines;
      cbn [List.filter]; split; try reflexivity;
      match goal with
      | |- context [is_open_line ?x] => destruct (is_open_line x); reflexivity
      end.
Qed.

(** X7: The counter of open items, which scans the whole text for the token
    at the start of the text or after a line feed, counts the lines that
    begin with the token. *)
Theorem count_open_is_the_number_of_open_lines content :
  count_open (Content content)
  = length (List.filter is_open_line (readlines content)).
Proof. exact (proj1 (count_from_lines content)). Qed.

Lemma first_match_spec lines :
  forall idx,
    match first_match idx lines with
    | None => open_lines lines = 0
    | Some i =>
        idx <= i < idx + length lines
        /\ (exists line, nth_error lines (i - idx) = Some line
                         /\ is_open_line line = true)
        /\ open_lines (firstn (i - idx) lines) = 0
        /\ open_lines lines <> 0
    end.
Proof.
  induction lines as [|l ls IH]; intros idx; cbn [first_match]; [reflexivity|].
  destruct (is_open_line l) eqn:Hl.
  - replace (idx - idx) with 0 by lia. cbn [length nth_error firstn].
    split; [lia|]. split; [eauto|]. split; [reflexivity|].
    unfold open_lines. cbn [List.filter]. rewrite Hl. discriminate.
  - specialize (IH (S idx)). destruct (first_match (S idx) ls) as [i|].
    + destruct IH as (Hi & (line & Hn & Ho) & Hbefore & Hsome).
      replace (i - idx) with (S (i - S idx)) by lia.
      cbn [length nth_error firstn].
      split; [lia|]. split; [eauto|].
      unfold open_lines in *. cbn [List.filter]. rewrite Hl. auto.
    + unfold open_lines in *. cbn [List.filter]. rewrite Hl. exact IH.
Qed.

(** X8: On a readable test list the index handed to the tester is defined
    exactly when the counter finds open tests; it is then the 1-based
    number of a line that begins with the token, and no earlier line
    does. *)
Theorem first_pending_index_agrees_with_count content :
  match _first_pending_test_index (Content content) with
  | None => count_open (Content content) = 0
  | Some i =>
      count_open (Content content) <> 0
      /\ 1 <= i <= length (readlines content)
      /\ (exists line, nth_error (readlines content) (i - 1) = Some line
                       /\ is_open_line line = true)
      /\ List.filter is_open_line (firstn (i - 1) (readlines content)) = []
  end.
Proof.
  cbn [_first_pending_test_index]. rewrite count_open_is_the_number_of_open_lines.
  pose proof (first_match_spec (readlines content) 1) as H.
  destruct (first_match 1 (readlines content)) as [i|]; [|exact H].
  destruct H as (Hi & Hline & Hbefore & Hsome).
  split; [exact Hsome|]. split; [lia|]. split; [exact Hline|].
  apply List.length_zero_iff_nil. exact Hbefore.
Qed.

End MarkerFacts.

Module BuilderMore.

Section Phases.
Context {P : Type} (tasks_list test_list : P -> Marker.file_read)
        (generate : Builder.prompt -> P -> Builder.response * P)
        (write_code_tree : P -> P).

Local Abbreviation count_tasks := (Builder._count_open_subtasks P tasks_list).
Local Abbreviation count_tests := (Builder._count_open_tests P test_list).
Local Abbreviation developer_loop := (Builder.developer_loop P tasks_list generate).
Local Abbreviation developer_finish := (Builder.developer_finish P tasks_list generate).
Local Abbreviation developer_prelude :=
  (Builder.developer_prelude P tasks_list generate write_code_tree).
Local Abbreviation developer :=
  (Builder._execute_developer_phase P tasks_list generate write_code_tree).
Local Abbreviation tester_loop := (Builder.tester_loop P test_list generate).
Local Abbreviation tester_prelude :=
  (Builder.tester_prelude P generate write_code_tree).
Local Abbreviation tester :=
  (Builder._execute_tester_phase P test_list generate write_code_tree).

(** *** How often the tool is invoked *)

Lemma developer_loop_invocations n :
  forall st p log x p' log',
    developer_loop n st p log = (x, p', log') ->
    exists added, log' = log ++ added /\ length added <= n.
Proof.
  induction n as [|n IH]; intros st p log x p' log' H; cbn [Builder.developer_loop] in H.
  - injection H as _ _ <-. exists []. rewrite List.app_nil_r. auto.
  - destruct (Nat.eqb (count_tasks p) 0).
    { injection H as _ _ <-. exists []. rewrite List.app_nil_r. cbn. split; [auto|lia]. }
    destruct (generate Builder.ContinueDeveloper p) as [[t | d] p1].
    + destruct (Builder.is_error_text t).
      * injection H as _ _ <-. exists [Builder.ContinueDeveloper]. cbn. split; [auto|lia].
      * apply IH in H. destruct H as (added & -> & Hlen).
        exists (Builder.ContinueDeveloper :: added).
        rewrite <- List.app_assoc. cbn. split; [auto|lia].
    + injection H as _ _ <-. exists [Builder.ContinueDeveloper]. cbn. split; [auto|lia].
Qed.

Lemma tester_loop_invocations n :
  forall p log x p' log',
    tester_loop n p log = (x, p', log') ->
    exists added, log' = log ++ added /\ length added <= n.
Proof.
  induction n as [|n IH]; intros p log x p' log' H; cbn [Builder.tester_loop] in H.
  - injection H as _ _ <-. exists []. rewrite List.app_nil_r. auto.
  - destruct (Nat.eqb (count_tests p) 0).
    { injection H as _ _ <-. exists []. rewrite List.app_nil_r. cbn. split; [auto|lia]. }
    destruct (generate Builder.RunTests p) as [[t | d] p1].
    + apply IH in H. destruct H as (added & -> & Hlen).
      exists (Builder.RunTests :: added).
      rewrite <- List.app_assoc. cbn. split; [auto|lia].
    + injection H as _ _ <-. exists [Builder.RunTests]. cbn. split; [auto|lia].
Qed.

Lemma developer_prelude_invocations p :
  length (snd (developer_prelude p)) <= 3.
Proof.
  unfold Builder.developer_prelude.
  destruct (generate _ p) as [[t | d] p1]; cbn [snd length app]; [|lia].
  destruct (generate _ (write_code_tree p1)) as [[t2 | d] p3]; cbn [snd length app]; [|lia].
  destruct (Builder.is_error_text t2); cbn [snd length app]; [lia|].
  destruct (generate _ p3) as [[t3 | d] p4]; cbn [snd length app]; lia.
Qed.

Lemma tester_prelude_invocations p :
  length (snd (tester_prelude p)) <= 2.
Proof.
  unfold Builder.tester_prelude.
  destruct (generate _ p) as [[t | d] p1]; cbn [snd length app]; [|lia].
  destruct (Builder.is_error_text t); cbn [snd length app]; [lia|].
  destruct (generate _ (write_code_tree p1)) as [[t2 | d] p3]; cbn [snd length app]; [|lia].
  destruct (Builder.is_error_text t2); cbn [snd length app]; lia.
Qed.

(** X9: Whatever the tool answers and whatever the checklists hold, the
    developer stage invokes the tool at most 14 times (three opening
    prompts, ten continuations, one final attempt) and the tester stage
    at most 32 times (two opening prompts, thirty test runs). *)
Theorem stages_invoke_the_tool_a_bounded_number_of_times p :
  length (snd (developer p)) <= 14 /\ length (snd (tester p)) <= 32.
Proof.
  split.
  - unfold Builder._execute_developer_phase.
    pose proof (developer_prelude_invocations p) as Hpre.
    destruct (developer_prelude p) as [[[r | []] p1] log1]; cbn [snd] in *; [lia|].
    destruct (developer_loop Builder.dev_max_iterations Builder.dev_init p1 log1)
      as [[x p2] log2] eqn:Hloop.
    destruct (developer_loop_invocations _ _ _ _ _ _ _ Hloop) as (added & -> & Hlen).
    unfold Builder.dev_max_iterations in Hlen.
    destruct x as [r | st | d]; cbn [snd]; try (rewrite List.length_app; lia).
    unfold Builder.developer_finish.
    destruct (Nat.eqb _ 0); cbn [snd]; [rewrite List.length_app; lia|].
    destruct (generate _ p2) as [[t | d] p3]; cbn [snd].
    + destruct (Nat.eqb _ 0); cbn [snd]; rewrite !List.length_app; cbn; lia.
    + rewrite !List.length_app; cbn; lia.
  - unfold Builder._execute_tester_phase.
    pose proof (tester_prelude_invocations p) as Hpre.
    destruct (tester_prelude p) as [[[r | []] p1] log1]; cbn [snd] in *; [lia|].
    destruct (tester_loop Builder.test_max_iterations p1 log1)
      as [[x p2] log2] eqn:Hloop.
    destruct (tester_loop_invocations _ _ _ _ _ _ Hloop) as (added & -> & Hlen).
    unfold Builder.test_max_iterations in Hlen.
    destruct x as [ | d]; [unfold Builder.tester_finish|]; cbn [snd];
      rewrite List.length_app; lia.
Qed.

(** *** The count a stage reports *)

Lemma developer_loop_remaining n :
  forall st p log r p' log',
    developer_loop n st p log = (Builder.DevReturned r, p', log') ->
    Builder.remaining r = Some (count_tasks p').
Proof.
  induction n as [|n IH]; intros st p log r p' log' H; cbn [Builder.developer_loop] in H.
  - discriminate H.
  - destruct (Nat.eqb (count_tasks p) 0) eqn:Hz.
    { injection H as <- <- _. apply Nat.eqb_eq in Hz. cbn. rewrite Hz. reflexivity. }
    destruct (generate Builder.ContinueDeveloper p) as [[t | d] p1]; [|discriminate H].
    destruct (Builder.is_error_text t); [discriminate H|].
    exact (IH _ _ _ _ _ _ H).
Qed.

(** X10: Whenever the result of the developer or the tester stage carries a
    remaining count, that count is the number of open items in the
    stage's checklist as the stage leaves the project; the tester's
    result carries one unless its status is "error". *)
Theorem reported_remaining_is_the_final_count p r p' log :
  (developer p = (r, p', log) ->
   forall k, Builder.remaining r = Some k -> k = count_tasks p')
  /\
  (tester p = (r, p', log) ->
   (forall k, Builder.remaining r = Some k -> k = count_tests p')
   /\ (Builder.status r <> "error" ->
       Builder.remaining r = Some (count_tests p'))).
Proof.
  split.
  - unfold Builder._execute_developer_phase.
    destruct (developer_prelude p) as [[[r0 | []] p1] log1] eqn:Hpre.
    + intros [= <- <- _] k Hk. unfold Builder.developer_prelude in Hpre.
      destruct (generate _ p) as [[t | d] p2].
      2:{ injection Hpre as <- _ _. discriminate Hk. }
      destruct (generate _ (write_code_tree p2)) as [[t2 | d] p3].
      2:{ injection Hpre as <- _ _. discriminate Hk. }
      destruct (Builder.is_error_text t2).
      * injection Hpre as <- <- _. cbn in Hk. congruence.
      * destruct (generate _ p3) as [[t3 | d] p4]; [discriminate Hpre|].
        injection Hpre as <- _ _. discriminate Hk.
    + destruct (developer_loop Builder.dev_max_iterations Builder.dev_init p1 log1)
        as [[x p2] log2] eqn:Hloop.
      destruct x as [r1 | st | d].
      * intros [= <- <- _] k Hk.
        rewrite (developer_loop_remaining _ _ _ _ _ _ _ Hloop) in Hk. congruence.
      * unfold Builder.developer_finish.
        destruct (Nat.eqb (count_tasks p2) 0) eqn:Hz.
        { intros [= <- <- _] k Hk. apply Nat.eqb_eq in Hz. cbn in Hk. congruence. }
        destruct (generate _ p2) as [[t | d] p3].
        -- destruct (Nat.eqb (count_tasks p3) 0) eqn:Hz3;
             intros [= <- <- _] k Hk; cbn in Hk; [|congruence].
           apply Nat.eqb_eq in Hz3. congruence.
        -- intros [= <- <- _] k Hk. discriminate Hk.
      * intros [= <- <- _] k Hk. discriminate Hk.
  - unfold Builder._execute_tester_phase.
    destruct (tester_prelude p) as [[[r0 | []] p1] log1] eqn:Hpre.
    + intros [= <- <- _]. unfold Builder.tester_prelude in Hpre.
      assert (Hr : exists d, r0 = Builder.error_result d).
      { destruct (generate _ p) as [[t | d] p2].
        2:{ injection Hpre as <- _ _. eauto. }
        destruct (Builder.is_error_text t).
        { injection Hpre as <- _ _. eauto. }
        destruct (generate _ (write_code_tree p2)) as [[t2 | d] p3].
        2:{ injection Hpre as <- _ _. eauto. }
        destruct (Builder.is_error_text t2); [|discriminate Hpre].
        injection Hpre as <- _ _. eauto. }
      destruct Hr as [d ->]. split; [intros k Hk; discriminate Hk|].
      intros Hs. destruct (Hs eq_refl).
    + destruct (tester_loop Builder.test_max_iterations p1 log1)
        as [[[ | d] p2] log2].
      * unfold Builder.tester_finish. intros [= <- <- _]. cbn.
        split; [intros k Hk; congruence | reflexivity].
      * intros [= <- <- _]. split; [intros k Hk; discriminate Hk|].
        intros Hs. destruct (Hs eq_refl).
Qed.

End Phases.

End BuilderMore.

(** The developer on a checklist that keeps two open items: the result
    says 2, and 2 items are open in the project it leaves. *)
Lemma reported_remaining_witness :
  Builder.remaining (fst (fst (BuilderScript.developer BuilderScript.stuck))) = Some 2
  /\ 2 = BuilderParts.count_tasks (snd (fst (BuilderScript.developer BuilderScript.stuck))).
Proof.
  split; [reflexivity|].
  apply (proj1 (BuilderMore.reported_remaining_is_the_final_count
                  BuilderScript.tasks_file BuilderScript.tests_file
                  BuilderScript.generate BuilderScript.write_code_tree
                  BuilderScript.stuck
                  (fst (fst (BuilderScript.developer BuilderScript.stuck)))
                  (snd (fst (BuilderScript.developer BuilderScript.stuck)))
                  (snd (BuilderScript.developer BuilderScript.stuck)))
               eq_refl 2).
  reflexivity.
Defined.

Module SanitizeMore.
Import Tree Sanitize SanitizeAfter.

(** *** Placeholders are never blank *)

Lemma placeholder_for_not_blank fname : blank (placeholder_for fname) = false.
Proof.
  unfold placeholder_for.
  destruct (placeholder_map !! PyStr.lower (splitext_ext fname)) as [v|] eqn:Hv;
    [|reflexivity].
  cbv [default from_option id]. unfold placeholder_map in Hv.
  apply elem_of_list_to_map_2 in Hv.
  repeat (apply elem_of_cons in Hv; destruct Hv as [Hv | Hv];
          [injection Hv as _ ->; reflexivity|]).
  apply elem_of_nil in Hv. destruct Hv.
Qed.

Lemma sanitize_file_twice fname f :
  sanitize_file fname (sanitize_file fname f) = sanitize_file fname f.
Proof.
  unfold sanitize_file.
  destruct (readable f) eqn:Hr, (blank (content f)) eqn:Hb, (writable f) eqn:Hw;
    cbn [negb readable content writable];
    rewrite ?Hr, ?Hb, ?Hw, ?placeholder_for_not_blank; reflexivity.
Qed.

(** *** The two passes, entry by entry *)

Lemma sanitize_node_dir es : sanitize_node (Dir es) = Dir (map sanitize_entry es).
Proof. reflexivity. Qed.

Lemma keep_node_dir es :
  keep_node (Dir es)
  = if (forallb (fun e => is_dir (snd e)) es && negb (has_name ".gitkeep" es))%bool
    then Dir (map keep_entry es ++ [(".gitkeep", File empty_file)])
    else Dir (map keep_entry es).
Proof. reflexivity. Qed.

Lemma sanitize_entry_shape e :
  fst (sanitize_entry e) = fst e
  /\ is_dir (snd (sanitize_entry e)) = is_dir (snd e).
Proof.
  destruct e as [name [f|sub]]; [split; reflexivity|].
  unfold sanitize_entry. cbn [fst snd]. split; reflexivity.
Qed.

Lemma keep_entry_shape e :
  fst (keep_entry e) = fst e /\ is_dir (snd (keep_entry e)) = is_dir (snd e).
Proof.
  destruct e as [name n]. unfold keep_entry. cbn [fst snd].
  split; [reflexivity|]. destruct n; [reflexivity|].
  rewrite keep_node_dir. destruct (_ && _)%bool; reflexivity.
Qed.

Lemma shape_preserved (g : string * node -> string * node) es :
  (forall e, fst (g e) = fst e /\ is_dir (snd (g e)) = is_dir (snd e)) ->
  forallb (fun e => is_dir (snd e)) (map g es) = forallb (fun e => is_dir (snd e)) es
  /\ forall name, has_name name (map g es) = has_name name es.
Proof.
  intros Hg. split; [|intros name]; induction es as [|e es IH]; try reflexivity;
    cbn [map forallb has_name existsb]; destruct (Hg e) as [Hn Hd].
  - rewrite Hd, IH. reflexivity.
  - unfold has_name in IH. rewrite Hn, IH. reflexivity.
Qed.

Lemma map_ext_Forall {A B} (f g : A -> B) (Q : A -> Prop) l :
  Forall Q l -> (forall a, Q a -> f a = g a) -> map f l = map g l.
Proof.
  intros Hl Hfg. induction Hl as [|a l Ha _ IH]; [reflexivity|].
  cbn [map]. rewrite (Hfg a Ha), IH. reflexivity.
Qed.

Lemma sanitize_node_twice n : sanitize_node (sanitize_node n) = sanitize_node n.
Proof.
  induction n as [f|es IH] using SanitizeFacts.node_induction; [reflexivity|].
  rewrite !sanitize_node_dir. f_equal. rewrite List.map_map.
  apply (map_ext_Forall _ _ _ _ IH). intros [name [f|sub]] He.
  - unfold sanitize_entry. cbn [fst snd]. f_equal. f_equal.
    destruct (is_gitkeep name); [reflexivity | apply sanitize_file_twice].
  - cbn [snd] in He.
    change ((name, sanitize_node (sanitize_node (Dir sub)))
            = (name, sanitize_node (Dir sub))).
    rewrite He. reflexivity.
Qed.

Lemma keep_node_twice n : keep_node (keep_node n) = keep_node n.
Proof.
  induction n as [f|es IH] using SanitizeFacts.node_induction; [reflexivity|].
  assert (Hbelow : map keep_entry (map keep_entry es) = map keep_entry es).
  { rewrite List.map_map. apply (map_ext_Forall _ _ _ _ IH).
    intros [name n] He. unfold keep_entry. cbn [fst snd]. f_equal. exact He. }
  destruct (shape_preserved keep_entry es keep_entry_shape) as [Hd Hn].
  rewrite (keep_node_dir es).
  destruct (forallb (fun e => is_dir (snd e)) es && negb (has_name ".gitkeep" es))%bool
    eqn:Hc.
  - rewrite keep_node_dir.
    rewrite List.forallb_app. cbn [forallb is_dir snd]. rewrite !andb_false_r.
    cbn [andb]. rewrite List.map_app, Hbelow. reflexivity.
  - rewrite keep_node_dir, Hd, Hn, Hc, Hbelow. reflexivity.
Qed.

Lemma passes_commute n : sanitize_node (keep_node n) = keep_node (sanitize_node n).
Proof.
  induction n as [f|es IH] using SanitizeFacts.node_induction; [reflexivity|].
  assert (Hbelow : map sanitize_entry (map keep_entry es)
                   = map keep_entry (map sanitize_entry es)).
  { rewrite !List.map_map. apply (map_ext_Forall _ _ _ _ IH).
    intros [name [f|sub]] He; [reflexivity|].
    unfold keep_entry at 2. unfold sanitize_entry at 2. cbn [fst snd].
    unfold keep_entry at 1. cbn [fst snd].
    pose proof (keep_entry_shape (name, Dir sub)) as [_ Hk].
    unfold keep_entry in Hk. cbn [fst snd is_dir] in Hk.
    unfold sanitize_entry. cbn [fst snd].
    destruct (keep_node (Dir sub)) as [f|sub'] eqn:Hkeep; [discriminate Hk|].
    f_equal. rewrite <- Hkeep. exact He. }
  destruct (shape_preserved sanitize_entry es sanitize_entry_shape) as [Hd Hn].
  rewrite (sanitize_node_dir es), (keep_node_dir (map sanitize_entry es)), Hd, Hn.
  rewrite (keep_node_dir es).
  destruct (forallb (fun e => is_dir (snd e)) es && negb (has_name ".gitkeep" es))%bool.
  - rewrite sanitize_node_dir, List.map_app, Hbelow. reflexivity.
  - rewrite sanitize_node_dir, Hbelow. reflexivity.
Qed.

Lemma on_code_dirs_compose (f g : node -> node) root :
  (forall n, is_dir (g n) = is_dir n) ->
  on_code_dirs f (on_code_dirs g root) = on_code_dirs (fun n => f (g n)) root.
Proof.
  intros Hg. unfold on_code_dirs. rewrite List.map_map. apply List.map_ext.
  intros [name n]. cbn [fst snd].
  destruct (is_code_dir name && is_dir n)%bool eqn:Hc; cbn [fst snd].
  - rewrite Hg, Hc. reflexivity.
  - rewrite Hc. reflexivity.
Qed.

Lemma on_code_dirs_ext (f g : node -> node) root :
  (forall n, f n = g n) -> on_code_dirs f root = on_code_dirs g root.
Proof.
  intros H. unfold on_code_dirs. apply List.map_ext. intros e.
  destruct (_ && _)%bool; [rewrite H|]; reflexivity.
Qed.

(** X11: Running [_sanitize_code_directories] on a project it has already
    sanitised leaves the project tree as it is. *)
Theorem sanitize_twice_is_sanitize_once root :
  _sanitize_code_directories (_sanitize_code_directories root)
  = _sanitize_code_directories root.
Proof.
  unfold _sanitize_code_directories.
  rewrite !(on_code_dirs_compose keep_node) by apply SanitizeFacts.sanitize_node_is_dir.
  rewrite on_code_dirs_compose.
  2:{ intros n. rewrite SanitizeFacts.keep_node_is_dir.
      apply SanitizeFacts.sanitize_node_is_dir. }
  apply on_code_dirs_ext. intros n.
  rewrite passes_commute, sanitize_node_twice, keep_node_twice. reflexivity.
Qed.

(** *** The list of modified files *)

Lemma modified_filter root :
  modified root
  = map fst (List.filter rewritten (List.filter not_gitkeep (code_files root))).
Proof.
  unfold modified. f_equal.
  induction (code_files root) as [|pf l IH]; [reflexivity|].
  cbn [List.filter]. unfold not_gitkeep at 1.
  change ((negb (is_gitkeep (basename (fst pf))) && readable (snd pf)
           && negb (blank (content (snd pf))) && writable (snd pf))%bool)
    with (rewritten pf).
  destruct (is_gitkeep (basename (fst pf))) eqn:Hk; cbn [negb].
  - unfold rewritten. rewrite Hk. cbn [negb andb]. exact IH.
  - cbn [List.filter]. destruct (rewritten pf); rewrite IH; reflexivity.
Qed.

Lemma rewritten_overwrite pf : rewritten (overwrite pf) = rewritten pf.
Proof.
  unfold rewritten, overwrite, sanitize_file. cbn [fst snd].
  destruct (is_gitkeep (basename (fst pf))); [reflexivity|]. cbn [negb andb].
  destruct (readable (snd pf)) eqn:Hr, (blank (content (snd pf))) eqn:Hb,
           (writable (snd pf)) eqn:Hw;
    cbn [negb andb readable content writable];
    rewrite ?Hr, ?Hb, ?Hw, ?placeholder_for_not_blank; reflexivity.
Qed.

(** X12: A second run reports the same files as modified as the first run
    did, in the same order: the placeholders it wrote are not blank, so
    it writes them again. *)
Theorem second_run_reports_the_same_files root :
  modified (_sanitize_code_directories root) = modified root.
Proof.
  rewrite !modified_filter. unfold _sanitize_code_directories.
  rewrite SanitizeFacts.code_files_keep, SanitizeFacts.code_files_sanitize,
    SanitizeFacts.filter_pass1.
  induction (List.filter not_gitkeep (code_files root)) as [|pf l IH]; [reflexivity|].
  cbn [map List.filter]. rewrite rewritten_overwrite.
  destruct (rewritten pf); cbn [map]; rewrite IH; reflexivity.
Qed.

(** *** No directory is left without an entry for version control *)

Lemma kept_keep_node n : kept (keep_node n) = true.
Proof.
  induction n as [f|es IH] using SanitizeFacts.node_induction; [reflexivity|].
  assert (Hbelow : forallb (fun e => kept (snd e)) (map keep_entry es) = true).
  { apply forallb_forall. intros e He. apply List.in_map_iff in He.
    destruct He as (e0 & <- & He0). rewrite List.Forall_forall in IH.
    exact (IH e0 He0). }
  destruct (shape_preserved keep_entry es keep_entry_shape) as [Hd Hn].
  rewrite keep_node_dir.
  destruct (forallb (fun e => is_dir (snd e)) es) eqn:Hdirs; cbn [andb].
  - destruct (has_name ".gitkeep" es) eqn:Hname; cbn [negb kept].
    + rewrite Hd, Hn, ?Hdirs, ?Hname, Hbelow. reflexivity.
    + rewrite !List.forallb_app, Hbelow. cbn [forallb is_dir snd kept].
      rewrite andb_false_r. reflexivity.
  - cbn [kept]. rewrite Hd, ?Hdirs, Hbelow. reflexivity.
Qed.


End SanitizeMore.

Module TasksMore.
Import Tasks.

Lemma update_last_split (f : entry -> entry) h :
  h <> [] ->
  exists init e, h = init ++ [e] /\ update_last f h = init ++ [f e].
Proof.
  induction h as [|e h IH]; [congruence|]. intros _.
  destruct h as [|e' h'].
  - exists [], e. split; reflexivity.
  - destruct IH as (init & x & Hh & Hu); [discriminate|].
    exists (e :: init), x.
    change (update_last f (e :: e' :: h')) with (e :: update_last f (e' :: h')).
    rewrite Hu, Hh. split; reflexivity.
Qed.

Lemma last_some_app (init : list entry) e :
  List.last (map Some (init ++ [e])) None = Some e.
Proof.
  rewrite List.map_app. cbn [map]. apply List.last_last.
Qed.

(** *** What a call changes, and what it leaves alone *)

(** X14: [update_agent_artifacts] answers [False] exactly when the task is
    unknown or its memory has no entry, and then changes nothing.
    Otherwise it touches one thing only: in the latest memory entry of
    that task, what is recorded for that agent.  Other tasks, the task's
    agent and progress, the earlier entries and what the latest entry
    records for other agents stay as they were. *)
Theorem update_agent_artifacts_frame (db : store) task_id agent files :
  let ok := fst (update_agent_artifacts db task_id agent files) in
  let db' := snd (update_agent_artifacts db task_id agent files) in
  (ok = false <->
     db !! task_id = None \/ exists t, db !! task_id = Some t /\ history t = [])
  /\ (ok = false -> db' = db)
  /\ (forall other, other <> task_id -> db' !! other = db !! other)
  /\ (ok = true ->
      exists t t' init e e',
        db !! task_id = Some t /\ db' !! task_id = Some t'
        /\ current_agent t' = current_agent t
        /\ progress_percentage t' = progress_percentage t
        /\ history t = init ++ [e] /\ history t' = init ++ [e']
        /\ forall a, a <> agent -> agents_details e' !! a = agents_details e !! a).
Proof.
  intros ok db'. subst ok db'. unfold update_agent_artifacts.
  destruct (db !! task_id) as [t|] eqn:Hdb.
  2:{ cbn [fst snd]. repeat split; auto; discriminate. }
  destruct (history t) as [|e0 h0] eqn:Hh.
  { cbn [fst snd]. repeat split; eauto; try discriminate. }
  cbn [fst snd]. split; [|split; [|split]].
  - split; [discriminate|]. intros [H | (t0 & H & Hnil)]; [discriminate H|].
    injection H as <-. rewrite Hh in Hnil. discriminate Hnil.
  - discriminate.
  - intros other Hother. apply lookup_insert_ne. congruence.
  - intros _.
    set (d := {| files_created := _; in_progress_file := _ |}).
    destruct (update_last_split
                (fun e => {| agents_details := <[agent := d]> (agents_details e) |})
                (e0 :: h0)) as (init & e & Hsplit & Hupd); [discriminate|].
    exists t, {| current_agent := current_agent t;
                 progress_percentage := progress_percentage t;
                 history := init ++ [{| agents_details := <[agent := d]> (agents_details e) |}] |},
           init, e, {| agents_details := <[agent := d]> (agents_details e) |}.
    rewrite Hupd, lookup_insert_eq.
    repeat split; try reflexivity; try congruence.
    intros a Ha. cbn [agents_details]. apply lookup_insert_ne. congruence.
Qed.

(** *** What gets recorded *)

Lemma recorded_after (db : store) task_id agent files t :
  db !! task_id = Some t -> history t <> [] ->
  let kept := filter_artifacts (default [] (agent_outputs !! agent)) files in
  recorded (snd (update_agent_artifacts db task_id agent files)) task_id agent
  = Some {| files_created := kept;
            in_progress_file := choose_in_progress agent kept |}.
Proof.
  intros Hdb Hh kept. unfold update_agent_artifacts. rewrite Hdb.
  destruct (history t) as [|e0 h0] eqn:Hhist; [congruence|].
  cbn [snd]. unfold recorded. rewrite lookup_insert_eq. cbn [mbind option_bind history].
  destruct (update_last_split
              (fun e => {| agents_details :=
                  <[agent := {| files_created := kept;
                                in_progress_file := choose_in_progress agent kept |}]>
                    (agents_details e) |})
              (e0 :: h0)) as (init & e & _ & Hupd); [discriminate|].
  fold kept. rewrite Hupd, last_some_app.
  cbn [mbind option_bind agents_details]. apply lookup_insert_eq.
Qed.

Lemma normalize_no_backslash p : PyStr.occurs backslash (normalize p) = false.
Proof.
  unfold normalize. induction p as [|c r IH]; [reflexivity|].
  cbn [PyStr.replace_char PyStr.occurs]. rewrite IH, orb_false_r.
  destruct (Ascii.eqb c backslash) eqn:Hc; [reflexivity|].
  rewrite Ascii.eqb_sym. exact Hc.
Qed.

Lemma normalize_fixed p : PyStr.occurs backslash p = false -> normalize p = p.
Proof.
  unfold normalize. induction p as [|c r IH]; [reflexivity|].
  cbn [PyStr.replace_char PyStr.occurs]. intros H.
  apply orb_false_iff in H. destruct H as [Hc Hr].
  rewrite (IH Hr), Ascii.eqb_sym, Hc. reflexivity.
Qed.

(** X15: The paths recorded for a stage hold no backslash, and each is the
    normal form of a reported path.  For a stage without a declared
    allow-list every reported path is recorded.  Recording the recorded
    list again records the same list. *)
Theorem recorded_paths_are_normalised (db : store) task_id agent files t :
  db !! task_id = Some t -> history t <> [] ->
  exists d,
    recorded (snd (update_agent_artifacts db task_id agent files)) task_id agent
    = Some d
    /\ Forall (fun p => PyStr.occurs backslash p = false
                        /\ exists r, In r files /\ p = normalize r)
              (files_created d)
    /\ (agent_outputs !! agent = None -> files_created d = map normalize files)
    /\ recorded (snd (update_agent_artifacts db task_id agent (files_created d)))
                task_id agent
       = Some d.
Proof.
  intros Hdb Hh. eexists. split; [exact (recorded_after db task_id agent files t Hdb Hh)|].
  cbn [files_created].
  set (allowed := default [] (agent_outputs !! agent)).
  assert (Hkept : Forall (fun p => PyStr.occurs backslash p = false
                                   /\ exists r, In r files /\ p = normalize r)
                         (filter_artifacts allowed files)).
  { apply List.Forall_forall. intros p Hp. unfold filter_artifacts in Hp.
    apply List.filter_In in Hp. destruct Hp as [Hp _].
    apply List.in_map_iff in Hp. destruct Hp as (r & <- & Hr).
    split; [apply normalize_no_backslash | eauto]. }
  split; [exact Hkept|]. split.
  - intros Hnone. unfold allowed. rewrite Hnone. cbv [default from_option id].
    unfold filter_artifacts. induction (map normalize files) as [|x l IH]; [reflexivity|].
    cbn [List.filter keeps existsb orb]. rewrite IH. reflexivity.
  - rewrite (recorded_after db task_id agent _ t Hdb Hh). fold allowed.
    assert (Hagain : filter_artifacts allowed (filter_artifacts allowed files)
                     = filter_artifacts allowed files).
    { unfold filter_artifacts at 1.
      assert (Hmap : map normalize (filter_artifacts allowed files)
                     = filter_artifacts allowed files).
      { induction Hkept as [|p l [Hp _] _ IH]; [reflexivity|].
        cbn [map]. rewrite (normalize_fixed p Hp), IH. reflexivity. }
      rewrite Hmap. unfold filter_artifacts.
      induction (map normalize files) as [|x l IH]; [reflexivity|].
      cbn [List.filter]. destruct (keeps allowed x) eqn:Hx; [|exact IH].
      cbn [List.filter]. rewrite Hx, IH. reflexivity. }
    rewrite Hagain. reflexivity.
Qed.

Lemma startswith_app s p q :
  PyStr.startswith s (p +:+ q) = true -> PyStr.startswith s p = true.
Proof.
  revert s. induction p as [|a p IH]; intros s H; [reflexivity|].
  destruct s as [|b s]; [discriminate H|].
  cbn [String.append PyStr.startswith] in *.
  apply andb_prop in H. destruct H as [-> H]. exact (IH s H).
Qed.

(** X16: The in-progress hint recorded for a stage, when there is one, is one
    of the paths recorded for that stage and ends in [.md]. *)
Theorem in_progress_hint_is_a_recorded_markdown_file
      (db : store) task_id agent files t :
  db !! task_id = Some t -> history t <> [] ->
  exists d,
    recorded (snd (update_agent_artifacts db task_id agent files)) task_id agent
    = Some d
    /\ forall f, in_progress_file d = Some f ->
                 In f (files_created d) /\ PyStr.endswith f ".md" = true.
Proof.
  intros Hdb Hh. eexists. split; [exact (recorded_after db task_id agent files t Hdb Hh)|].
  cbn [files_created in_progress_file].
  set (kept := filter_artifacts _ files). intros f.
  rewrite TasksFacts.choose_in_progress_by_preference.
  unfold hint_by_preference.
  assert (Hlist : forall name before,
             PyStr.rev name = PyStr.rev ".md" +:+ PyStr.rev before ->
             List.find (fun f => PyStr.endswith f name) kept = Some f ->
             In f kept /\ PyStr.endswith f ".md" = true).
  { intros name before Hname Hfind. apply List.find_some in Hfind.
    destruct Hfind as [Hin He]. split; [exact Hin|].
    unfold PyStr.endswith in *. rewrite Hname in He.
    exact (startswith_app _ _ _ He). }
  destruct (preferred_checklist agent kept) as [g|] eqn:Hpref.
  - intros [= ->]. unfold preferred_checklist in Hpref.
    destruct (String.eqb agent "developer" || String.eqb agent "sm")%bool.
    + exact (Hlist "tasks_list.md" "tasks_list" eq_refl Hpref).
    + destruct (String.eqb agent "tester"); [|discriminate Hpref].
      exact (Hlist "test-list.md" "test-list" eq_refl Hpref).
  - intros Hfind. apply List.find_some in Hfind. destruct Hfind as [Hin Hmd].
    split; [exact Hin | exact (TasksFacts.is_sureai_md_endswith f Hmd)].
Qed.

End TasksMore.

(** The developer stage on a task with one memory entry: the call
    succeeds and the entry stays the only one. *)
Lemma update_agent_artifacts_frame_witness :
  exists t t' init e e',
    Tasks.one_task !! "t1" = Some t
    /\ snd (Tasks.update_agent_artifacts Tasks.one_task "t1" "developer"
              ["backend\app.py"]) !! "t1" = Some t'
    /\ Tasks.current_agent t' = Tasks.current_agent t
    /\ Tasks.progress_percentage t' = Tasks.progress_percentage t
    /\ Tasks.history t = init ++ [e] /\ Tasks.history t' = init ++ [e']
    /\ forall a, a <> "developer" ->
                 Tasks.agents_details e' !! a = Tasks.agents_details e !! a.
Proof.
  apply (proj2 (proj2 (proj2 (TasksMore.update_agent_artifacts_frame
                                Tasks.one_task "t1" "developer" ["backend\app.py"])))).
  reflexivity.
Defined.

(** A stage without allow-list reporting a Windows path. *)
Lemma recorded_paths_witness :
  exists d,
    Tasks.recorded
      (snd (Tasks.update_agent_artifacts Tasks.one_task "t1" "documentation"
              ["docs\guide.md"])) "t1" "documentation"
    = Some d
    /\ Forall (fun p => PyStr.occurs Tasks.backslash p = false
                        /\ exists r, In r ["docs\guide.md"] /\ p = Tasks.normalize r)
              (Tasks.files_created d)
    /\ (Tasks.agent_outputs !! "documentation" = None ->
        Tasks.files_created d = map Tasks.normalize ["docs\guide.md"])
    /\ Tasks.recorded
         (snd (Tasks.update_agent_artifacts Tasks.one_task "t1" "documentation"
                 (Tasks.files_created d))) "t1" "documentation"
       = Some d.
Proof.
  apply (TasksMore.recorded_paths_are_normalised
           Tasks.one_task "t1" "documentation" ["docs\guide.md"] Tasks.blank_task).
  - reflexivity.
  - discriminate.
Defined.

(** The tester stage reporting its checklist. *)
Lemma in_progress_hint_witness :
  exists d,
    Tasks.recorded
      (snd (Tasks.update_agent_artifacts Tasks.one_task "t1" "tester"
              [".sureai/test-list.md"])) "t1" "tester"
    = Some d
    /\ forall f, Tasks.in_progress_file d = Some f ->
                 In f (Tasks.files_created d) /\ PyStr.endswith f ".md" = true.
Proof.
  apply (TasksMore.in_progress_hint_is_a_recorded_markdown_file
           Tasks.one_task "t1" "tester" [".sureai/test-list.md"] Tasks.blank_task).
  - reflexivity.
  - discriminate.
Defined.

Module ContinuationFacts.
Import Continuation.

(** *** Merging the reported files *)

Lemma created_In f l : mem f l = true <-> In f l.
Proof.
  unfold mem. rewrite existsb_exists. split.
  - intros (x & Hx & He). apply String.eqb_eq in He. subst x. exact Hx.
  - intros H. exists f. split; [exact H | apply String.eqb_refl].
Qed.

Lemma extend_new_spec new :
  forall created,
    exists added,
      extend_new created new = created ++ added
      /\ (forall f, In f added <-> In f new /\ ~ In f created)
      /\ List.NoDup added.
Proof.
  induction new as [|f rest IH]; intros created; cbn [extend_new].
  - exists []. rewrite List.app_nil_r. split; [reflexivity|].
    split; [|constructor]. cbn. tauto.
  - destruct (mem f created) eqn:Hm.
    + apply created_In in Hm. destruct (IH created) as (added & -> & Hin & Hnd).
      exists added. split; [reflexivity|]. split; [|exact Hnd].
      intros g. rewrite Hin. cbn [In]. split; [tauto|].
      intros [[<- | Hg] Hn]; [destruct (Hn Hm) | tauto].
    + assert (Hn : ~ In f created).
      { intros H. apply created_In in H. congruence. }
      destruct (IH (created ++ [f])) as (added & -> & Hin & Hnd).
      exists (f :: added). rewrite <- List.app_assoc. split; [reflexivity|].
      split.
      * intros g. cbn [In]. rewrite Hin, List.in_app_iff. cbn [In].
        destruct (String.eqb_spec f g) as [<- | Hfg]; [tauto|]. tauto.
      * constructor; [|exact Hnd]. rewrite Hin, List.in_app_iff. cbn [In]. tauto.
Qed.

(** X17: Merging newly reported files into the files of a stage keeps the
    files that were there, in place, and appends each new name that was
    not there exactly once; so a list without repetition stays without
    repetition, whatever repetitions the new report holds. *)
Theorem extend_new_appends_each_new_file_once created new :
  exists added,
    extend_new created new = created ++ added
    /\ (forall f, In f added <-> In f new /\ ~ In f created)
    /\ List.NoDup added
    /\ (List.NoDup created -> List.NoDup (extend_new created new)).
Proof.
  destruct (extend_new_spec new created) as (added & Heq & Hin & Hnd).
  exists added. split; [exact Heq|]. split; [exact Hin|]. split; [exact Hnd|].
  intros Hc. rewrite Heq. apply List.NoDup_app; [exact Hc | exact Hnd |].
  intros f Hf Ha. apply Hin in Ha. tauto.
Qed.

(** *** The continuation loops *)

Lemma step_counts_app log1 log2 :
  execs (log1 ++ log2) = execs log1 + execs log2
  /\ sleeps (log1 ++ log2) = sleeps log1 + sleeps log2.
Proof.
  unfold execs, sleeps. rewrite !List.filter_app, !List.length_app. auto.
Qed.

Section Loop.
Context {P : Type} (exec : P -> task_result * P).

Local Abbreviation continuation := (continuation P exec).
Local Abbreviation after_stage := (after_stage P exec).

Lemma continuation_log pauses key n :
  forall remaining files p log,
    exists added,
      snd (continuation pauses key n remaining files p log) = log ++ added
      /\ execs added <= n
      /\ (remaining = 0 -> added = [])
      /\ (fst (fst (fst (continuation pauses key n remaining files p log))) = 0
          \/ execs added = n)
      /\ sleeps added <= execs added
      /\ (pauses = false -> sleeps added = 0)
      /\ exists more,
           default [] (snd (fst (fst (continuation pauses key n remaining files p log))))
           = default [] files ++ more.
Proof.
  induction n as [|n IH]; intros remaining files p log; cbn [Continuation.continuation].
  - exists []. rewrite List.app_nil_r. cbn [fst snd].
    repeat split; auto. exists []. rewrite List.app_nil_r. reflexivity.
  - destruct (Nat.eqb remaining 0) eqn:Hz.
    { exists []. rewrite List.app_nil_r. cbn [fst snd].
      apply Nat.eqb_eq in Hz.
      split; [reflexivity|]. split; [cbn; lia|]. split; [reflexivity|].
      split; [left; exact Hz|]. split; [cbn; lia|]. split; [reflexivity|].
      exists []. rewrite List.app_nil_r. reflexivity. }
    apply Nat.eqb_neq in Hz.
    destruct (exec p) as [next p1].
    set (remaining1 := default remaining (key next)).
    set (files1 := match res_files next with
                   | Some new => Some (extend_new (default [] files) new)
                   | None => files
                   end).
    set (pause := (pauses && negb (Nat.eqb remaining1 0)
                   && Nat.leb remaining remaining1)%bool).
    assert (Hfiles : exists more, default [] files1 = default [] files ++ more).
    { unfold files1. destruct (res_files next) as [new|].
      - destruct (extend_new_spec new (default [] files)) as (added & Ha & _).
        exists added. exact Ha.
      - exists []. rewrite List.app_nil_r. reflexivity. }
    destruct (IH remaining1 files1 p1
                 (if pause then (log ++ [Exec; Update (default [] files1)]) ++ [Sleep]
                  else log ++ [Exec; Update (default [] files1)]))
      as (added & Hlog & Hex & _ & Hend & Hsl & Hnp & (more & Hmore)).
    destruct Hfiles as (more1 & Hmore1).
    exists ((if pause then [Exec; Update (default [] files1); Sleep]
             else [Exec; Update (default [] files1)]) ++ added).
    destruct (step_counts_app (if pause then [Exec; Update (default [] files1); Sleep]
                          else [Exec; Update (default [] files1)]) added) as [-> ->].
    split; [|split; [|split; [|split; [|split; [|split]]]]].
    + rewrite Hlog. destruct pause; rewrite <- !List.app_assoc; reflexivity.
    + destruct pause; cbn; lia.
    + intros H0. destruct (Hz H0).
    + destruct Hend as [H0 | Hn]; [left; exact H0 | right].
      destruct pause; cbn; lia.
    + destruct pause; cbn; lia.
    + intros Hp. specialize (Hnp Hp). unfold pause. rewrite Hp. cbn. exact Hnp.
    + exists (more1 ++ more). rewrite Hmore, Hmore1, List.app_assoc. reflexivity.
Qed.

(** X18: After the first run of a stage's tasks the workflow runs them again
    at most 15 times for the developer, 10 times for the tester and
    never for another stage; not at all when the first result reports
    no open item or no count; and it stops early only when a result
    reports no open item.  Only the developer's loop sleeps, at most
    once per run.  The files recorded for the stage only grow. *)
Theorem stage_tasks_are_rerun_a_bounded_number_of_times agent r p :
  let max :=
    if String.eqb agent "developer" then developer_max_attempts
    else if String.eqb agent "tester" then tester_max_attempts else 0 in
  let first :=
    if String.eqb agent "developer" then default 0 (res_subtasks r)
    else if String.eqb agent "tester" then default 0 (res_tests r) else 0 in
  let out := after_stage agent r p in
  exists added,
    snd out = first_update r ++ added
    /\ execs added <= max
    /\ (first = 0 -> added = [])
    /\ (fst (fst (fst out)) = 0 \/ execs added = max)
    /\ sleeps added <= execs added
    /\ (agent <> "developer" -> sleeps added = 0)
    /\ exists more, default [] (snd (fst (fst out))) = default [] (res_files r) ++ more.
Proof.
  intros max first out. subst max first out. unfold Continuation.after_stage.
  destruct (String.eqb_spec agent "developer") as [-> | Hd].
  - destruct (continuation_log true res_subtasks developer_max_attempts
                (default 0 (res_subtasks r)) (res_files r) p (first_update r))
      as (added & H1 & H2 & H3 & H4 & H5 & _ & H7).
    exists added. repeat split; auto. intros H. destruct (H eq_refl).
  - destruct (String.eqb agent "tester").
    + destruct (continuation_log false res_tests tester_max_attempts
                  (default 0 (res_tests r)) (res_files r) p (first_update r))
        as (added & H1 & H2 & H3 & H4 & H5 & H6 & H7).
      exists added. repeat split; auto.
    + exists []. cbn [fst snd]. rewrite List.app_nil_r.
      repeat split; auto. exists []. rewrite List.app_nil_r. reflexivity.
Qed.

End Loop.

End ContinuationFacts.

Module SlugFacts.
Import Slug.

Example first_three_words_sample :
  first_three_words "  Build a  To-Do: app/site for me" = "build_a_to-do".
Proof. vm_compute. reflexivity. Qed.

Example first_three_words_symbols :
  first_three_words " .. __ " = "project"
  /\ first_three_words "" = "project"
  /\ first_three_words "C:\temp *.py" = "c__temp__.py".
Proof. vm_compute. auto. Qed.

Lemma all_chars_cons ok c r :
  all_chars ok (String c r) <-> ok c = true /\ all_chars ok r.
Proof.
  unfold all_chars. cbn [PyStr.occurs]. split.
  - intros H. split.
    + apply H. rewrite Ascii.eqb_refl. reflexivity.
    + intros d Hd. apply H. rewrite Hd. apply orb_true_r.
  - intros [Hc Hr] d Hd. apply orb_prop in Hd. destruct Hd as [Hd | Hd].
    + apply Ascii.eqb_eq in Hd. subst d. exact Hc.
    + exact (Hr d Hd).
Qed.

Lemma all_chars_nil ok : all_chars ok EmptyString.
Proof. intros c H. discriminate H. Qed.

Lemma sub_invalid_valid s : all_chars valid (sub_invalid s).
Proof.
  induction s as [|c r IH]; [apply all_chars_nil|].
  cbn [sub_invalid]. apply all_chars_cons. split; [|exact IH].
  unfold valid. destruct (invalid c) eqn:Hc; [reflexivity | rewrite Hc; reflexivity].
Qed.

Lemma sub_spaces_solid s : all_chars valid s -> all_chars solid (sub_spaces s).
Proof.
  induction s as [|c r IH]; [intros _; apply all_chars_nil|].
  intros H. apply all_chars_cons in H. destruct H as [Hc Hr].
  specialize (IH Hr). cbn [sub_spaces].
  destruct (PyStr.is_space c) eqn:Hs.
  - destruct r as [|c' r'].
    + apply all_chars_cons. split; [reflexivity | apply all_chars_nil].
    + destruct (PyStr.is_space c'); [exact IH|].
      apply all_chars_cons. split; [reflexivity | exact IH].
  - apply all_chars_cons. split; [|exact IH].
    unfold solid. unfold valid in Hc. rewrite Hc, Hs. reflexivity.
Qed.

Lemma lstrip_chars_keeps ok s : all_chars ok s -> all_chars ok (lstrip_chars s).
Proof.
  induction s as [|c r IH]; [auto|]. intros H. cbn [lstrip_chars].
  destruct (trimmed c); [|exact H].
  apply all_chars_cons in H. apply IH. tauto.
Qed.

Lemma rstrip_chars_keeps ok s : all_chars ok s -> all_chars ok (rstrip_chars s).
Proof.
  induction s as [|c r IH]; [auto|]. intros H.
  apply all_chars_cons in H. destruct H as [Hc Hr]. specialize (IH Hr).
  cbn [rstrip_chars]. destruct (rstrip_chars r) as [|c' r'].
  - destruct (trimmed c); [apply all_chars_nil|].
    apply all_chars_cons. split; [exact Hc | apply all_chars_nil].
  - apply all_chars_cons. split; [exact Hc | exact IH].
Qed.

Lemma lstrip_chars_first s :
  match first_char (lstrip_chars s) with
  | Some c => trimmed c = false
  | None => True
  end.
Proof.
  induction s as [|c r IH]; [exact I|]. cbn [lstrip_chars].
  destruct (trimmed c) eqn:Hc; [exact IH | exact Hc].
Qed.

Lemma rstrip_chars_first s :
  rstrip_chars s = EmptyString \/ first_char (rstrip_chars s) = first_char s.
Proof.
  destruct s as [|c r]; [left; reflexivity|]. cbn [rstrip_chars].
  destruct (rstrip_chars r); [destruct (trimmed c)|]; auto.
Qed.

Lemma rstrip_chars_last s :
  match last_char (rstrip_chars s) with
  | Some c => trimmed c = false
  | None => True
  end.
Proof.
  induction s as [|c r IH]; [exact I|]. cbn [rstrip_chars].
  destruct (rstrip_chars r) as [|c' r'].
  - destruct (trimmed c) eqn:Hc; [exact I | exact Hc].
  - exact IH.
Qed.

(** X19: The name [create_task] builds from the first three words of a prompt
    is never empty, holds none of the characters [<>:\/|?*], no white
    space and no control character among CR, LF and TAB, and neither
    starts nor ends with a dot, an underscore or a blank. *)
Theorem project_name_is_a_safe_file_name prompt :
  let name := first_three_words prompt in
  name <> EmptyString
  /\ (forall c, PyStr.occurs c name = true ->
                invalid c = false /\ PyStr.is_space c = false)
  /\ (exists a z, first_char name = Some a /\ last_char name = Some z
                  /\ trimmed a = false /\ trimmed z = false).
Proof.
  intros name. subst name. unfold first_three_words.
  set (w := sub_spaces (sub_invalid (PyStr.lower (join (firstn 3 (split prompt)))))).
  assert (Hsolid : all_chars solid (strip_chars w)).
  { apply rstrip_chars_keeps, lstrip_chars_keeps, sub_spaces_solid, sub_invalid_valid. }
  pose proof (lstrip_chars_first w) as Hfirst.
  pose proof (rstrip_chars_first (lstrip_chars w)) as Hsame.
  pose proof (rstrip_chars_last (lstrip_chars w)) as Hlast.
  fold (strip_chars w) in Hsame, Hlast.
  destruct (strip_chars w) as [|a r] eqn:Hw; cbn [PyStr.truthy negb].
  - split; [discriminate|]. split.
    + intros c Hc. cbn in Hc.
      repeat (apply orb_prop in Hc; destruct Hc as [Hc | Hc];
              [apply Ascii.eqb_eq in Hc; subst c; split; reflexivity|]).
      discriminate Hc.
    + exists "p"%char, "t"%char. repeat split; reflexivity.
  - split; [discriminate|]. split.
    + intros c Hc. specialize (Hsolid c Hc). unfold solid in Hsolid.
      apply andb_prop in Hsolid. destruct Hsolid as [H1 H2].
      apply negb_true_iff in H1, H2. auto.
    + destruct Hsame as [Hsame | Hsame]; [discriminate Hsame|].
      rewrite <- Hsame in Hfirst. cbn [first_char] in Hfirst.
      destruct (last_char (String a r)) as [z|] eqn:Hz.
      * exists a, z. auto.
      * exfalso. clear -Hz. revert a Hz. induction r as [|b r IH]; intros a Hz.
        -- discriminate Hz.
        -- cbn [last_char] in Hz. exact (IH b Hz).
Qed.

End SlugFacts.

Module IncludeDirsFacts.
Import IncludeDirs.

Lemma seen_In d l : mem d l = true <-> In d l.
Proof.
  unfold mem. rewrite existsb_exists. split.
  - intros (x & Hx & He). apply String.eqb_eq in He. subst x. exact Hx.
  - intros H. exists d. split; [exact H | apply String.eqb_refl].
Qed.

Lemma dedupe_spec dirs :
  forall seen,
    exists ds,
      dedupe seen dirs = pairs ds
      /\ List.NoDup ds
      /\ (forall d, In d ds <-> In d dirs /\ d <> EmptyString /\ ~ In d seen)
      /\ (forall d rest, dirs = d :: rest -> d <> EmptyString -> ~ In d seen ->
          hd_error ds = Some d).
Proof.
  induction dirs as [|d rest IH]; intros seen; cbn [dedupe].
  - exists []. split; [reflexivity|]. split; [constructor|]. split.
    + intros d. cbn. tauto.
    + intros d rest H. discriminate H.
  - destruct (PyStr.truthy d && negb (mem d seen))%bool eqn:Hc.
    + apply andb_prop in Hc. destruct Hc as [Ht Hm].
      apply negb_true_iff in Hm.
      assert (Hne : d <> EmptyString) by (intros ->; discriminate Ht).
      assert (Hns : ~ In d seen) by (intros H; apply seen_In in H; congruence).
      destruct (IH (d :: seen)) as (ds & -> & Hnd & Hin & _).
      exists (d :: ds). split; [reflexivity|]. split; [|split].
      * constructor; [|exact Hnd]. rewrite Hin. cbn [In]. tauto.
      * intros x. cbn [In]. rewrite Hin. cbn [In].
        destruct (String.eqb_spec d x) as [<- | Hdx]; tauto.
      * intros x r [= <- _] _ _. reflexivity.
    + destruct (IH seen) as (ds & -> & Hnd & Hin & _).
      exists ds. split; [reflexivity|]. split; [exact Hnd|]. split.
      * intros x. rewrite Hin. cbn [In]. split; [tauto|].
        intros [[<- | Hx] [Hne Hns]]; [|tauto].
        exfalso. apply andb_false_iff in Hc. destruct Hc as [Hc | Hc].
        -- destruct d; [congruence | discriminate Hc].
        -- apply negb_false_iff, seen_In in Hc. exact (Hns Hc).
      * intros x r [= <- _] Hne Hns. exfalso.
        apply andb_false_iff in Hc. destruct Hc as [Hc | Hc].
        -- destruct d; [congruence | discriminate Hc].
        -- apply negb_false_iff, seen_In in Hc. exact (Hns Hc).
Qed.

Section Scan.
Context (exists_ isdir : string -> bool) (listdir : string -> option (list string))
        (join : string -> string -> string) (gettempdir : string).

Local Abbreviation candidate_dirs :=
  (candidate_dirs exists_ isdir listdir join gettempdir).
Local Abbreviation build :=
  (_build_include_dirs_args exists_ isdir listdir join gettempdir).

(** X20: The arguments built for the tool are pairs of the flag and a
    directory; no directory is passed twice, none is empty, and the
    directories passed are exactly the non-empty candidates.  When a
    working directory is given it comes first. *)
Theorem include_directories_are_passed_once working_dir :
  exists ds,
    build working_dir = pairs ds
    /\ List.NoDup ds
    /\ (forall d, In d ds <-> In d (candidate_dirs working_dir) /\ d <> EmptyString)
    /\ (working_dir <> EmptyString -> hd_error ds = Some working_dir).
Proof.
  unfold IncludeDirs._build_include_dirs_args.
  destruct (dedupe_spec (candidate_dirs working_dir) []) as (ds & Heq & Hnd & Hin & Hhd).
  exists ds. split; [exact Heq|]. split; [exact Hnd|]. split.
  - intros d. rewrite Hin. cbn [In]. tauto.
  - intros Hne. unfold IncludeDirs.candidate_dirs in Hhd.
    destruct working_dir as [|c r]; [congruence|]. cbn [PyStr.truthy app] in Hhd.
    eapply Hhd; [reflexivity | discriminate | tauto].
Qed.

End Scan.

End IncludeDirsFacts.

Module TemperatureFacts.
Import Temperature.

Section Values.
Context {T : Type}.

Local Abbreviation pad := (pad T).
Local Abbreviation requested := (requested_temperature T).
Local Abbreviation lookup := (_get_agent_temperature T).

Lemma index_first agent seq :
  match index agent seq with
  | Some j =>
      nth_error seq j = Some agent
      /\ forall k, k < j -> nth_error seq k <> Some agent
  | None => ~ In agent seq
  end.
Proof.
  induction seq as [|a rest IH]; cbn [index]; [tauto|].
  destruct (String.eqb_spec a agent) as [-> | Hne].
  - split; [reflexivity|]. intros k Hk. lia.
  - destruct (index agent rest) as [j|]; cbn [option_map].
    + destruct IH as [Hj Hbefore]. split; [exact Hj|].
      intros [|k] Hk; cbn [nth_error]; [congruence|]. apply Hbefore. lia.
    + cbn [In]. tauto.
Qed.

Lemma index_le agent seq i :
  nth_error seq i = Some agent ->
  exists j, index agent seq = Some j /\ j <= i.
Proof.
  intros Hi. pose proof (index_first agent seq) as H.
  destruct (index agent seq) as [j|].
  - exists j. split; [reflexivity|]. destruct H as [_ Hbefore].
    destruct (Nat.le_gt_cases j i) as [Hle | Hgt]; [exact Hle|].
    destruct (Hbefore i Hgt Hi).
  - destruct H. exact (List.nth_error_In _ _ Hi).
Qed.

(** X21: The temperature a stage executor looks up for its agent is the
    one [execute_workflow] requested for the first position of that
    agent in the sequence: for a sequence that names no agent twice it
    is the temperature requested for the stage itself, and for a
    repeated agent every later position gets the temperature of the
    first one.  Padding the temperatures to the length of the sequence
    changes nothing to what is requested. *)
Theorem stage_temperature_is_that_of_the_first_position seq temps agent i :
  nth_error seq i = Some agent ->
  let stored := pad (length seq) temps in
  (exists j, j <= i /\ nth_error seq j = Some agent
             /\ (forall k, k < j -> nth_error seq k <> Some agent)
             /\ lookup seq stored agent = requested stored j)
  /\ (List.NoDup seq -> lookup seq stored agent = requested stored i)
  /\ (forall k, requested stored k = requested temps k).
Proof.
  intros Hi stored.
  assert (Hpad : forall k, requested stored k = requested temps k).
  { intros k. unfold stored, Temperature.pad, Temperature.requested_temperature.
    destruct (Nat.ltb_spec (length temps) (length seq)) as [Hshort | Hlong];
      [|reflexivity].
    rewrite List.length_app, List.repeat_length.
    destruct (Nat.ltb_spec k (length temps)) as [Hk | Hk].
    - replace (Nat.ltb k (length temps + (length seq - length temps))) with true
        by (symmetry; apply Nat.ltb_lt; lia).
      apply List.app_nth1. exact Hk.
    - destruct (Nat.ltb k (length temps + (length seq - length temps))); [|reflexivity].
      rewrite List.app_nth2 by lia.
      generalize (k - length temps) as m. generalize (length seq - length temps) as r.
      induction r as [|r IH]; intros [|m]; cbn; auto. }
  destruct (index_le agent seq i Hi) as (j & Hj & Hle).
  pose proof (index_first agent seq) as Hfirst. rewrite Hj in Hfirst.
  destruct Hfirst as [Hnth Hbefore].
  assert (Hlook : lookup seq stored agent = requested stored j).
  { unfold Temperature._get_agent_temperature, Temperature.requested_temperature.
    rewrite Hj. reflexivity. }
  split; [|split; [|exact Hpad]].
  - exists j. auto.
  - intros Hnd. rewrite Hlook. f_equal.
    apply (proj1 (List.NoDup_nth_error seq) Hnd j i).
    + apply List.nth_error_Some. congruence.
    + congruence.
Qed.

Lemma outsider_gets_no_temperature seq temps agent :
  ~ In agent seq -> lookup seq temps agent = None.
Proof.
  intros Hout. unfold Temperature._get_agent_temperature.
  pose proof (index_first agent seq) as H.
  destruct (index agent seq) as [j|]; [|reflexivity].
  destruct H as [Hj _]. destruct (Hout (List.nth_error_In _ _ Hj)).
Qed.

End Values.

End TemperatureFacts.

(** A sequence that runs the developer twice, with one temperature for
    each of its three positions. *)
Lemma stage_temperature_witness :
  let seq := ["developer"; "tester"; "developer"] in
  let stored := Temperature.pad Z (length seq) [Some 2%Z; Some 5%Z; Some 9%Z] in
  (exists j, j <= 2 /\ nth_error seq j = Some "developer"
             /\ (forall k, k < j -> nth_error seq k <> Some "developer")
             /\ Temperature._get_agent_temperature Z seq stored "developer"
                = Temperature.requested_temperature Z stored j)
  /\ (List.NoDup seq ->
      Temperature._get_agent_temperature Z seq stored "developer"
      = Temperature.requested_temperature Z stored 2)
  /\ (forall k, Temperature.requested_temperature Z stored k
                = Temperature.requested_temperature Z [Some 2%Z; Some 5%Z; Some 9%Z] k).
Proof.
  intros seq stored.
  apply (TemperatureFacts.stage_temperature_is_that_of_the_first_position
           seq [Some 2%Z; Some 5%Z; Some 9%Z] "developer" 2).
  reflexivity.
Defined.

(** In that sequence the second developer stage is handed 9 by the
    workflow, and looks up 2. *)
Example repeated_agent_looks_up_the_first_temperature :
  let seq := ["developer"; "tester"; "developer"] in
  let stored := Temperature.pad Z (length seq) [Some 2%Z; Some 5%Z; Some 9%Z] in
  Temperature.requested_temperature Z stored 2 = Some 9%Z
  /\ Temperature._get_agent_temperature Z seq stored "developer" = Some 2%Z.
Proof. split; reflexivity. Qed.

Module HandoffFacts.
Import Handoff.

(** X22: After [update_handoff_prompt] an agent's handoff prompt is the new
    text when that text is not empty; setting it to the empty text or to
    [None] gives back the agent's default prompt, so a default cannot be
    blanked out.  The prompts of other agents stay as they were. *)
Theorem handoff_prompt_after_update m agent prompt other :
  get_handoff_prompt (update_handoff_prompt m agent prompt) other
  = if String.eqb other agent then
      if PyStr.truthy (default "" prompt) then default "" prompt
      else default "" (_default_handoff_prompts m !! agent)
    else get_handoff_prompt m other.
Proof.
  unfold get_handoff_prompt, update_handoff_prompt.
  cbn [_handoff_prompts _default_handoff_prompts].
  destruct (String.eqb_spec other agent) as [-> | Hne].
  - rewrite lookup_insert_eq. destruct (default "" prompt) as [|c r]; reflexivity.
  - rewrite lookup_insert_ne by congruence. reflexivity.
Qed.

End HandoffFacts.

Module WorkflowMore.
Import Workflow.

Local Open Scope Z_scope.

Section Run.
Context (pct : nat -> nat -> Z) (ok : nat -> bool).

Local Abbreviation stage_writes := (stage_writes pct ok).

Lemma stage_writes_through n agents :
  forall i,
    (forall j, (i <= j < i + length agents)%nat -> ok j = true) ->
    snd (stage_writes n i agents) = true.
Proof.
  induction agents as [|a rest IH]; intros i Hok; cbn [Workflow.stage_writes];
    [reflexivity|].
  cbn [length] in Hok. rewrite (Hok i) by lia.
  specialize (IH (S i)). destruct (stage_writes n (S i) rest) as [ws through].
  cbn [snd] in *. apply IH. intros j Hj. apply Hok. lia.
Qed.

Lemma stage_writes_stopped n agents :
  forall i k a,
    (forall j, (i <= j < i + k)%nat -> ok j = true) ->
    ok (i + k)%nat = false ->
    nth_error agents k = Some a ->
    exists earlier,
      stage_writes n i agents = (earlier ++ [(a, pct (i + k) n)], false).
Proof.
  induction agents as [|b rest IH]; intros i k a Hok Hfail Hk.
  - destruct k; discriminate Hk.
  - cbn [Workflow.stage_writes]. destruct k as [|k].
    + injection Hk as ->. rewrite Nat.add_0_r in Hfail. rewrite Hfail.
      exists []. rewrite Nat.add_0_r. reflexivity.
    + cbn [nth_error] in Hk. rewrite (Hok i) by lia.
      destruct (IH (S i) k a) as (earlier & Heq).
      * intros j Hj. apply Hok. lia.
      * replace (S i + k)%nat with (i + S k)%nat by lia. exact Hfail.
      * exact Hk.
      * rewrite Heq. exists ((b, pct i n) :: (b, pct (S i) n) :: earlier).
        replace (S i + k)%nat with (i + S k)%nat by lia. reflexivity.
Qed.

End Run.

Lemma percent_bounds n i : (i <= n)%nat -> 0 <= percent i n <= 100.
Proof.
  intros Hi. split.
  - etransitivity; [apply (WorkflowFacts.percent_start n)|].
    apply WorkflowFacts.percent_monotone. lia.
  - etransitivity; [apply (WorkflowFacts.percent_monotone n i n Hi)|].
    apply WorkflowFacts.percent_full.
Qed.


End WorkflowMore.


(** A call that finds the clock 1000 s after its start, with the default
    cap of 900 s: three attempts, two sleeps, no run. *)
Lemma past_the_overall_cap_witness :
  exists e1 log1 elapsed,
    Cli.attempts Q CliLog.steady_now (CliLog.steady_stdin CliLog.crash)
      (CliLog.steady_arg CliLog.crash) CliLog.steady_sleep
      CliScript.no_config CliScript.retry_delay
      (Cli.compute_budgets CliScript.no_config 2 "") "" 0%Q 3 0%Z None 1000%Q []
    = (Cli.Raise (Cli.OverallTimeoutExceeded elapsed
                    (Cli.overall_cap (Cli.compute_budgets CliScript.no_config 2 ""))),
       e1, [] ++ log1)
    /\ CliLog.primary_runs log1 = 0 /\ CliLog.arg_runs log1 = 0
    /\ CliLog.sleeps log1 = 2.
Proof.
  apply (PolicyFacts.past_the_overall_cap_no_run_starts
           CliLog.steady_now (CliLog.steady_stdin CliLog.crash)
           (CliLog.steady_arg CliLog.crash) CliLog.steady_sleep
           CliScript.no_config CliScript.retry_delay
           (fun c : Q => c = 1000%Q)
           (Cli.compute_budgets CliScript.no_config 2 "") "" 0%Q).
  - intros e ->. reflexivity.
  - intros d e ->. reflexivity.
  - reflexivity.
  - reflexivity.
Defined.
